(** * Excel-Evaluator: the two assessment sessions and their evaluator adapters

    A shallow embedding of
      - [src/components/ExcelAssessment.tsx]            (question session)
      - [src/components/InteractiveExcelAssessment.tsx] (spreadsheet task session)

    Conventions of the embedding.
      - A JavaScript string is the list of its UTF-16 code units ([jsstring]).
      - A JavaScript number is kept as an exact decimal [mantissa * 10^exponent10]
        (a rational once it is a score); rounding to IEEE-754 doubles is not
        represented.
      - Values that come out of [JSON.parse] and [response.json()] are dynamic
        ([JsVal]).  The records kept by the sessions carry the types declared
        by the TypeScript interfaces ([score : number],
        [justification : string]): a step that would store an evaluation
        outside these types is not a step of the model.
      - [new Date()] is an input of every step (milliseconds since the epoch).
      - An awaited [fetch] is a suspended computation ([Fetch request resume])
        that the environment resumes with an [HttpOutcome].  A session keeps
        its suspended handler calls, each with the constants of the render it
        closed over, and the functional state updates of a resumed call act
        on the state of that moment.
      - A step is one turn of the event loop followed by one render; an
        updater passed to a state setter runs once.  Reloading the page starts
        a new session from [initial]. *)

From Stdlib Require Import List ZArith NArith QArith Qround Bool Lia Lqa.
From Stdlib Require String Ascii.
Import ListNotations.

Import String.StringSyntax.
Delimit Scope string_scope with string.

Set Implicit Arguments.
Set Warnings "-register-all".

(* ================================================================== *)
(** ** JavaScript values *)
(* ================================================================== *)

Module Js.

Definition jsstring := list N.

(** An ASCII literal as a JavaScript string. *)
Definition lit (s : String.string) : jsstring :=
  map Ascii.N_of_ascii (String.list_ascii_of_string s).
Arguments lit s%_string.

(** The same, with every apostrophe standing for a double quote (code unit
    34), so that JSON texts can be written down. *)
Definition qlit (s : String.string) : jsstring :=
  map (fun c => if N.eqb c 39 then 34%N else c) (lit s).
Arguments qlit s%_string.

Fixpoint str_eqb (a b : jsstring) : bool :=
  match a, b with
  | [], [] => true
  | x :: a', y :: b' => N.eqb x y && str_eqb a' b'
  | _, _ => false
  end.

Fixpoint starts_with (p s : jsstring) : bool :=
  match p, s with
  | [], _ => true
  | x :: p', y :: s' => N.eqb x y && starts_with p' s'
  | _ :: _, [] => false
  end.

Record number := mkNum { mantissa : Z; exponent10 : Z }.

Definition num_of_Z (z : Z) : number := mkNum z 0.

Inductive JsVal :=
| JUndefined
| JNull
| JBool (b : bool)
| JNum (n : number)
| JStr (s : jsstring)
| JArr (elems : list JsVal)
| JObj (fields : list (jsstring * JsVal)).

(** Own property of an object built by [JSON.parse]: a later duplicate of a
    key overrides an earlier one. *)
Fixpoint own_prop (k : jsstring) (fields : list (jsstring * JsVal)) : option JsVal :=
  match fields with
  | [] => None
  | (k', v) :: rest =>
      match own_prop k rest with
      | Some v' => Some v'
      | None => if str_eqb k k' then Some v else None
      end
  end.

(** [v.name] for a name that no built-in prototype defines (the sources read
    [candidates], [content], [parts], [text], [score], [justification]).
    [None] is the TypeError of reading a property of [undefined] or [null]. *)
Definition member (v : JsVal) (name : jsstring) : option JsVal :=
  match v with
  | JUndefined | JNull => None
  | JObj fields =>
      match own_prop name fields with
      | Some x => Some x
      | None => Some JUndefined
      end
  | JBool _ | JNum _ | JStr _ | JArr _ => Some JUndefined
  end.

(** [v[0]]. *)
Definition index0 (v : JsVal) : option JsVal :=
  match v with
  | JUndefined | JNull => None
  | JArr [] => Some JUndefined
  | JArr (x :: _) => Some x
  | JStr [] => Some JUndefined
  | JStr (c :: _) => Some (JStr [c])
  | JObj fields =>
      match own_prop (lit "0") fields with
      | Some x => Some x
      | None => Some JUndefined
      end
  | JBool _ | JNum _ => Some JUndefined
  end.

(** ToBoolean. *)
Definition truthy (v : JsVal) : bool :=
  match v with
  | JUndefined | JNull => false
  | JBool b => b
  | JNum n => negb (Z.eqb (mantissa n) 0)
  | JStr s => match s with [] => false | _ => true end
  | JArr _ | JObj _ => true
  end.

(** [a || b]. *)
Definition js_or (a b : JsVal) : JsVal := if truthy a then a else b.

(** White space and line terminators removed by [String.prototype.trim]. *)
Definition is_trim_space (c : N) : bool :=
  ((9 <=? c) && (c <=? 13) || (c =? 32) || (c =? 160) || (c =? 5760)
   || (8192 <=? c) && (c <=? 8202) || (c =? 8232) || (c =? 8233)
   || (c =? 8239) || (c =? 8287) || (c =? 12288) || (c =? 65279))%N.

Fixpoint trim_start (s : jsstring) : jsstring :=
  match s with
  | c :: rest => if is_trim_space c then trim_start rest else s
  | [] => []
  end.

Definition trim (s : jsstring) : jsstring :=
  rev (trim_start (rev (trim_start s))).

(** *** Number::toString on exact decimals *)

Fixpoint uint_digits (u : Decimal.uint) : list N :=
  match u with
  | Decimal.Nil => []
  | Decimal.D0 r => 0%N :: uint_digits r
  | Decimal.D1 r => 1%N :: uint_digits r
  | Decimal.D2 r => 2%N :: uint_digits r
  | Decimal.D3 r => 3%N :: uint_digits r
  | Decimal.D4 r => 4%N :: uint_digits r
  | Decimal.D5 r => 5%N :: uint_digits r
  | Decimal.D6 r => 6%N :: uint_digits r
  | Decimal.D7 r => 7%N :: uint_digits r
  | Decimal.D8 r => 8%N :: uint_digits r
  | Decimal.D9 r => 9%N :: uint_digits r
  end.

(** Decimal digits (values 0..9) of a positive number, most significant first. *)
Definition pos_digits (p : positive) : list N := uint_digits (Pos.to_uint p).

Definition digit_chars (ds : list N) : jsstring := map (fun d => (48 + d)%N) ds.

Fixpoint drop_zeros (ds : list N) : list N :=
  match ds with
  | 0%N :: rest => drop_zeros rest
  | _ => ds
  end.

Definition zeros (n : nat) : jsstring := repeat 48%N n.

Definition unsigned_toString (p : positive) (e : Z) : jsstring :=
  let all := pos_digits p in
  let sig := rev (drop_zeros (rev all)) in
  let k := Z.of_nat (length sig) in
  let e' := (e + Z.of_nat (length all) - k)%Z in
  let n := (k + e')%Z in
  if ((k <=? n) && (n <=? 21))%Z then
    digit_chars sig ++ zeros (Z.to_nat (n - k))
  else if ((0 <? n) && (n <=? 21))%Z then
    digit_chars (firstn (Z.to_nat n) sig) ++ [46%N] ++ digit_chars (skipn (Z.to_nat n) sig)
  else if ((-6 <? n) && (n <=? 0))%Z then
    [48%N; 46%N] ++ zeros (Z.to_nat (- n)) ++ digit_chars sig
  else
    let ex := (n - 1)%Z in
    let sign := if (ex <? 0)%Z then 45%N else 43%N in
    let exd := match Z.abs ex with
               | Zpos q => digit_chars (pos_digits q)
               | _ => [48%N]
               end in
    match sig with
    | [d] => digit_chars [d] ++ [101%N; sign] ++ exd
    | d :: more => digit_chars [d] ++ [46%N] ++ digit_chars more ++ [101%N; sign] ++ exd
    | [] => []
    end.

Definition Number_toString (n : number) : jsstring :=
  match mantissa n with
  | Z0 => [48%N]
  | Zpos p => unsigned_toString p (exponent10 n)
  | Zneg p => 45%N :: unsigned_toString p (exponent10 n)
  end.

Fixpoint join_with (sep : jsstring) (parts : list jsstring) : jsstring :=
  match parts with
  | [] => []
  | [p] => p
  | p :: rest => p ++ sep ++ join_with sep rest
  end.

Fixpoint all_some {A} (l : list (option A)) : option (list A) :=
  match l with
  | [] => Some []
  | None :: _ => None
  | Some x :: rest =>
      match all_some rest with
      | Some xs => Some (x :: xs)
      | None => None
      end
  end.

(** ToString of a value that came out of a JSON decoder.  [None] is the
    TypeError raised for an object whose own [toString] member shadows
    [Object.prototype.toString] with something that cannot be called.
    Arrays go through [Array.prototype.join], which prints [undefined] and
    [null] elements as the empty string. *)
Fixpoint ToString (v : JsVal) : option jsstring :=
  match v with
  | JUndefined => Some (lit "undefined")
  | JNull => Some (lit "null")
  | JBool true => Some (lit "true")
  | JBool false => Some (lit "false")
  | JNum n => Some (Number_toString n)
  | JStr s => Some s
  | JArr elems =>
      let element (x : JsVal) :=
        match x with
        | JUndefined | JNull => Some []
        | _ => ToString x
        end in
      match all_some (map element elems) with
      | Some parts => Some (join_with [44%N] parts)
      | None => None
      end
  | JObj fields =>
      match own_prop (lit "toString") fields with
      | Some _ => None
      | None => Some (lit "[object Object]")
      end
  end.

End Js.

(* ================================================================== *)
(** ** JSON.parse *)
(* ================================================================== *)

Module Json.
Import Js.

Inductive token :=
| TLBrace | TRBrace | TLBracket | TRBracket | TColon | TComma
| TString (s : jsstring)
| TNumber (n : number)
| TTrue | TFalse | TNull.

Definition is_json_space (c : N) : bool :=
  ((c =? 32) || (c =? 9) || (c =? 10) || (c =? 13))%N.

Definition is_digit (c : N) : bool := ((48 <=? c) && (c <=? 57))%N.

Definition is_letter (c : N) : bool :=
  ((97 <=? c) && (c <=? 122) || (65 <=? c) && (c <=? 90))%N.

(** First character of a number or of [true], [false], [null]. *)
Definition word_start (c : N) : bool :=
  is_digit c || is_letter c || (c =? 45)%N.

(** Characters that can continue a number or a literal name. *)
Definition word_char (c : N) : bool :=
  is_digit c || is_letter c || (c =? 45)%N || (c =? 43)%N || (c =? 46)%N.

Definition hex_value (c : N) : option N :=
  if is_digit c then Some (c - 48)%N
  else if ((97 <=? c) && (c <=? 102))%N then Some (c - 87)%N
  else if ((65 <=? c) && (c <=? 70))%N then Some (c - 55)%N
  else None.

Fixpoint span_digits (s : jsstring) : jsstring * jsstring :=
  match s with
  | c :: rest =>
      if is_digit c then let (ds, r) := span_digits rest in (c :: ds, r)
      else ([], s)
  | [] => ([], [])
  end.

Definition digits_value (ds : jsstring) : Z :=
  fold_left (fun acc c => (acc * 10 + Z.of_N (c - 48))%Z) ds 0%Z.

(** The exponent part of a number: empty, or [e]/[E], an optional sign and at
    least one digit, up to the end of the word. *)
Definition exponent_part (s : jsstring) : option Z :=
  match s with
  | [] => Some 0%Z
  | c :: rest =>
      if ((c =? 101) || (c =? 69))%N then
        let (neg, rest') :=
          match rest with
          | 45%N :: r => (true, r)
          | 43%N :: r => (false, r)
          | _ => (false, rest)
          end in
        match span_digits rest' with
        | ((_ :: _) as ds, []) =>
            Some (if neg then (- digits_value ds)%Z else digits_value ds)
        | _ => None
        end
      else None
  end.

(** The fraction part: empty, or a dot and at least one digit. *)
Definition fraction_part (s : jsstring) : option (jsstring * jsstring) :=
  match s with
  | 46%N :: rest =>
      match span_digits rest with
      | ((_ :: _) as ds, r) => Some (ds, r)
      | _ => None
      end
  | _ => Some ([], s)
  end.

(** The JSON number grammar: an optional minus sign; an integer part that is
    either a single zero or starts with a non-zero digit; an optional
    fraction; an optional exponent. *)
Definition number_of_word (w : jsstring) : option number :=
  let (neg, body) :=
    match w with
    | 45%N :: r => (true, r)
    | _ => (false, w)
    end in
  match span_digits body with
  | ([], _) => None
  | ((d :: more) as int, rest) =>
      if (d =? 48)%N && negb (match more with [] => true | _ => false end) then None
      else
        match fraction_part rest with
        | None => None
        | Some (frac, rest') =>
            match exponent_part rest' with
            | None => None
            | Some e =>
                let m := digits_value (int ++ frac) in
                Some (mkNum (if neg then (- m)%Z else m)
                            (e - Z.of_nat (length frac)))
            end
        end
  end.

Definition token_of_word (w : jsstring) : option token :=
  if str_eqb w (lit "true") then Some TTrue
  else if str_eqb w (lit "false") then Some TFalse
  else if str_eqb w (lit "null") then Some TNull
  else option_map TNumber (number_of_word w).

Inductive lex_mode :=
| LIdle
| LWord (acc : jsstring)                 (* reversed *)
| LStr (acc : jsstring)                  (* reversed *)
| LEsc (acc : jsstring)                  (* after a backslash *)
| LUni (acc : jsstring) (more : nat) (v : N).   (* inside \uXXXX *)

Definition punctuation (c : N) : option token :=
  if (c =? 123)%N then Some TLBrace
  else if (c =? 125)%N then Some TRBrace
  else if (c =? 91)%N then Some TLBracket
  else if (c =? 93)%N then Some TRBracket
  else if (c =? 58)%N then Some TColon
  else if (c =? 44)%N then Some TComma
  else None.

Definition escape_char (c : N) : option N :=
  if (c =? 34)%N then Some 34%N
  else if (c =? 92)%N then Some 92%N
  else if (c =? 47)%N then Some 47%N
  else if (c =? 98)%N then Some 8%N
  else if (c =? 102)%N then Some 12%N
  else if (c =? 110)%N then Some 10%N
  else if (c =? 114)%N then Some 13%N
  else if (c =? 116)%N then Some 9%N
  else None.

(** What one character does outside a string, a number or a name. *)
Definition idle_step (c : N) : option (lex_mode * list token) :=
  if is_json_space c then Some (LIdle, [])
  else if (c =? 34)%N then Some (LStr [], [])
  else if word_start c then Some (LWord [c], [])
  else
    match punctuation c with
    | Some t => Some (LIdle, [t])
    | None => None
    end.

(** One character: the next mode and the tokens completed by it; [None] is a
    SyntaxError. *)
Definition lex_step (mode : lex_mode) (c : N) : option (lex_mode * list token) :=
  match mode with
  | LIdle => idle_step c
  | LWord acc =>
      if word_char c then Some (LWord (c :: acc), [])
      else
        match token_of_word (rev acc), idle_step c with
        | Some t, Some (mode', ts) => Some (mode', t :: ts)
        | _, _ => None
        end
  | LStr acc =>
      if (c =? 34)%N then Some (LIdle, [TString (rev acc)])
      else if (c =? 92)%N then Some (LEsc acc, [])
      else if (c <? 32)%N then None
      else Some (LStr (c :: acc), [])
  | LEsc acc =>
      if (c =? 117)%N then Some (LUni acc 3 0%N, [])
      else
        match escape_char c with
        | Some x => Some (LStr (x :: acc), [])
        | None => None
        end
  | LUni acc more v =>
      match hex_value c with
      | None => None
      | Some h =>
          let v' := (v * 16 + h)%N in
          match more with
          | O => Some (LStr (v' :: acc), [])
          | S more' => Some (LUni acc more' v', [])
          end
      end
  end.

(** The tokens of a JSON text; [None] is a SyntaxError. *)
Fixpoint lex (mode : lex_mode) (s : jsstring) : option (list token) :=
  match s with
  | [] =>
      match mode with
      | LIdle => Some []
      | LWord acc => option_map (fun t => [t]) (token_of_word (rev acc))
      | LStr _ | LEsc _ | LUni _ _ _ => None
      end
  | c :: rest =>
      match lex_step mode c with
      | Some (mode', ts) => option_map (app ts) (lex mode' rest)
      | None => None
      end
  end.

(** A container under construction. *)
Inductive frame :=
| InArr (done : list JsVal)                                   (* reversed *)
| InObj (done : list (jsstring * JsVal)) (key : option jsstring).   (* reversed *)

Inductive parse_mode :=
| MVal          (* a value must follow *)
| MValOrEnd     (* just after [[]: a value or []] *)
| MKey          (* after a comma in an object: a key *)
| MKeyOrEnd     (* just after [{]: a key or [}] *)
| MColon
| MSep          (* after a value in a container: a comma or the closing bracket *)
| MDone (v : JsVal).

Definition push_value (v : JsVal) (stack : list frame) : option (parse_mode * list frame) :=
  match stack with
  | [] => Some (MDone v, [])
  | InArr done :: st => Some (MSep, InArr (v :: done) :: st)
  | InObj done (Some k) :: st => Some (MSep, InObj ((k, v) :: done) None :: st)
  | InObj _ None :: _ => None
  end.

Definition scalar (t : token) : option JsVal :=
  match t with
  | TString s => Some (JStr s)
  | TNumber n => Some (JNum n)
  | TTrue => Some (JBool true)
  | TFalse => Some (JBool false)
  | TNull => Some JNull
  | _ => None
  end.

Definition parse_step (mode : parse_mode) (stack : list frame) (t : token)
  : option (parse_mode * list frame) :=
  match mode with
  | MVal | MValOrEnd =>
      match t with
      | TLBracket => Some (MValOrEnd, InArr [] :: stack)
      | TLBrace => Some (MKeyOrEnd, InObj [] None :: stack)
      | TRBracket =>
          match mode, stack with
          | MValOrEnd, InArr [] :: st => push_value (JArr []) st
          | _, _ => None
          end
      | _ =>
          match scalar t with
          | Some v => push_value v stack
          | None => None
          end
      end
  | MKey | MKeyOrEnd =>
      match t with
      | TString k =>
          match stack with
          | InObj done None :: st => Some (MColon, InObj done (Some k) :: st)
          | _ => None
          end
      | TRBrace =>
          match mode, stack with
          | MKeyOrEnd, InObj [] None :: st => push_value (JObj []) st
          | _, _ => None
          end
      | _ => None
      end
  | MColon =>
      match t with
      | TColon => Some (MVal, stack)
      | _ => None
      end
  | MSep =>
      match t, stack with
      | TComma, InArr _ :: _ => Some (MVal, stack)
      | TComma, InObj _ None :: _ => Some (MKey, stack)
      | TRBracket, InArr done :: st => push_value (JArr (rev done)) st
      | TRBrace, InObj done None :: st => push_value (JObj (rev done)) st
      | _, _ => None
      end
  | MDone _ => None
  end.

Fixpoint parse_tokens (mode : parse_mode) (stack : list frame) (ts : list token)
  : option JsVal :=
  match ts with
  | [] => match mode with MDone v => Some v | _ => None end
  | t :: rest =>
      match parse_step mode stack t with
      | Some (mode', stack') => parse_tokens mode' stack' rest
      | None => None
      end
  end.

(** [JSON.parse(text)] on a string; [None] is a SyntaxError. *)
Definition JSON_parse (text : jsstring) : option JsVal :=
  match lex LIdle text with
  | Some ts => parse_tokens MVal [] ts
  | None => None
  end.

End Json.

(* ================================================================== *)
(** ** The predefined items *)
(* ================================================================== *)

Module Items.
Import Js.

(** [EXCEL_QUESTIONS] of ExcelAssessment.tsx. *)
Definition EXCEL_QUESTIONS : list jsstring :=
  [ lit "In your own words, what is the primary purpose of VLOOKUP in Excel?";
    lit "You have a dataset where column A contains Product IDs and column B contains Product Names. On another sheet, you have a Product ID in cell C2. Write the VLOOKUP formula to find the corresponding Product Name.";
    lit "What is the difference between VLOOKUP's TRUE and FALSE arguments for the [range_lookup] parameter? When would you use TRUE?";
    lit "VLOOKUP returns an #N/A error. List three common reasons why this might be happening.";
    lit "What are the main advantages of using INDEX and MATCH together over VLOOKUP?" ].

Inductive Difficulty := Easy | Medium | Hard.

Record Task := mkTask {
  id : nat;
  title : jsstring;
  description : jsstring;
  expectedResult : jsstring;
  difficulty : Difficulty;
  timeLimit : Z
}.

(** [EXCEL_TASKS] of InteractiveExcelAssessment.tsx. *)
Definition EXCEL_TASKS : list Task :=
  [ mkTask 1 (lit "Basic VLOOKUP")
      (lit "In cell F2, create a VLOOKUP formula to find the price of the product ID entered in cell E2.")
      (lit "=VLOOKUP(E2,A:B,2,FALSE)") Easy 180;
    mkTask 2 (lit "Data Validation & Formatting")
      (lit "Apply currency formatting to column B (Price) and create a data validation dropdown in E2 with the product IDs from column A.")
      (lit "formatted_currency") Medium 300;
    mkTask 3 (lit "INDEX MATCH Alternative")
      (lit "In cell F3, create an INDEX/MATCH formula that does the same lookup as the VLOOKUP in F2, but can search in any direction.")
      (lit "=INDEX(B:B,MATCH(E2,A:A,0))") Medium 240;
    mkTask 4 (lit "Error Handling")
      (lit "Modify your VLOOKUP formula in F2 to display 'Product Not Found' instead of #N/A when the lookup fails.")
      (qlit "=IFERROR(VLOOKUP(E2,A:B,2,FALSE),'Product Not Found')") Hard 300;
    mkTask 5 (lit "Advanced Analysis")
      (lit "Create a summary in cells H1:I3 showing: Total Products, Average Price, and Most Expensive Product Name.")
      (lit "multiple_formulas") Hard 420 ].

Inductive ActionType := cell_edit | formula_entered | data_changed.

Record SpreadsheetAction := mkAction {
  timestamp : Z;
  type : ActionType;
  cell : jsstring;
  oldValue : jsstring;
  newValue : jsstring
}.

Inductive FlagType := paste | tab_switch.

Record CheatingFlag := mkFlag { flag_type : FlagType; flag_timestamp : Z }.

End Items.

(* ================================================================== *)
(** ** The evaluator adapters: [evaluateAnswer] and [evaluateTask] *)
(* ================================================================== *)

Module Evaluator.
Import Js Json Items.

(** What the awaited [fetch] and [response.json()] can deliver. *)
Inductive HttpOutcome :=
| NetworkError                                   (* [fetch] rejects *)
| HttpResponse (ok : bool) (body : option JsVal).
    (* [body = None]: [response.json()] rejects *)

(** The object returned by an adapter, as it is at run time. *)
Record EvalResult := mkResult { score : JsVal; justification : JsVal }.

(** The one request an adapter issues, by what it is built from. *)
Inductive Request :=
| AnswerRequest (apiKey question answer : jsstring)
| TaskRequest (apiKey : jsstring) (task : Task) (actions : list SpreadsheetAction).

(** An adapter call up to its only suspension point: it has returned without
    touching the network, or it has issued one request and waits. *)
Inductive Eval :=
| Ret (r : EvalResult)
| Fetch (request : Request) (resume : HttpOutcome -> EvalResult).

Definition bind {A B} (x : option A) (f : A -> option B) : option B :=
  match x with
  | Some a => f a
  | None => None
  end.

Notation "x <- e ;; k" := (bind e (fun x => k))
  (at level 61, e at next level, right associativity).

Definition JNumZ (z : Z) : JsVal := JNum (num_of_Z z).

Definition credential_result : EvalResult :=
  mkResult (JNumZ 0) (JStr (lit "API key required for evaluation")).

Definition task_not_found : EvalResult :=
  mkResult (JNumZ 0) (JStr (lit "Task not found")).

Definition error_result : EvalResult :=
  mkResult (JNumZ 0) (JStr (lit "Error occurred during evaluation")).

Definition answer_fallback : EvalResult :=
  mkResult (JNumZ 5) (JStr (lit "Answer received but could not be properly evaluated")).

Definition task_fallback : EvalResult :=
  mkResult (JNumZ 5) (JStr (lit "Task received but could not be properly evaluated")).

(** [data.candidates[0].content.parts[0].text]; [None] is a TypeError. *)
Definition candidate_text (data : JsVal) : option JsVal :=
  a <- member data (lit "candidates") ;;
  b <- index0 a ;;
  c <- member b (lit "content") ;;
  d <- member c (lit "parts") ;;
  e <- index0 d ;;
  member e (lit "text").

(** [{ score: parsed.score || 0, justification: parsed.justification || dflt }] *)
Definition read_evaluation (dflt : jsstring) (parsed : JsVal) : option EvalResult :=
  sc <- member parsed (lit "score") ;;
  ju <- member parsed (lit "justification") ;;
  Some (mkResult (js_or sc (JNumZ 0)) (js_or ju (JStr dflt))).

(** [JSON.parse(x)] for an arbitrary argument: the argument is first turned
    into a string. *)
Definition JSON_parse_value (x : JsVal) : option JsVal :=
  text <- ToString x ;; JSON_parse text.

(** Everything after [await fetch(...)] in [evaluateAnswer]. *)
Definition answer_resume (out : HttpOutcome) : EvalResult :=
  match out with
  | NetworkError => error_result
  | HttpResponse false _ => error_result
  | HttpResponse true None => error_result
  | HttpResponse true (Some data) =>
      match candidate_text data with
      | None => error_result
      | Some aiResponse =>
          match parsed <- JSON_parse_value aiResponse ;;
                read_evaluation (lit "Unable to evaluate answer") parsed with
          | Some r => r
          | None => answer_fallback
          end
      end
  end.

Definition evaluateAnswer (apiKey question answer : jsstring) : Eval :=
  match apiKey with
  | [] => Ret credential_result
  | _ => Fetch (AnswerRequest apiKey question answer) answer_resume
  end.

(** Length of the match of [```json\n?|\n?```] at the head of [s]; 0 when
    neither alternative matches there. *)
Definition fence_match (s : jsstring) : nat :=
  if starts_with (lit "```json") s then
    match skipn 7 s with
    | 10%N :: _ => 8
    | _ => 7
    end
  else if starts_with (10%N :: lit "```") s then 4
  else if starts_with (lit "```") s then 3
  else 0.

Fixpoint replace_fences (skip : nat) (s : jsstring) : jsstring :=
  match s with
  | [] => []
  | c :: rest =>
      match skip with
      | S k => replace_fences k rest
      | O =>
          match fence_match s with
          | O => c :: replace_fences 0 rest
          | S k => replace_fences k rest
          end
      end
  end.

(** [text.replace(/```json\n?|\n?```/g, '')] *)
Definition strip_fences (text : jsstring) : jsstring := replace_fences 0 text.

(** Everything after [await fetch(...)] in [evaluateTask].  Calling
    [.replace] on anything but a string is a TypeError inside the inner [try]. *)
Definition task_resume (out : HttpOutcome) : EvalResult :=
  match out with
  | NetworkError => error_result
  | HttpResponse false _ => error_result
  | HttpResponse true None => error_result
  | HttpResponse true (Some data) =>
      match candidate_text data with
      | None => error_result
      | Some aiResponse =>
          match text <- match aiResponse with JStr s => Some s | _ => None end ;;
                parsed <- JSON_parse (strip_fences text) ;;
                read_evaluation (lit "Unable to evaluate task") parsed with
          | Some r => r
          | None => task_fallback
          end
      end
  end.

Definition evaluateTask (apiKey : jsstring) (taskId : nat)
    (actions : list SpreadsheetAction) : Eval :=
  match apiKey with
  | [] => Ret credential_result
  | _ =>
      match find (fun t => Nat.eqb (id t) taskId) EXCEL_TASKS with
      | None => Ret task_not_found
      | Some task => Fetch (TaskRequest apiKey task actions) task_resume
      end
  end.

(** The result an adapter delivers once the environment has answered. *)
Definition run (e : Eval) (out : HttpOutcome) : EvalResult :=
  match e with
  | Ret r => r
  | Fetch _ resume => resume out
  end.

(** Number of network calls an adapter call makes. *)
Definition network_calls (e : Eval) : nat :=
  match e with
  | Ret _ => 0
  | Fetch _ _ => 1
  end.

(** *** The declared result type

    Both adapters are declared to return
    [Promise<{ score: number; justification: string }>]. *)

Definition Q_of_number (n : number) : Q :=
  Qred (inject_Z (mantissa n) * Qpower (10 # 1) (exponent10 n)).

Record Evaluation := mkEvaluation { ev_score : Q; ev_justification : jsstring }.

(** The result seen at its declared type; [None] when the dynamic value does
    not inhabit it. *)
Definition typed (r : EvalResult) : option Evaluation :=
  match score r, justification r with
  | JNum n, JStr s => Some (mkEvaluation (Q_of_number n) s)
  | _, _ => None
  end.

End Evaluator.

(* ================================================================== *)
(** ** Shared arithmetic *)
(* ================================================================== *)

Module JsMath.

(** [Math.round]: the nearest integer, a tie going towards plus infinity. *)
Definition Math_round (x : Q) : Z := Qfloor (x + (1 # 2)).

End JsMath.

(* ================================================================== *)
(** ** The question session (ExcelAssessment.tsx) *)
(* ================================================================== *)

Module Question.
Import Js Items Evaluator JsMath.

Inductive Stage := welcome | interview | report.

Definition stage_eqb (a b : Stage) : bool :=
  match a, b with
  | welcome, welcome | interview, interview | report, report => true
  | _, _ => false
  end.

(** [interface Answer].  [question] is [None] when
    [EXCEL_QUESTIONS[currentQuestionIndex]] is [undefined]. *)
Record Answer := mkAnswer {
  question : option jsstring;
  answer : jsstring;
  score : Q;
  justification : jsstring
}.

(** A call of [handleSubmitAnswer] suspended at [await evaluateAnswer(...)],
    with the constants of the render it was started from. *)
Record Pending := mkPending {
  p_question : option jsstring;
  p_answer : jsstring;
  p_index : nat;
  p_resume : HttpOutcome -> EvalResult
}.

(** The [useState] cells of the component, and the suspended calls. *)
Record State := mkState {
  interviewStage : Stage;
  currentQuestionIndex : nat;
  answers : list Answer;
  cheatingFlags : list CheatingFlag;
  isLoading : bool;
  currentAnswer : jsstring;
  startTime : option Z;
  apiKey : jsstring;
  showApiKeyInput : bool;
  inflight : list Pending
}.

Definition initial : State :=
  mkState welcome 0 [] [] false [] None [] false [].

Definition set_interviewStage (v : Stage) (s : State) : State :=
  mkState v (currentQuestionIndex s) (answers s) (cheatingFlags s) (isLoading s) (currentAnswer s) (startTime s) (apiKey s) (showApiKeyInput s) (inflight s).

Definition set_currentQuestionIndex (v : nat) (s : State) : State :=
  mkState (interviewStage s) v (answers s) (cheatingFlags s) (isLoading s) (currentAnswer s) (startTime s) (apiKey s) (showApiKeyInput s) (inflight s).

Definition set_answers (v : list Answer) (s : State) : State :=
  mkState (interviewStage s) (currentQuestionIndex s) v (cheatingFlags s) (isLoading s) (currentAnswer s) (startTime s) (apiKey s) (showApiKeyInput s) (inflight s).

Definition set_cheatingFlags (v : list CheatingFlag) (s : State) : State :=
  mkState (interviewStage s) (currentQuestionIndex s) (answers s) v (isLoading s) (currentAnswer s) (startTime s) (apiKey s) (showApiKeyInput s) (inflight s).

Definition set_isLoading (v : bool) (s : State) : State :=
  mkState (interviewStage s) (currentQuestionIndex s) (answers s) (cheatingFlags s) v (currentAnswer s) (startTime s) (apiKey s) (showApiKeyInput s) (inflight s).

Definition set_currentAnswer (v : jsstring) (s : State) : State :=
  mkState (interviewStage s) (currentQuestionIndex s) (answers s) (cheatingFlags s) (isLoading s) v (startTime s) (apiKey s) (showApiKeyInput s) (inflight s).

Definition set_startTime (v : option Z) (s : State) : State :=
  mkState (interviewStage s) (currentQuestionIndex s) (answers s) (cheatingFlags s) (isLoading s) (currentAnswer s) v (apiKey s) (showApiKeyInput s) (inflight s).

Definition set_apiKey (v : jsstring) (s : State) : State :=
  mkState (interviewStage s) (currentQuestionIndex s) (answers s) (cheatingFlags s) (isLoading s) (currentAnswer s) (startTime s) v (showApiKeyInput s) (inflight s).

Definition set_showApiKeyInput (v : bool) (s : State) : State :=
  mkState (interviewStage s) (currentQuestionIndex s) (answers s) (cheatingFlags s) (isLoading s) (currentAnswer s) (startTime s) (apiKey s) v (inflight s).

Definition set_inflight (v : list Pending) (s : State) : State :=
  mkState (interviewStage s) (currentQuestionIndex s) (answers s) (cheatingFlags s) (isLoading s) (currentAnswer s) (startTime s) (apiKey s) (showApiKeyInput s) v.

Definition is_empty (s : jsstring) : bool :=
  match s with [] => true | _ => false end.

(** How [`${question}`] prints the question. *)
Definition question_text (q : option jsstring) : jsstring :=
  match q with
  | Some t => t
  | None => lit "undefined"
  end.

Definition handleVisibilityChange (now : Z) (hidden : bool) (s : State) : State :=
  if hidden && stage_eqb (interviewStage s) interview
  then set_cheatingFlags (cheatingFlags s ++ [mkFlag tab_switch now]) s
  else s.

Definition handlePaste (now : Z) (s : State) : State :=
  set_cheatingFlags (cheatingFlags s ++ [mkFlag paste now]) s.

Definition startAssessment (now : Z) (s : State) : State :=
  if is_empty (apiKey s) then set_showApiKeyInput true s
  else set_interviewStage interview (set_startTime (Some now) s).

(** The part of [handleSubmitAnswer] after the [await]. *)
Definition after_evaluation (p : Pending) (ev : Evaluation) (s : State) : State :=
  let newAnswer :=
    mkAnswer (p_question p) (p_answer p) (ev_score ev) (ev_justification ev) in
  let s1 := set_answers (answers s ++ [newAnswer]) s in
  let s2 := set_currentAnswer [] s1 in
  let s3 :=
    if p_index p <? length EXCEL_QUESTIONS - 1
    then set_currentQuestionIndex (currentQuestionIndex s2 + 1) s2
    else set_interviewStage report s2 in
  set_isLoading false s3.

(** [handleSubmitAnswer], called from the render [s].  The result is [None]
    only when the adapter returned at once with a value outside its declared
    type. *)
Definition handleSubmitAnswer (s : State) : option State :=
  if is_empty (trim (currentAnswer s)) then Some s
  else
    let s1 := set_isLoading true s in
    let question := nth_error EXCEL_QUESTIONS (currentQuestionIndex s) in
    let p := mkPending question (currentAnswer s) (currentQuestionIndex s) in
    match evaluateAnswer (apiKey s) (question_text question) (currentAnswer s) with
    | Ret r =>
        match typed r with
        | Some ev => Some (after_evaluation (p (fun _ => r)) ev s1)
        | None => None
        end
    | Fetch _ resume => Some (set_inflight (inflight s1 ++ [p resume]) s1)
    end.

Fixpoint remove_nth {A} (i : nat) (l : list A) : list A :=
  match l, i with
  | [], _ => []
  | _ :: rest, O => rest
  | x :: rest, S j => x :: remove_nth j rest
  end.

(** The awaited request of the [i]-th suspended call settles. *)
Definition settle (i : nat) (out : HttpOutcome) (s : State) : option State :=
  match nth_error (inflight s) i with
  | None => None
  | Some p =>
      match typed (p_resume p out) with
      | Some ev => Some (after_evaluation p ev (set_inflight (remove_nth i (inflight s)) s))
      | None => None
      end
  end.


(** The places a paste event can be delivered to. *)
Inductive Surface :=
| ApiKeyField      (* the key textarea of the welcome screen; no [onPaste] *)
| AnswerField.     (* the answer textarea; [onPaste={handlePaste}] *)

Inductive Event :=
| ChangeApiKey (text : jsstring)
| ClickStart
| ChangeAnswer (text : jsstring)
| Paste (target : Surface)
| ClickSubmit
| VisibilityChange (hidden : bool)
| FetchSettled (i : nat) (out : HttpOutcome).

(** Whether the screen rendered from [s] can deliver the event: the key
    textarea is shown on the welcome screen once [showApiKeyInput] is set,
    the start button has [disabled={showApiKeyInput && !apiKey}], the answer
    textarea has [disabled={isLoading}] and the submit button
    [disabled={!currentAnswer.trim() || isLoading}]. *)
Definition enabled (s : State) (e : Event) : bool :=
  match e with
  | ChangeApiKey _ | Paste ApiKeyField =>
      stage_eqb (interviewStage s) welcome && showApiKeyInput s
  | ClickStart =>
      stage_eqb (interviewStage s) welcome
      && negb (showApiKeyInput s && is_empty (apiKey s))
  | ChangeAnswer _ | Paste AnswerField =>
      stage_eqb (interviewStage s) interview && negb (isLoading s)
  | ClickSubmit =>
      stage_eqb (interviewStage s) interview
      && negb (is_empty (trim (currentAnswer s)) || isLoading s)
  | VisibilityChange _ => true
  | FetchSettled i _ => i <? length (inflight s)
  end.

(** One turn of the event loop at time [now].  [None]: the event cannot
    happen in [s], or an evaluation came back outside its declared type. *)
Definition step (now : Z) (s : State) (e : Event) : option State :=
  if enabled s e then
    match e with
    | ChangeApiKey text => Some (set_apiKey text s)
    | ClickStart => Some (startAssessment now s)
    | ChangeAnswer text => Some (set_currentAnswer text s)
    | Paste ApiKeyField => Some s
    | Paste AnswerField => Some (handlePaste now s)
    | ClickSubmit => handleSubmitAnswer s
    | VisibilityChange hidden => Some (handleVisibilityChange now hidden s)
    | FetchSettled i out => settle i out s
    end
  else None.

Fixpoint run_events (s : State) (trace : list (Z * Event)) : option State :=
  match trace with
  | [] => Some s
  | (now, e) :: rest =>
      match step now s e with
      | Some s' => run_events s' rest
      | None => None
      end
  end.

Inductive reachable : State -> Prop :=
| reach_initial : reachable initial
| reach_step now s e s' : reachable s -> step now s e = Some s' -> reachable s'.

End Question.

(* ================================================================== *)
(** ** The spreadsheet task session (InteractiveExcelAssessment.tsx) *)
(* ================================================================== *)

Module Tasks.
Import Js Items Evaluator JsMath.

Inductive Stage := welcome | tasks | report.

Definition stage_eqb (a b : Stage) : bool :=
  match a, b with
  | welcome, welcome | tasks, tasks | report, report => true
  | _, _ => false
  end.

(** [interface TaskResult] *)
Record TaskResult := mkTaskResult {
  taskId : nat;
  task : jsstring;
  completed : bool;
  score : Q;
  justification : jsstring;
  actions : list SpreadsheetAction;
  timeSpent : Z
}.

(** The state variables that [handleTaskComplete] reads from the render in
    which it was created. *)
Record Render := mkRender {
  r_index : nat;
  r_start : option Z;
  r_actions : list SpreadsheetAction;
  r_apiKey : jsstring
}.

(** A call of [handleTaskComplete] suspended at [await evaluateTask(...)]. *)
Record Pending := mkPending {
  p_task : Task;
  p_index : nat;
  p_actions : list SpreadsheetAction;
  p_timeSpent : Z;
  p_resume : HttpOutcome -> EvalResult
}.

(** The [useState] cells that the session logic reads, the callback
    installed by the timer effect ([interval], with the render it closes
    over) and the suspended calls.  The grid contents, the selected cell and
    the formula bar text are left out: they only feed the prompt. *)
Record State := mkState {
  assessmentStage : Stage;
  currentTaskIndex : nat;
  taskResults : list TaskResult;
  spreadsheetActions : list SpreadsheetAction;
  cheatingFlags : list CheatingFlag;
  taskStartTime : option Z;
  timeRemaining : Z;
  isLoading : bool;
  apiKey : jsstring;
  showApiKeyInput : bool;
  interval : option Render;
  inflight : list Pending
}.

Definition initial : State :=
  mkState welcome 0 [] [] [] None 0 false [] false None [].

Definition set_assessmentStage (v : Stage) (s : State) : State :=
  mkState v (currentTaskIndex s) (taskResults s) (spreadsheetActions s) (cheatingFlags s) (taskStartTime s) (timeRemaining s) (isLoading s) (apiKey s) (showApiKeyInput s) (interval s) (inflight s).

Definition set_currentTaskIndex (v : nat) (s : State) : State :=
  mkState (assessmentStage s) v (taskResults s) (spreadsheetActions s) (cheatingFlags s) (taskStartTime s) (timeRemaining s) (isLoading s) (apiKey s) (showApiKeyInput s) (interval s) (inflight s).

Definition set_taskResults (v : list TaskResult) (s : State) : State :=
  mkState (assessmentStage s) (currentTaskIndex s) v (spreadsheetActions s) (cheatingFlags s) (taskStartTime s) (timeRemaining s) (isLoading s) (apiKey s) (showApiKeyInput s) (interval s) (inflight s).

Definition set_spreadsheetActions (v : list SpreadsheetAction) (s : State) : State :=
  mkState (assessmentStage s) (currentTaskIndex s) (taskResults s) v (cheatingFlags s) (taskStartTime s) (timeRemaining s) (isLoading s) (apiKey s) (showApiKeyInput s) (interval s) (inflight s).

Definition set_cheatingFlags (v : list CheatingFlag) (s : State) : State :=
  mkState (assessmentStage s) (currentTaskIndex s) (taskResults s) (spreadsheetActions s) v (taskStartTime s) (timeRemaining s) (isLoading s) (apiKey s) (showApiKeyInput s) (interval s) (inflight s).

Definition set_taskStartTime (v : option Z) (s : State) : State :=
  mkState (assessmentStage s) (currentTaskIndex s) (taskResults s) (spreadsheetActions s) (cheatingFlags s) v (timeRemaining s) (isLoading s) (apiKey s) (showApiKeyInput s) (interval s) (inflight s).

Definition set_timeRemaining (v : Z) (s : State) : State :=
  mkState (assessmentStage s) (currentTaskIndex s) (taskResults s) (spreadsheetActions s) (cheatingFlags s) (taskStartTime s) v (isLoading s) (apiKey s) (showApiKeyInput s) (interval s) (inflight s).

Definition set_isLoading (v : bool) (s : State) : State :=
  mkState (assessmentStage s) (currentTaskIndex s) (taskResults s) (spreadsheetActions s) (cheatingFlags s) (taskStartTime s) (timeRemaining s) v (apiKey s) (showApiKeyInput s) (interval s) (inflight s).

Definition set_apiKey (v : jsstring) (s : State) : State :=
  mkState (assessmentStage s) (currentTaskIndex s) (taskResults s) (spreadsheetActions s) (cheatingFlags s) (taskStartTime s) (timeRemaining s) (isLoading s) v (showApiKeyInput s) (interval s) (inflight s).

Definition set_showApiKeyInput (v : bool) (s : State) : State :=
  mkState (assessmentStage s) (currentTaskIndex s) (taskResults s) (spreadsheetActions s) (cheatingFlags s) (taskStartTime s) (timeRemaining s) (isLoading s) (apiKey s) v (interval s) (inflight s).

Definition set_interval (v : option Render) (s : State) : State :=
  mkState (assessmentStage s) (currentTaskIndex s) (taskResults s) (spreadsheetActions s) (cheatingFlags s) (taskStartTime s) (timeRemaining s) (isLoading s) (apiKey s) (showApiKeyInput s) v (inflight s).

Definition set_inflight (v : list Pending) (s : State) : State :=
  mkState (assessmentStage s) (currentTaskIndex s) (taskResults s) (spreadsheetActions s) (cheatingFlags s) (taskStartTime s) (timeRemaining s) (isLoading s) (apiKey s) (showApiKeyInput s) (interval s) v.

Definition is_empty (s : jsstring) : bool :=
  match s with [] => true | _ => false end.

Definition render (s : State) : Render :=
  mkRender (currentTaskIndex s) (taskStartTime s) (spreadsheetActions s) (apiKey s).

Definition handleVisibilityChange (now : Z) (hidden : bool) (s : State) : State :=
  if hidden && stage_eqb (assessmentStage s) tasks
  then set_cheatingFlags (cheatingFlags s ++ [mkFlag tab_switch now]) s
  else s.

(** The inline [onPaste] of the grid cells. *)
Definition cell_onPaste (now : Z) (s : State) : State :=
  set_cheatingFlags (cheatingFlags s ++ [mkFlag paste now]) s.

(** [String.fromCharCode(65 + colIndex) + (rowIndex + 1)] *)
Definition cellName (rowIndex colIndex : nat) : jsstring :=
  (65 + N.of_nat colIndex)%N :: Number_toString (num_of_Z (Z.of_nat rowIndex + 1)).

(** [handleCellEdit]; [oldValue] is what the grid held. *)
Definition handleCellEdit (now : Z) (rowIndex colIndex : nat)
    (oldValue newValue : jsstring) (s : State) : State :=
  let action :=
    mkAction now
      (if starts_with [61%N] newValue then formula_entered else cell_edit)
      (cellName rowIndex colIndex) oldValue newValue in
  set_spreadsheetActions (spreadsheetActions s ++ [action]) s.

Definition startAssessment (now : Z) (s : State) : State :=
  if is_empty (apiKey s) then set_showApiKeyInput true s
  else
    match nth_error EXCEL_TASKS 0 with
    | Some first =>
        set_timeRemaining (timeLimit first)
          (set_taskStartTime (Some now) (set_assessmentStage tasks s))
    | None => s
    end.

(** [startNextTask], reading [currentTaskIndex] from the render [index]. *)
Definition startNextTask (now : Z) (index : nat) (s : State) : State :=
  match nth_error EXCEL_TASKS (index + 1) with
  | Some nextTask =>
      set_timeRemaining (timeLimit nextTask) (set_taskStartTime (Some now) s)
  | None => s
  end.

(** The part of [handleTaskComplete] after the [await]. *)
Definition after_evaluation (now : Z) (p : Pending) (ev : Evaluation) (s : State) : State :=
  let result :=
    mkTaskResult (id (p_task p)) (description (p_task p))
      (Qle_bool 6 (ev_score ev)) (ev_score ev) (ev_justification ev)
      (p_actions p) (p_timeSpent p) in
  let s1 := set_taskResults (taskResults s ++ [result]) s in
  let s2 :=
    if p_index p <? length EXCEL_TASKS - 1
    then startNextTask now (p_index p)
           (set_currentTaskIndex (currentTaskIndex s1 + 1) s1)
    else set_assessmentStage report s1 in
  set_isLoading false s2.

(** [handleTaskComplete] as created by the render [env], called on the
    state [s].  When [EXCEL_TASKS[currentTaskIndex]] is [undefined] the call
    throws after [setIsLoading(true)]. *)
Definition handleTaskComplete (now : Z) (env : Render) (s : State) : option State :=
  match r_start env with
  | None => Some s
  | Some started =>
      let s1 := set_isLoading true s in
      match nth_error EXCEL_TASKS (r_index env) with
      | None => Some s1
      | Some currentTask =>
          let taskActions :=
            filter (fun a => (started <=? timestamp a)%Z) (r_actions env) in
          let spent := Math_round ((now - started) # 1000) in
          let p := mkPending currentTask (r_index env) taskActions spent in
          match evaluateTask (r_apiKey env) (id currentTask) taskActions with
          | Ret r =>
              match typed r with
              | Some ev => Some (after_evaluation now (p (fun _ => r)) ev s1)
              | None => None
              end
          | Fetch _ resume => Some (set_inflight (inflight s1 ++ [p resume]) s1)
          end
      end
  end.

(** The callback of [setInterval]: the updater passed to [setTimeRemaining]. *)
Definition tick (now : Z) (env : Render) (s : State) : option State :=
  if (timeRemaining s <=? 1)%Z
  then handleTaskComplete now env (set_timeRemaining 0 s)
  else Some (set_timeRemaining (timeRemaining s - 1) s).

Fixpoint remove_nth {A} (i : nat) (l : list A) : list A :=
  match l, i with
  | [], _ => []
  | _ :: rest, O => rest
  | x :: rest, S j => x :: remove_nth j rest
  end.

(** The awaited request of the [i]-th suspended call settles. *)
Definition settle (now : Z) (i : nat) (out : HttpOutcome) (s : State) : option State :=
  match nth_error (inflight s) i with
  | None => None
  | Some p =>
      match typed (p_resume p out) with
      | Some ev =>
          Some (after_evaluation now p ev (set_inflight (remove_nth i (inflight s)) s))
      | None => None
      end
  end.

(** The timer effect, with dependencies [[assessmentStage, timeRemaining]]:
    when one of them changed between two renders the old interval is cleared
    and a new one is installed if the stage is [tasks] and time remains;
    otherwise the installed callback, and the render it closes over, stay. *)
Definition timer_effect (before after : State) : State :=
  if stage_eqb (assessmentStage before) (assessmentStage after)
     && (timeRemaining before =? timeRemaining after)%Z
  then after
  else
    set_interval
      (if stage_eqb (assessmentStage after) tasks && (0 <? timeRemaining after)%Z
       then Some (render after) else None)
      after.


(** The places a paste event can be delivered to. *)
Inductive Surface :=
| ApiKeyField      (* the key textarea of the welcome screen; no [onPaste] *)
| CellInput        (* an input of the grid; inline [onPaste] *)
| FormulaBar.      (* the formula input above the grid; no [onPaste] *)

Inductive Event :=
| ChangeApiKey (text : jsstring)
| ClickStart
| CellEdit (rowIndex colIndex : nat) (oldValue newValue : jsstring)
| Paste (target : Surface)
| ClickComplete
| Tick
| VisibilityChange (hidden : bool)
| FetchSettled (i : nat) (out : HttpOutcome).

(** The tasks screen reads [currentTask.title]: with the index past the last
    task the render throws and the component is gone. *)
Definition renders (s : State) : bool :=
  match assessmentStage s with
  | tasks => currentTaskIndex s <? length EXCEL_TASKS
  | _ => true
  end.

(** Whether the screen rendered from [s] can deliver the event: the grid
    and the formula bar are shown in the [tasks] stage and are never
    disabled, the button that completes a task has [disabled={isLoading}],
    and the interval fires while one is installed. *)
Definition enabled (s : State) (e : Event) : bool :=
  renders s &&
  match e with
  | ChangeApiKey _ | Paste ApiKeyField =>
      stage_eqb (assessmentStage s) welcome && showApiKeyInput s
  | ClickStart =>
      stage_eqb (assessmentStage s) welcome
      && negb (showApiKeyInput s && is_empty (apiKey s))
  | CellEdit _ _ _ _ | Paste CellInput | Paste FormulaBar =>
      stage_eqb (assessmentStage s) tasks
  | ClickComplete => stage_eqb (assessmentStage s) tasks && negb (isLoading s)
  | Tick => match interval s with Some _ => true | None => false end
  | VisibilityChange _ => true
  | FetchSettled i _ => i <? length (inflight s)
  end.

Definition handle (now : Z) (s : State) (e : Event) : option State :=
  match e with
  | ChangeApiKey text => Some (set_apiKey text s)
  | ClickStart => Some (startAssessment now s)
  | CellEdit r c old new => Some (handleCellEdit now r c old new s)
  | Paste CellInput => Some (cell_onPaste now s)
  | Paste ApiKeyField | Paste FormulaBar => Some s
  | ClickComplete => handleTaskComplete now (render s) s
  | Tick =>
      match interval s with
      | Some env => tick now env s
      | None => None
      end
  | VisibilityChange hidden => Some (handleVisibilityChange now hidden s)
  | FetchSettled i out => settle now i out s
  end.

(** One turn of the event loop at time [now]: the handler, then the render
    and its effects.  [None]: the event cannot happen in [s], or an
    evaluation came back outside its declared type. *)
Definition step (now : Z) (s : State) (e : Event) : option State :=
  if enabled s e then option_map (timer_effect s) (handle now s e) else None.

Fixpoint run_events (s : State) (trace : list (Z * Event)) : option State :=
  match trace with
  | [] => Some s
  | (now, e) :: rest =>
      match step now s e with
      | Some s' => run_events s' rest
      | None => None
      end
  end.

Inductive reachable : State -> Prop :=
| reach_initial : reachable initial
| reach_step now s e s' : reachable s -> step now s e = Some s' -> reachable s'.

End Tasks.

(* ================================================================== *)
(** ** Replies, failure classes and sample runs used by the statements *)
(* ================================================================== *)

Module Scenario.
Import Js Json Items Evaluator.

(** The documented envelope
    [{candidates: [{content: {parts: [{text: ...}]}}]}] around a text. *)
Definition envelope (text : JsVal) : JsVal :=
  JObj [(lit "candidates",
         JArr [JObj [(lit "content",
                      JObj [(lit "parts",
                             JArr [JObj [(lit "text", text)]])])]])].

(** A successful reply whose inner text is [text]. *)
Definition reply (text : jsstring) : HttpOutcome :=
  HttpResponse true (Some (envelope (JStr text))).

(** A text wrapped in a fenced code block tagged [json]. *)
Definition fence (text : jsstring) : jsstring :=
  lit "```json" ++ [10%N] ++ text ++ [10%N] ++ lit "```".

Definition sample_text : jsstring := qlit "{'score': 8, 'justification': 'ok'}".







(** What the inner [try] of either adapter does with the decoded text:
    reading a member of [null] throws like a SyntaxError does. *)
Definition unreadable (parsed : option JsVal) : bool :=
  match parsed with
  | None | Some JNull | Some JUndefined => true
  | Some _ => false
  end.






Definition has_backtick (text : jsstring) : bool :=
  existsb (fun c => (c =? 96)%N) text.

(** *** Sample runs *)

Definition key : jsstring := lit "k".

Definition good_reply : HttpOutcome := reply sample_text.

(** The task session is started: a first click reveals the key field, the
    key is typed, the second click starts task 1 at time 2. *)
Definition task_start : list (Z * Tasks.Event) :=
  [ (0%Z, Tasks.ClickStart); (1%Z, Tasks.ChangeApiKey key); (2%Z, Tasks.ClickStart) ].

(** [n] ticks of the countdown, one second apart, after time [from]. *)
Definition seconds (from : Z) (n : nat) : list (Z * Tasks.Event) :=
  map (fun i => ((from + 1000 * Z.of_nat i)%Z, Tasks.Tick)) (seq 1 n).

(** Task 1 with one second left on its three minutes. *)
Definition last_second : list (Z * Tasks.Event) := task_start ++ seconds 2 179.

(** The button is pressed in the last second and the countdown expires
    while that evaluation is in flight. *)
Definition submit_then_expire : list (Z * Tasks.Event) :=
  last_second ++ [ (179500%Z, Tasks.ClickComplete); (180002%Z, Tasks.Tick) ].

(** Both evaluations come back. *)
Definition double_completion : list (Z * Tasks.Event) :=
  submit_then_expire
  ++ [ (180500%Z, Tasks.FetchSettled 0 good_reply);
       (180600%Z, Tasks.FetchSettled 0 good_reply) ].

(** The session is then finished by three ordinary submissions, each
    evaluated before the countdown ticks again. *)
Definition double_completion_to_report : list (Z * Tasks.Event) :=
  double_completion
  ++ [ (180700%Z, Tasks.ClickComplete); (180900%Z, Tasks.FetchSettled 0 good_reply);
       (181000%Z, Tasks.ClickComplete); (181200%Z, Tasks.FetchSettled 0 good_reply);
       (181300%Z, Tasks.ClickComplete); (181400%Z, Tasks.FetchSettled 0 good_reply) ].

(** One task submitted and evaluated. *)
Definition one_task : list (Z * Tasks.Event) :=
  task_start
  ++ [ (500%Z, Tasks.ClickComplete); (800%Z, Tasks.FetchSettled 0 good_reply) ].

Definition task_state_after (trace : list (Z * Tasks.Event)) : Tasks.State :=
  match Tasks.run_events Tasks.initial trace with
  | Some s => s
  | None => Tasks.initial
  end.

(** The question session with the first answer submitted and its
    evaluation in flight. *)
Definition question_submitted : list (Z * Question.Event) :=
  [ (0%Z, Question.ClickStart); (1%Z, Question.ChangeApiKey key);
    (2%Z, Question.ClickStart);
    (3%Z, Question.ChangeAnswer (lit "It looks a value up in the first column of a table."));
    (4%Z, Question.ClickSubmit) ].

Definition question_state_after (trace : list (Z * Question.Event)) : Question.State :=
  match Question.run_events Question.initial trace with
  | Some s => s
  | None => Question.initial
  end.

(** A question is shown and the answer field holds blanks only. *)
Definition blank_answer_state : Question.State :=
  Question.mkState Question.interview 0 [] [] false
    [32%N; 9%N; 10%N; 160%N; 12288%N] (Some 2%Z) key false [].





Definition no_pending_question : Question.Pending :=
  Question.mkPending None [] 0 (fun _ => error_result).

Definition no_pending_task : Tasks.Pending :=
  Tasks.mkPending (mkTask 0 [] [] [] Easy 0) 0 [] 0 (fun _ => error_result).

(** The first suspended call of a state. *)
Definition first_question_call (s : Question.State) : Question.Pending :=
  hd no_pending_question (Question.inflight s).

Definition first_task_call (s : Tasks.State) : Tasks.Pending :=
  hd no_pending_task (Tasks.inflight s).

(** Task 1 submitted at once, its evaluation in flight. *)
Definition task_submitted : list (Z * Tasks.Event) :=
  task_start ++ [ (500%Z, Tasks.ClickComplete) ].

End Scenario.

(* ================================================================== *)
(** ** Invariants of the two sessions *)
(* ================================================================== *)

Unset Implicit Arguments.

Module Invariant.
Import Js Items Evaluator.
Local Open Scope nat_scope.

Definition ticks3 : jsstring := [96; 96; 96]%N.

(** What holds of every state of a question session. *)
Record QInv (s : Question.State) : Prop := {
  inv_resume : forall p, In p (Question.inflight s) -> Question.p_resume p = answer_resume;
  inv_welcome :
    Question.interviewStage s = Question.welcome ->
    Question.answers s = [] /\ Question.currentQuestionIndex s = 0%nat /\ Question.inflight s = []
    /\ Question.cheatingFlags s = [];
  inv_interview :
    Question.interviewStage s = Question.interview ->
    length (Question.answers s) = Question.currentQuestionIndex s
    /\ Question.currentQuestionIndex s < length EXCEL_QUESTIONS
    /\ Question.apiKey s <> [];
  inv_report :
    Question.interviewStage s = Question.report ->
    length (Question.answers s) = length EXCEL_QUESTIONS /\ Question.inflight s = [];
  inv_pending :
    Question.inflight s = []
    \/ exists p, Question.inflight s = [p] /\ Question.interviewStage s = Question.interview
                 /\ Question.isLoading s = true
                 /\ Question.p_index p = Question.currentQuestionIndex s
                 /\ Question.p_question p = nth_error EXCEL_QUESTIONS (Question.currentQuestionIndex s);
  inv_positions :
    forall i a, nth_error (Question.answers s) i = Some a ->
                Question.question a = nth_error EXCEL_QUESTIONS i
}.

(** The record built by the part after the [await]. *)
Definition result_of (p : Tasks.Pending) (ev : Evaluation) : Tasks.TaskResult :=
  Tasks.mkTaskResult (id (Tasks.p_task p)) (description (Tasks.p_task p))
    (Qle_bool 6 (ev_score ev)) (ev_score ev) (ev_justification ev)
    (Tasks.p_actions p) (Tasks.p_timeSpent p).

(** What holds of every state of a task session. *)
Record TInv (s : Tasks.State) : Prop := {
  tinv_resume : forall p, In p (Tasks.inflight s) -> Tasks.p_resume p = task_resume;
  tinv_completed :
    forall r, In r (Tasks.taskResults s) -> Tasks.completed r = Qle_bool 6 (Tasks.score r)
}.

(** Counting in the task session: records against the index, and the index
    seen by the suspended calls and by the timer callback. *)
Record TCount (s : Tasks.State) : Prop := {
  tc_welcome :
    Tasks.assessmentStage s = Tasks.welcome ->
    Tasks.taskResults s = [] /\ Tasks.currentTaskIndex s = 0
    /\ Tasks.inflight s = [] /\ Tasks.interval s = None;
  tc_tasks :
    Tasks.assessmentStage s = Tasks.tasks ->
    length (Tasks.taskResults s) = Tasks.currentTaskIndex s;
  tc_pending :
    forall p, In p (Tasks.inflight s) -> Tasks.p_index p <= Tasks.currentTaskIndex s;
  tc_interval :
    forall env, Tasks.interval s = Some env ->
                Tasks.r_index env <= Tasks.currentTaskIndex s
}.

End Invariant.

(* ================================================================== *)
(** ** What the screens compute from the state *)
(* ================================================================== *)

Module Report.
Import Js Items JsMath.

Inductive TextColor := text_success | text_warning | text_destructive.

Inductive BadgeVariant :=
| variant_default | variant_secondary | variant_destructive | variant_outline.

(** [getScoreColor] of ExcelAssessment.tsx. *)
Definition getScoreColor (score : Q) : TextColor :=
  if Qle_bool 8 score then text_success
  else if Qle_bool 6 score then text_warning
  else text_destructive.

(** [getScoreBadgeVariant] of ExcelAssessment.tsx. *)
Definition getScoreBadgeVariant (score : Q) : BadgeVariant :=
  if Qle_bool 8 score then variant_default
  else if Qle_bool 6 score then variant_secondary
  else variant_destructive.

(** The badge of a task record, written inline in
    InteractiveExcelAssessment.tsx:
    [result.score >= 8 ? 'default' : result.score >= 6 ? 'secondary' : 'destructive']. *)
Definition resultBadge (r : Tasks.TaskResult) : BadgeVariant :=
  if Qle_bool 8 (Tasks.score r) then variant_default
  else if Qle_bool 6 (Tasks.score r) then variant_secondary
  else variant_destructive.

Definition flag_type_eqb (a b : FlagType) : bool :=
  match a, b with
  | paste, paste | tab_switch, tab_switch => true
  | _, _ => false
  end.

(** [cheatingFlags.filter(f => f.type === t).length] of the integrity
    report. *)
Definition count_flags (t : FlagType) (flags : list CheatingFlag) : nat :=
  length (filter (fun f => flag_type_eqb (flag_type f) t) flags).

(** [str.padStart(2, '0')] *)
Definition padStart2 (s : jsstring) : jsstring :=
  match s with
  | [] => [48%N; 48%N]
  | [c] => [48%N; c]
  | _ => s
  end.

(** [formatTime]: [Math.floor(seconds / 60)], a colon, and [seconds % 60]
    padded to two characters. *)
Definition formatTime (seconds : Z) : jsstring :=
  let mins := (seconds / 60)%Z in
  let secs := Z.rem seconds 60 in
  Number_toString (num_of_Z mins) ++ [58%N]
  ++ padStart2 (Number_toString (num_of_Z secs)).

(** The time line of a task record:
    [Math.round(result.timeSpent / 60)] minutes and [result.timeSpent % 60]
    seconds. *)
Definition minutes_shown (timeSpent : Z) : Z := Math_round (timeSpent # 60).

Definition seconds_shown (timeSpent : Z) : Z := Z.rem timeSpent 60.

(** [taskResults.reduce((sum, result) => sum + result.timeSpent, 0)] *)
Definition totalTime (results : list Tasks.TaskResult) : Z :=
  fold_left (fun sum r => (sum + Tasks.timeSpent r)%Z) results 0%Z.

(** The title lookup of the task report, [EXCEL_TASKS[result.taskId - 1]]. *)
Definition reportTask (r : Tasks.TaskResult) : option Task :=
  match Tasks.taskId r with
  | O => None
  | S i => nth_error EXCEL_TASKS i
  end.

(** Rows of the progress panel of the question screen: one per answer, the
    current one, and [EXCEL_QUESTIONS.length - currentQuestionIndex - 1]
    pending ones. *)
Definition progress_rows (s : Question.State) : nat :=
  length (Question.answers s) + 1
  + (length EXCEL_QUESTIONS - Question.currentQuestionIndex s - 1).

Definition question_stage_rank (st : Question.Stage) : nat :=
  match st with
  | Question.welcome => 0
  | Question.interview => 1
  | Question.report => 2
  end.

Definition task_stage_rank (st : Tasks.Stage) : nat :=
  match st with
  | Tasks.welcome => 0
  | Tasks.tasks => 1
  | Tasks.report => 2
  end.

Definition is_question_paste (e : Z * Question.Event) : bool :=
  match snd e with
  | Question.Paste Question.AnswerField => true
  | _ => false
  end.

Definition is_question_hidden (e : Z * Question.Event) : bool :=
  match snd e with
  | Question.VisibilityChange true => true
  | _ => false
  end.

Definition is_task_paste (e : Z * Tasks.Event) : bool :=
  match snd e with
  | Tasks.Paste Tasks.CellInput => true
  | _ => false
  end.

Definition is_task_hidden (e : Z * Tasks.Event) : bool :=
  match snd e with
  | Tasks.VisibilityChange true => true
  | _ => false
  end.


(** A whole question session: the key is entered, and each of the five
    questions is answered and evaluated. *)
Definition answer_round (t : Z) : list (Z * Question.Event) :=
  [ (t, Question.ChangeAnswer (lit "An answer."));
    ((t + 1)%Z, Question.ClickSubmit);
    ((t + 2)%Z, Question.FetchSettled 0 (Scenario.good_reply)) ].

Definition question_finished : list (Z * Question.Event) :=
  [ (0%Z, Question.ClickStart); (1%Z, Question.ChangeApiKey Scenario.key);
    (2%Z, Question.ClickStart) ]
  ++ answer_round 10 ++ answer_round 20 ++ answer_round 30
  ++ answer_round 40 ++ answer_round 50.

(** The first record of a question session. *)
Definition first_answer (s : Question.State) : Question.Answer :=
  hd (Question.mkAnswer None [] 0 []) (Question.answers s).

End Report.

(* ================================================================== *)
(** ** The grid of InteractiveExcelAssessment.tsx *)
(* ================================================================== *)

(** [spreadsheetData] is an array of rows, and a row is an array of
    strings.  Rows are objects: [[...spreadsheetData]] copies the
    references, and [newData[rowIndex][colIndex] = newValue] writes into the
    row that the previous array holds as well.  The rows therefore live in a
    heap, and the outer array holds addresses.  An index of a JS array holds
    a value or is a hole; the spread turns holes into [undefined]. *)
Module Sheet.
Import Js Items Evaluator.

(** A row; [None] is an index that holds no string. *)
Definition Row := list (option jsstring).

Inductive Slot :=
| Hole
| Undefined
| Ref (address : nat).

Definition Heap := list Row.

(** [array[i] = v] on a JS array: indices from the old length up to [i]
    become holes. *)
Fixpoint array_set {A} (hole : A) (i : nat) (v : A) (l : list A) : list A :=
  match i, l with
  | O, [] => [v]
  | O, _ :: rest => v :: rest
  | S i', [] => hole :: array_set hole i' v []
  | S i', x :: rest => x :: array_set hole i' v rest
  end.

(** The row at [address] replaced by [f] of it. *)
Fixpoint heap_update (address : nat) (f : Row -> Row) (heap : Heap) : Heap :=
  match address, heap with
  | _, [] => []
  | O, row :: rest => f row :: rest
  | S a, row :: rest => row :: heap_update a f rest
  end.

Definition SAMPLE_ROWS : Heap :=
  map (map Some)
    [ [lit "Product ID"; lit "Product Name"; lit "Price"; lit "Category"];
      [lit "P001"; lit "Laptop Pro"; lit "1299.99"; lit "Electronics"];
      [lit "P002"; lit "Wireless Mouse"; lit "29.99"; lit "Electronics"];
      [lit "P003"; lit "Office Chair"; lit "249.50"; lit "Furniture"];
      [lit "P004"; lit "Desk Lamp"; lit "89.99"; lit "Furniture"];
      [lit "P005"; lit "Notebook Set"; lit "15.99"; lit "Stationery"];
      [lit "P006"; lit "Pen Collection"; lit "24.99"; lit "Stationery"];
      [lit "P007"; lit "Monitor 4K"; lit "599.99"; lit "Electronics"];
      [lit "P008"; lit "Keyboard Pro"; lit "149.99"; lit "Electronics"] ].

(** [SAMPLE_DATA]: the nine rows, at the addresses 0 to 8. *)
Definition SAMPLE_DATA : list Slot := map Ref (seq 0 (length SAMPLE_ROWS)).

(** The grid part of the component state, with the heap of rows. *)
Record Grid := mkGrid {
  heap : Heap;
  spreadsheetData : list Slot;
  selectedCell : jsstring;
  cellFormula : jsstring
}.

Definition initial : Grid := mkGrid SAMPLE_ROWS SAMPLE_DATA (lit "A1") [].

Definition set_selectedCell (v : jsstring) (g : Grid) : Grid :=
  mkGrid (heap g) (spreadsheetData g) v (cellFormula g).

Definition set_cellFormula (v : jsstring) (g : Grid) : Grid :=
  mkGrid (heap g) (spreadsheetData g) (selectedCell g) v.

(** [spreadsheetData[rowIndex]]: the row, or [undefined]. *)
Definition row_at (h : Heap) (data : list Slot) (rowIndex : nat) : option Row :=
  match nth_error data rowIndex with
  | Some (Ref a) => nth_error h a
  | _ => None
  end.

(** [data[rowIndex]?.[colIndex] || ''] *)
Definition cell_of (h : Heap) (data : list Slot) (rowIndex colIndex : nat)
    : jsstring :=
  match row_at h data rowIndex with
  | Some row =>
      match nth_error row colIndex with
      | Some (Some v) => v
      | _ => []
      end
  | None => []
  end.

(** What the cell input at [(rowIndex, colIndex)] shows. *)
Definition cellValue (g : Grid) (rowIndex colIndex : nat) : jsstring :=
  cell_of (heap g) (spreadsheetData g) rowIndex colIndex.

(** [[...spreadsheetData]] *)
Definition spread (data : list Slot) : list Slot :=
  map (fun s => match s with Hole => Undefined | _ => s end) data.

(** [handleCellClick] *)
Definition handleCellClick (rowIndex colIndex : nat) (g : Grid) : Grid :=
  let value := cellValue g rowIndex colIndex in
  set_cellFormula (if starts_with [61%N] value then value else [])
    (set_selectedCell (Tasks.cellName rowIndex colIndex) g).

(** The grid half of [handleCellEdit]; the other half appends the action
    [Tasks.handleCellEdit] builds, whose [oldValue] is [cellValue] here. *)
Definition handleCellEdit (rowIndex colIndex : nat) (newValue : jsstring)
    (g : Grid) : Grid :=
  let newData := spread (spreadsheetData g) in
  let '(h, newData', address) :=
    match nth_error newData rowIndex with
    | Some (Ref a) => (heap g, newData, a)
    | _ =>
        (heap g ++ [[]],
         array_set Hole rowIndex (Ref (length (heap g))) newData,
         length (heap g))
    end in
  mkGrid (heap_update address (array_set None colIndex (Some newValue)) h)
    newData' (selectedCell g) (cellFormula g).

(** The value of a digit in the radix, [None] for any other character. *)
Definition digit_value (radix c : N) : option N :=
  let d :=
    if (48 <=? c)%N && (c <=? 57)%N then Some (c - 48)%N
    else if (97 <=? c)%N && (c <=? 122)%N then Some (c - 87)%N
    else if (65 <=? c)%N && (c <=? 90)%N then Some (c - 55)%N
    else None in
  match d with
  | Some v => if (v <? radix)%N then Some v else None
  | None => None
  end.

(** The number written by the longest prefix of digits, [None] when that
    prefix is empty. *)
Fixpoint digits_value (radix acc : N) (seen : bool) (s : jsstring) : option N :=
  match s with
  | [] => if seen then Some acc else None
  | c :: rest =>
      match digit_value radix c with
      | Some d => digits_value radix (acc * radix + d)%N true rest
      | None => if seen then Some acc else None
      end
  end.

(** [parseInt(s)] without a radix: leading white space, a sign, a [0x]
    prefix, then digits; [None] is [NaN].  Exact below 2^53; [-0] is 0. *)
Definition parseInt (s : jsstring) : option Z :=
  let s0 := trim_start s in
  let '(negative, s1) :=
    match s0 with
    | 45%N :: rest => (true, rest)
    | 43%N :: rest => (false, rest)
    | _ => (false, s0)
    end in
  let '(radix, s2) :=
    match s1 with
    | 48%N :: 120%N :: rest | 48%N :: 88%N :: rest => (16%N, rest)
    | _ => (10%N, s1)
    end in
  option_map (fun n => if negative : bool then (- Z.of_N n)%Z else Z.of_N n)
    (digits_value radix 0 false s2).

(** [[selectedCell.charCodeAt(0) - 65, parseInt(selectedCell.slice(1)) - 1]]
    as (row, column) when both are array indices; [None] when one of them is
    [NaN] or negative. *)
Definition selected_indices (cell : jsstring) : option (nat * nat) :=
  match cell with
  | [] => None
  | ch :: rest =>
      match parseInt rest with
      | Some n =>
          if (65 <=? ch)%N && (1 <=? n)%Z
          then Some (Z.to_nat (n - 1), N.to_nat (ch - 65))
          else None
      | None => None
      end
  end.

(** The [Enter] branch of the formula bar's [onKeyDown].  [None]: the
    selected cell does not decode to array indices, which the grid never
    produces (lemma [selected_cell_decodes]). *)
Definition formula_Enter (g : Grid) : option Grid :=
  match selected_indices (selectedCell g) with
  | Some (row, col) =>
      Some (set_cellFormula [] (handleCellEdit row col (cellFormula g) g))
  | None => None
  end.

(** [row.join(' | ')]: an index without a string gives the empty string. *)
Definition row_text (row : Row) : jsstring :=
  join_with (lit " | ")
    (map (fun x => match x with Some v => v | None => [] end) row).

(** [spreadsheetData.map((row, i) => `Row ${i + 1}: ${row.join(' | ')}`)]
    from index [i] on: [map] skips a hole and leaves it in the result, and
    calls the function on [undefined], where [row.join] throws ([None]). *)
Fixpoint sheet_lines (h : Heap) (i : nat) (data : list Slot)
    : option (list jsstring) :=
  match data with
  | [] => Some []
  | Hole :: rest => option_map (cons []) (sheet_lines h (S i) rest)
  | Undefined :: _ => None
  | Ref a :: rest =>
      option_map
        (cons (lit "Row " ++ Number_toString (num_of_Z (Z.of_nat i + 1))
               ++ lit ": " ++ row_text (nth a h [])))
        (sheet_lines h (S i) rest)
  end.

(** The [Current Spreadsheet State] part of the prompt. *)
Definition sheet_text (h : Heap) (data : list Slot) : option jsstring :=
  option_map (join_with [10%N]) (sheet_lines h 0 data).

(** [evaluateTask] with the grid of the render it was called from: the
    prompt is built inside the outer [try], before the request. *)
Definition evaluateTask (h : Heap) (data : list Slot) (apiKey : jsstring)
    (taskId : nat) (actions : list SpreadsheetAction) : Eval :=
  match apiKey with
  | [] => Ret credential_result
  | _ =>
      match find (fun t => Nat.eqb (id t) taskId) EXCEL_TASKS with
      | None => Ret task_not_found
      | Some task =>
          match sheet_text h data with
          | None => Ret error_result
          | Some _ => Fetch (TaskRequest apiKey task actions) task_resume
          end
      end
  end.

(** What the candidate does on the grid: the grid shows 15 rows of 8
    cells. *)
Inductive Event :=
| CellClick (rowIndex colIndex : nat)
| CellChange (rowIndex colIndex : nat) (newValue : jsstring)
| FormulaChange (text : jsstring)
| FormulaEnter.

Definition enabled (e : Event) : bool :=
  match e with
  | CellClick r c | CellChange r c _ => (r <? 15) && (c <? 8)
  | FormulaChange _ | FormulaEnter => true
  end.

Definition step (g : Grid) (e : Event) : option Grid :=
  if enabled e then
    match e with
    | CellClick r c => Some (handleCellClick r c g)
    | CellChange r c v => Some (handleCellEdit r c v g)
    | FormulaChange text => Some (set_cellFormula text g)
    | FormulaEnter => formula_Enter g
    end
  else None.

Fixpoint run_events (g : Grid) (trace : list Event) : option Grid :=
  match trace with
  | [] => Some g
  | e :: rest =>
      match step g e with
      | Some g' => run_events g' rest
      | None => None
      end
  end.

Inductive reachable : Grid -> Prop :=
| reach_initial : reachable initial
| reach_step g e g' : reachable g -> step g e = Some g' -> reachable g'.

(** What every reachable grid satisfies: the outer array holds addresses of
    the heap, no two indices hold the same row, and the selected cell is
    the name of a cell of the grid. *)
Record GridInv (g : Grid) : Prop := {
  inv_valid : forall i a,
    nth_error (spreadsheetData g) i = Some (Ref a) -> (a < length (heap g))%nat;
  inv_distinct : forall i j a,
    nth_error (spreadsheetData g) i = Some (Ref a) ->
    nth_error (spreadsheetData g) j = Some (Ref a) -> i = j;
  inv_selected : exists r c,
    (r < 15)%nat /\ (c < 8)%nat /\ selectedCell g = Tasks.cellName r c
}.

Definition is_undefined (s : Slot) : bool :=
  match s with Undefined => true | _ => false end.

(** The grid after [run_events] from the initial one. *)
Definition grid_after (trace : list Event) : Grid :=
  match run_events initial trace with
  | Some g => g
  | None => initial
  end.

(** An event that stays within the first [rows] rows of the grid. *)
Definition within_rows (rows : nat) (e : Event) : bool :=
  match e with
  | CellClick r _ | CellChange r _ _ => r <? rows
  | FormulaChange _ | FormulaEnter => true
  end.

End Sheet.

(* ================================================================== *)
(** ** Facts about the evaluator adapters *)
(* ================================================================== *)

Section EvaluatorFacts.
Import Js Json Items Evaluator Scenario Invariant.





(** On everything that is not a failure the adapters read the two members
    of the decoded text, with their defaults. *)
Lemma answer_resume_read data x parsed :
  candidate_text data = Some x ->
  JSON_parse_value x = Some parsed ->
  unreadable (Some parsed) = false ->
  exists sc ju,
    member parsed (lit "score") = Some sc
    /\ member parsed (lit "justification") = Some ju
    /\ answer_resume (HttpResponse true (Some data))
       = mkResult (js_or sc (JNumZ 0))
                  (js_or ju (JStr (lit "Unable to evaluate answer"))).
Proof.
  intros Hx Hp Hr.
  assert (Hm : forall name, exists v, member parsed name = Some v).
  { intro name. destruct parsed; try discriminate; simpl; eauto.
    destruct (own_prop name fields); eauto. }
  destruct (Hm (lit "score")) as [sc Hs].
  destruct (Hm (lit "justification")) as [ju Hj].
  exists sc, ju. split; [exact Hs|]. split; [exact Hj|].
  unfold answer_resume. rewrite Hx.
  unfold bind at 1. rewrite Hp.
  unfold read_evaluation, bind. rewrite Hs, Hj. reflexivity.
Qed.

Lemma lex_backtick rest : lex LIdle (96%N :: rest) = None.
Proof. reflexivity. Qed.

Lemma JSON_parse_fence text : JSON_parse (fence text) = None.
Proof. reflexivity. Qed.

Lemma fence_match_other c s :
  (c =? 96)%N = false ->
  (c = 10%N -> starts_with ticks3 s = false) ->
  fence_match (c :: s) = 0%nat.
Proof.
  intros Hc Hn. unfold fence_match.
  change (lit "```json") with (96%N :: [96; 96; 106; 115; 111; 110]%N).
  change (lit "```") with ticks3.
  change (starts_with ticks3 (c :: s))
    with ((96 =? c)%N && starts_with [96; 96]%N s).
  cbn [starts_with]. rewrite (N.eqb_sym 96 c), Hc. cbn [andb].
  destruct (N.eqb_spec 10 c) as [E|E]; [|reflexivity].
  rewrite (Hn (eq_sym E)). reflexivity.
Qed.

Lemma starts_with_ticks_app text tail :
  has_backtick text = false ->
  starts_with ticks3 tail = false ->
  starts_with ticks3 (text ++ tail) = false.
Proof.
  destruct text as [|d text]; intros H Ht; [exact Ht|].
  simpl in H. apply orb_false_elim in H. destruct H as [Hd _].
  change (starts_with ticks3 ((d :: text) ++ tail))
    with ((96 =? d)%N && starts_with [96; 96]%N (text ++ tail)).
  rewrite (N.eqb_sym 96 d), Hd. reflexivity.
Qed.

(** The global replacement copies a stretch without back-ticks. *)
Lemma replace_fences_app text tail :
  has_backtick text = false ->
  starts_with ticks3 tail = false ->
  replace_fences 0 (text ++ tail) = text ++ replace_fences 0 tail.
Proof.
  induction text as [|c text IH]; intros H Ht; [reflexivity|].
  simpl in H. apply orb_false_elim in H. destruct H as [Hc Hr].
  change (replace_fences 0 ((c :: text) ++ tail))
    with (match fence_match (c :: text ++ tail) with
          | O => c :: replace_fences 0 (text ++ tail)
          | S k => replace_fences k (text ++ tail)
          end).
  rewrite (fence_match_other c (text ++ tail) Hc).
  - rewrite (IH Hr Ht). reflexivity.
  - intros _. apply starts_with_ticks_app; assumption.
Qed.

Lemma strip_fences_plain text :
  has_backtick text = false -> strip_fences text = text.
Proof.
  intro H. unfold strip_fences.
  rewrite <- (app_nil_r text) at 1.
  rewrite (replace_fences_app text [] H eq_refl). apply app_nil_r.
Qed.

Lemma strip_fences_fence text :
  has_backtick text = false -> strip_fences (fence text) = text.
Proof.
  intro H. unfold strip_fences, fence.
  change (replace_fences 0 (lit "```json" ++ [10%N] ++ text ++ [10%N] ++ lit "```"))
    with (replace_fences 0 (text ++ [10%N] ++ lit "```")).
  rewrite (replace_fences_app text ([10%N] ++ lit "```") H eq_refl).
  apply app_nil_r.
Qed.

Lemma task_resume_reply text :
  task_resume (reply text)
  = match parsed <- JSON_parse (strip_fences text) ;;
          read_evaluation (lit "Unable to evaluate task") parsed with
    | Some r => r
    | None => task_fallback
    end.
Proof. reflexivity. Qed.

Lemma answer_resume_reply text :
  answer_resume (reply text)
  = match parsed <- JSON_parse text ;;
          read_evaluation (lit "Unable to evaluate answer") parsed with
    | Some r => r
    | None => answer_fallback
    end.
Proof. reflexivity. Qed.

(** [evaluateTask] treats a fenced text like the text itself. *)
Lemma task_resume_unwraps text :
  has_backtick text = false ->
  task_resume (reply (fence text)) = task_resume (reply text).
Proof.
  intro H. rewrite !task_resume_reply.
  rewrite (strip_fences_fence text H), (strip_fences_plain text H). reflexivity.
Qed.

End EvaluatorFacts.

(* ================================================================== *)
(** ** Facts about the question session *)
(* ================================================================== *)

Section QuestionFacts.
Import Js Items Evaluator Scenario Invariant Question.
Local Open Scope nat_scope.

Lemma questions_count : length EXCEL_QUESTIONS = 5%nat.
Proof. reflexivity. Qed.

Lemma evaluateAnswer_resume key q a request resume :
  evaluateAnswer key q a = Fetch request resume -> resume = answer_resume.
Proof. destruct key; simpl; intro H; [discriminate | now inversion H]. Qed.

Lemma evaluateAnswer_ret key q a r :
  evaluateAnswer key q a = Ret r -> key = [].
Proof. destruct key; simpl; intro H; [reflexivity | discriminate]. Qed.

Lemma stage_eqb_eq a b : stage_eqb a b = true <-> a = b.
Proof. destruct a, b; simpl; split; intro H; try reflexivity; discriminate. Qed.

Lemma QInv_initial : QInv initial.
Proof.
  split; simpl; try (intros; discriminate); auto.
  - intros p [].
  - intros [|i] a H; discriminate.
Qed.

Lemma nth_error_snoc {A} (l : list A) (x : A) i a :
  nth_error (l ++ [x]) i = Some a ->
  nth_error l i = Some a \/ (i = length l /\ a = x).
Proof.
  intro H. destruct (Nat.lt_ge_cases i (length l)) as [Hl|Hl].
  - left. rewrite nth_error_app1 in H; assumption.
  - right. rewrite nth_error_app2 in H by assumption.
    destruct (i - length l)%nat as [|k] eqn:E; simpl in H.
    + inversion H. split; [lia | reflexivity].
    + destruct k; discriminate.
Qed.

(** The part after the [await] keeps the invariant when it finishes the one
    suspended call. *)
Lemma QInv_after_evaluation s p ev :
  QInv s ->
  inflight s = [p] ->
  QInv (after_evaluation p ev (set_inflight [] s)).
Proof.
  intros I Hp.
  destruct (inv_pending s I) as [E|(p' & E & Hst & Hl & Hi & Hq)];
    [rewrite E in Hp; discriminate|].
  rewrite Hp in E. inversion E; subst p'. clear E.
  destruct (inv_interview s I Hst) as (Hlen & Hlt & Hkey).
  rewrite questions_count in Hlt.
  unfold after_evaluation. rewrite questions_count.
  change (5 - 1)%nat with 4%nat.
  destruct (Nat.ltb_spec (p_index p) 4) as [Hlt4|Hge4].
  - split; simpl; try (intros; congruence); auto.
    + intros p0 [].
    + intros _. rewrite length_app. simpl. repeat split; try lia. exact Hkey.
    + intros i a H. apply nth_error_snoc in H. destruct H as [H|[-> ->]].
      * apply (inv_positions s I), H.
      * simpl. rewrite Hq, Hlen. reflexivity.
  - split; simpl; try (intros; congruence); auto.
    + intros p0 [].
    + intros _. rewrite length_app. simpl. split; [lia|reflexivity].
    + intros i a H. apply nth_error_snoc in H. destruct H as [H|[-> ->]].
      * apply (inv_positions s I), H.
      * simpl. rewrite Hq, Hlen. reflexivity.
Qed.

Lemma QInv_step now s e s' : QInv s -> step now s e = Some s' -> QInv s'.
Proof.
  intros I H. unfold step in H.
  destruct (enabled s e) eqn:En; [|discriminate].
  destruct e as [text| |text|[|]| |hidden|i out]; simpl in En.
  - (* ChangeApiKey *)
    inversion H; subst s'. apply andb_prop in En. destruct En as [Ew _].
    apply stage_eqb_eq in Ew.
    destruct I as [I1 I2 I3 I4 I5 I6].
    split; simpl; auto; intros E; congruence.
  - (* ClickStart *)
    inversion H; subst s'. apply andb_prop in En. destruct En as [Ew Ek].
    apply stage_eqb_eq in Ew.
    destruct (I.(inv_welcome s) Ew) as (Ha & Hi & Hf & Hc).
    unfold startAssessment.
    destruct (apiKey s) as [|c key] eqn:Ekey; simpl.
    + destruct I as [I1 I2 I3 I4 I5 I6].
      split; simpl; auto.
    + split; simpl; try (intros; congruence); auto.
      * rewrite Hf. intros p [].
      * intros _. rewrite Ha, Hi, ?Ekey. simpl.
        repeat split; try lia. discriminate.
      * rewrite Ha. intros [|i] a E; discriminate.
  - (* ChangeAnswer *)
    inversion H; subst s'. destruct I as [I1 I2 I3 I4 I5 I6].
    split; simpl; auto.
  - (* Paste ApiKeyField *)
    inversion H; subst s'. exact I.
  - (* Paste AnswerField *)
    inversion H; subst s'. apply andb_prop in En. destruct En as [Es _].
    apply stage_eqb_eq in Es.
    destruct I as [I1 I2 I3 I4 I5 I6].
    split; simpl; auto; intros E; congruence.
  - (* ClickSubmit *)
    apply andb_prop in En. destruct En as [Es Eg].
    apply stage_eqb_eq in Es. apply negb_true_iff in Eg.
    apply orb_false_elim in Eg. destruct Eg as [Et El].
    unfold handleSubmitAnswer in H. rewrite Et in H.
    destruct (I.(inv_interview s) Es) as (Hlen & Hlt & Hkey).
    destruct (evaluateAnswer (apiKey s)
                (question_text (nth_error EXCEL_QUESTIONS (currentQuestionIndex s)))
                (currentAnswer s)) as [r|request resume] eqn:Ev.
    + apply evaluateAnswer_ret in Ev. contradiction.
    + apply evaluateAnswer_resume in Ev. subst resume.
      inversion H; subst s'. clear H.
      assert (Hnone : inflight s = []).
      { destruct (inv_pending s I) as [E|(p & E & _ & Hl & _)];
          [exact E | congruence]. }
      destruct I as [I1 I2 I3 I4 I5 I6].
      split; simpl; try (intros; congruence); auto.
      * rewrite Hnone. simpl. intros p [<-|[]]. reflexivity.
      * right. rewrite Hnone. simpl. eexists. repeat split; auto.
  - (* VisibilityChange *)
    inversion H; subst s'. unfold handleVisibilityChange.
    destruct (hidden && stage_eqb (interviewStage s) interview) eqn:Eh;
      [|exact I].
    apply andb_prop in Eh. destruct Eh as [_ Es]. apply stage_eqb_eq in Es.
    destruct I as [I1 I2 I3 I4 I5 I6].
    split; simpl; auto; intros E; congruence.
  - (* FetchSettled *)
    unfold settle in H.
    destruct (nth_error (inflight s) i) as [p|] eqn:Ep; [|discriminate].
    destruct (typed (p_resume p out)) as [ev|]; [|discriminate].
    inversion H; subst s'. clear H.
    destruct (inv_pending s I) as [E|(p' & E & _)];
      [rewrite E in Ep; destruct i; discriminate|].
    rewrite E in Ep |- *. destruct i as [|[|i]]; try discriminate.
    inversion Ep; subst p'. simpl.
    apply QInv_after_evaluation; assumption.
Qed.

Lemma QInv_reachable s : reachable s -> QInv s.
Proof.
  induction 1 as [|now s e s' _ IH Hs]; [apply QInv_initial|].
  exact (QInv_step now s e s' IH Hs).
Qed.

Lemma run_events_reachable trace s s' :
  reachable s -> run_events s trace = Some s' -> reachable s'.
Proof.
  revert s. induction trace as [|[now e] trace IH]; intros s R H; simpl in H.
  - inversion H; subst; exact R.
  - destruct (step now s e) as [s1|] eqn:E; [|discriminate].
    apply (IH s1); [|exact H]. eapply reach_step; eassumption.
Qed.

(** In the question session the records line up with the questions: while a
    question is shown there are as many records as the index says, at the
    report there is one per question, and the record at a position is the
    one of the question at that position. *)
Lemma question_records_aligned s :
  reachable s ->
  (interviewStage s = interview -> length (answers s) = currentQuestionIndex s)
  /\ (interviewStage s = report -> length (answers s) = length EXCEL_QUESTIONS)
  /\ (forall i a, nth_error (answers s) i = Some a ->
                  question a = nth_error EXCEL_QUESTIONS i).
Proof.
  intro R. apply QInv_reachable in R. repeat split.
  - intro E. apply (inv_interview s R E).
  - intro E. apply (inv_report s R E).
  - apply (inv_positions s R).
Qed.

(** At most one evaluation is in flight in the question session. *)
Lemma question_single_flight s : reachable s -> length (inflight s) <= 1.
Proof.
  intro R. apply QInv_reachable in R.
  destruct (inv_pending s R) as [E|(p & E & _)]; rewrite E; simpl; lia.
Qed.

End QuestionFacts.

(* ================================================================== *)
(** ** Facts about the task session *)
(* ================================================================== *)

Section TaskFacts.
Import Js Items Evaluator Scenario Invariant Tasks.
Local Open Scope nat_scope.

Lemma tasks_count : length EXCEL_TASKS = 5.
Proof. reflexivity. Qed.

Lemma evaluateTask_resume key taskId acts request resume :
  evaluateTask key taskId acts = Fetch request resume -> resume = task_resume.
Proof.
  unfold evaluateTask. destruct key; [discriminate|].
  destruct (find _ EXCEL_TASKS); intro H; [now inversion H | discriminate].
Qed.

Lemma task_stage_eqb_eq a b : stage_eqb a b = true <-> a = b.
Proof. destruct a, b; simpl; split; intro H; try reflexivity; discriminate. Qed.

Lemma after_evaluation_results now p ev s :
  taskResults (after_evaluation now p ev s) = taskResults s ++ [result_of p ev].
Proof.
  unfold after_evaluation, startNextTask.
  destruct (p_index p <? length EXCEL_TASKS - 1); [|reflexivity].
  destruct (nth_error EXCEL_TASKS (p_index p + 1)); reflexivity.
Qed.

Lemma after_evaluation_inflight now p ev s :
  inflight (after_evaluation now p ev s) = inflight s.
Proof.
  unfold after_evaluation, startNextTask.
  destruct (p_index p <? length EXCEL_TASKS - 1); [|reflexivity].
  destruct (nth_error EXCEL_TASKS (p_index p + 1)); reflexivity.
Qed.

Lemma after_evaluation_flags now p ev s :
  cheatingFlags (after_evaluation now p ev s) = cheatingFlags s.
Proof.
  unfold after_evaluation, startNextTask.
  destruct (p_index p <? length EXCEL_TASKS - 1); [|reflexivity].
  destruct (nth_error EXCEL_TASKS (p_index p + 1)); reflexivity.
Qed.

Lemma after_evaluation_index now p ev s :
  p_index p < 4 ->
  currentTaskIndex (after_evaluation now p ev s) = S (currentTaskIndex s)
  /\ assessmentStage (after_evaluation now p ev s) = assessmentStage s.
Proof.
  intro H. unfold after_evaluation, startNextTask.
  rewrite tasks_count. change (5 - 1) with 4.
  destruct (Nat.ltb_spec (p_index p) 4) as [_|F]; [|lia].
  destruct (nth_error EXCEL_TASKS (p_index p + 1)); simpl;
    split; try reflexivity; lia.
Qed.

Lemma after_evaluation_last now p ev s :
  4 <= p_index p ->
  assessmentStage (after_evaluation now p ev s) = report
  /\ currentTaskIndex (after_evaluation now p ev s) = currentTaskIndex s.
Proof.
  intro H. unfold after_evaluation.
  rewrite tasks_count. change (5 - 1) with 4.
  destruct (Nat.ltb_spec (p_index p) 4) as [F|_]; [lia|].
  split; reflexivity.
Qed.

Lemma timer_effect_results a b : taskResults (timer_effect a b) = taskResults b.
Proof. unfold timer_effect. destruct (_ && _); reflexivity. Qed.

Lemma timer_effect_inflight a b : inflight (timer_effect a b) = inflight b.
Proof. unfold timer_effect. destruct (_ && _); reflexivity. Qed.

Lemma timer_effect_flags a b : cheatingFlags (timer_effect a b) = cheatingFlags b.
Proof. unfold timer_effect. destruct (_ && _); reflexivity. Qed.

Lemma timer_effect_index a b : currentTaskIndex (timer_effect a b) = currentTaskIndex b.
Proof. unfold timer_effect. destruct (_ && _); reflexivity. Qed.

Lemma timer_effect_stage a b : assessmentStage (timer_effect a b) = assessmentStage b.
Proof. unfold timer_effect. destruct (_ && _); reflexivity. Qed.

Lemma step_handle now s e s' :
  step now s e = Some s' ->
  enabled s e = true /\ exists s1, handle now s e = Some s1 /\ s' = timer_effect s s1.
Proof.
  unfold step. destruct (enabled s e); [|discriminate].
  destruct (handle now s e) as [s1|]; simpl; intro H; [|discriminate].
  inversion H. eauto.
Qed.

Lemma TInv_initial : TInv initial.
Proof. split; simpl; intros ? []. Qed.

Lemma In_remove_nth {A} (x : A) i l : In x (remove_nth i l) -> In x l.
Proof.
  revert i. induction l as [|y l IH]; intros [|i] H; simpl in *; auto.
  destruct H as [H|H]; [left; exact H | right; exact (IH i H)].
Qed.

Lemma TInv_after now p ev s pend :
  TInv s ->
  (forall q, In q pend -> In q (inflight s)) ->
  TInv (after_evaluation now p ev (set_inflight pend s)).
Proof.
  intros [I1 I2] Hp. split.
  - intros q. rewrite after_evaluation_inflight. simpl. intro H. apply I1, Hp, H.
  - intros r. rewrite after_evaluation_results. simpl. intro H.
    apply in_app_or in H. destruct H as [H|[<-|[]]]; [apply I2, H | reflexivity].
Qed.

Lemma TInv_handleTaskComplete now env s s1 :
  TInv s -> handleTaskComplete now env s = Some s1 -> TInv s1.
Proof.
  intros I H. unfold handleTaskComplete in H.
  destruct (r_start env) as [started|]; [|inversion H; subst; exact I].
  destruct (nth_error EXCEL_TASKS (r_index env)) as [t|].
  2:{ inversion H; subst s1. destruct I as [I1 I2]. split; simpl; auto. }
  match type of H with
  | match ?ev with _ => _ end = _ => destruct ev as [r|request resume] eqn:Ev
  end.
  - destruct (typed r) as [ev|]; [|discriminate]. inversion H; subst s1.
    replace (set_isLoading true s) with (set_inflight (inflight s) (set_isLoading true s))
      by (destruct s; reflexivity).
    apply TInv_after.
    + destruct I as [I1 I2]. split; simpl; auto.
    + simpl. auto.
  - apply evaluateTask_resume in Ev. subst resume.
    inversion H; subst s1. destruct I as [I1 I2]. split; simpl; auto.
    intros p Hin. apply in_app_or in Hin. destruct Hin as [Hin|[<-|[]]];
      [apply I1, Hin | reflexivity].
Qed.

Lemma TInv_handle now s e s1 : TInv s -> handle now s e = Some s1 -> TInv s1.
Proof.
  intros I H.
  destruct e as [text| |r c old new|[| |]| | |hidden|i out]; simpl in H;
    try (inversion H; subst s1; destruct I as [I1 I2]; split; simpl; auto; fail).
  - (* ClickStart *)
    inversion H; subst s1. unfold startAssessment.
    destruct (is_empty (apiKey s)); destruct I as [I1 I2]; split; simpl; auto.
  - (* ClickComplete *)
    exact (TInv_handleTaskComplete now (render s) s s1 I H).
  - (* Tick *)
    destruct (interval s) as [env|]; [|discriminate]. unfold tick in H.
    destruct (timeRemaining s <=? 1)%Z.
    + apply (TInv_handleTaskComplete now env (set_timeRemaining 0 s) s1); [|exact H].
      destruct I as [I1 I2]; split; simpl; auto.
    + inversion H; subst s1. destruct I as [I1 I2]; split; simpl; auto.
  - (* VisibilityChange *)
    inversion H; subst s1. unfold handleVisibilityChange.
    destruct (hidden && _); destruct I as [I1 I2]; split; simpl; auto.
  - (* FetchSettled *)
    unfold settle in H.
    destruct (nth_error (inflight s) i) as [p|]; [|discriminate].
    destruct (typed (p_resume p out)) as [ev|]; [|discriminate].
    inversion H; subst s1. apply TInv_after; [exact I|].
    intros q. apply In_remove_nth.
Qed.

Lemma TInv_step now s e s' : TInv s -> step now s e = Some s' -> TInv s'.
Proof.
  intros I H. apply step_handle in H. destruct H as (_ & s1 & Hh & ->).
  apply (TInv_handle now s e s1 I) in Hh. destruct Hh as [I1 I2].
  split.
  - rewrite timer_effect_inflight. exact I1.
  - rewrite timer_effect_results. exact I2.
Qed.

Lemma TInv_reachable s : reachable s -> TInv s.
Proof.
  induction 1 as [|now s e s' _ IH Hs]; [apply TInv_initial|].
  exact (TInv_step now s e s' IH Hs).
Qed.

Lemma task_run_events_reachable trace s s' :
  reachable s -> run_events s trace = Some s' -> reachable s'.
Proof.
  revert s. induction trace as [|[now e] trace IH]; intros s R H; simpl in H.
  - inversion H; subst; exact R.
  - destruct (step now s e) as [s1|] eqn:E; [|discriminate].
    apply (IH s1); [|exact H]. eapply reach_step; eassumption.
Qed.

End TaskFacts.

(* ================================================================== *)
(** ** Counting records in the task session *)
(* ================================================================== *)

Section TaskCountFacts.
Import Js Items Evaluator Scenario Invariant Tasks.
Local Open Scope nat_scope.

Lemma after_evaluation_interval now p ev s :
  interval (after_evaluation now p ev s) = interval s.
Proof.
  unfold after_evaluation, startNextTask.
  destruct (p_index p <? length EXCEL_TASKS - 1); [|reflexivity].
  destruct (nth_error EXCEL_TASKS (p_index p + 1)); reflexivity.
Qed.

Lemma after_evaluation_cases now p ev s :
  (p_index p < 4
   /\ currentTaskIndex (after_evaluation now p ev s) = S (currentTaskIndex s)
   /\ assessmentStage (after_evaluation now p ev s) = assessmentStage s)
  \/ (4 <= p_index p
      /\ currentTaskIndex (after_evaluation now p ev s) = currentTaskIndex s
      /\ assessmentStage (after_evaluation now p ev s) = report).
Proof.
  destruct (Nat.lt_ge_cases (p_index p) 4) as [H|H]; [left | right].
  - split; [exact H | apply after_evaluation_index, H].
  - destruct (after_evaluation_last now p ev s H) as [A B]. auto.
Qed.

(** Counting survives the part after the [await], run outside the welcome
    stage for a call that was started at an index already reached. *)
Lemma TCount_after now p ev s :
  assessmentStage s <> welcome ->
  p_index p <= currentTaskIndex s ->
  (assessmentStage s = tasks -> length (taskResults s) = currentTaskIndex s) ->
  (forall q, In q (inflight s) -> p_index q <= currentTaskIndex s) ->
  (forall env, interval s = Some env -> r_index env <= currentTaskIndex s) ->
  TCount (after_evaluation now p ev s).
Proof.
  intros Hw Hp Ht Hq Hi.
  destruct (after_evaluation_cases now p ev s) as [(L & I & S')|(L & I & S')];
    split; rewrite ?after_evaluation_results, ?after_evaluation_inflight,
             ?after_evaluation_interval, ?I, ?S'.
  - intro E. contradiction.
  - intro E. rewrite length_app. simpl. rewrite (Ht E). lia.
  - intros q H. specialize (Hq q H). lia.
  - intros env H. specialize (Hi env H). lia.
  - intro E. discriminate.
  - intro E. discriminate.
  - exact Hq.
  - exact Hi.
Qed.

Lemma TCount_timer_effect a b : TCount b -> TCount (timer_effect a b).
Proof.
  intros [C1 C2 C3 C4]. unfold timer_effect.
  destruct (_ && _); [split; assumption|].
  split; simpl; auto.
  - intro E. destruct (C1 E) as (R & I & F & _). rewrite E. simpl. auto.
  - intros env. destruct (_ && _); intro H; [|discriminate].
    inversion H. simpl. lia.
Qed.

Lemma TCount_initial : TCount initial.
Proof. split; simpl; auto; try discriminate; intros ? []. Qed.

Lemma TCount_handleTaskComplete now env s s1 :
  TCount s ->
  assessmentStage s <> welcome ->
  r_index env <= currentTaskIndex s ->
  handleTaskComplete now env s = Some s1 ->
  TCount s1.
Proof.
  intros C Hw He H. unfold handleTaskComplete in H.
  destruct (r_start env) as [started|]; [|inversion H; subst; exact C].
  destruct (nth_error EXCEL_TASKS (r_index env)) as [t|].
  2:{ inversion H; subst s1. destruct C as [C1 C2 C3 C4]. split; simpl; auto. }
  destruct C as [C1 C2 C3 C4].
  destruct (evaluateTask _ _ _) as [r|request resume].
  - destruct (typed r) as [ev|]; [|discriminate]. inversion H; subst s1.
    apply TCount_after; simpl; auto.
  - inversion H; subst s1. split; simpl; auto.
    + intro E. contradiction.
    + intros p Hin. apply in_app_or in Hin.
      destruct Hin as [Hin|[<-|[]]]; [apply C3, Hin | exact He].
Qed.

Lemma TCount_step now s e s' : TCount s -> step now s e = Some s' -> TCount s'.
Proof.
  intros C H. apply step_handle in H. destruct H as (En & s1 & H & ->).
  apply TCount_timer_effect.
  unfold enabled in En. apply andb_prop in En. destruct En as [_ En].
  destruct e as [text| |r c old new|[| |]| | |hidden|i out]; simpl in H.
  - inversion H; subst s1. destruct C as [C1 C2 C3 C4]. split; simpl; auto.
  - (* ClickStart *)
    inversion H; subst s1. apply andb_prop in En. destruct En as [Ew _].
    apply task_stage_eqb_eq in Ew.
    destruct (tc_welcome s C Ew) as (R & I & F & T).
    unfold startAssessment.
    destruct (is_empty (apiKey s)); [destruct C; split; simpl; auto|].
    simpl. split; simpl; try discriminate.
    + intros _. rewrite R, I. reflexivity.
    + rewrite F. intros ? [].
    + rewrite T. discriminate.
  - inversion H; subst s1. destruct C as [C1 C2 C3 C4].
    apply task_stage_eqb_eq in En.
    split; simpl; auto; intro E; congruence.
  - inversion H; subst s1. exact C.
  - inversion H; subst s1. destruct C as [C1 C2 C3 C4].
    apply task_stage_eqb_eq in En.
    split; simpl; auto; intro E; congruence.
  - inversion H; subst s1. exact C.
  - (* ClickComplete *)
    apply andb_prop in En. destruct En as [Es _]. apply task_stage_eqb_eq in Es.
    apply (TCount_handleTaskComplete now (render s) s s1 C); auto.
    rewrite Es. discriminate.
  - (* Tick *)
    destruct (interval s) as [env|] eqn:Ei; [|discriminate].
    assert (Hw : assessmentStage s <> welcome).
    { intro E. destruct (tc_welcome s C E) as (_ & _ & _ & T). congruence. }
    pose proof (tc_interval s C env Ei) as Hle.
    unfold tick in H. destruct (timeRemaining s <=? 1)%Z.
    + apply (TCount_handleTaskComplete now env (set_timeRemaining 0 s) s1); auto.
      destruct C as [C1 C2 C3 C4]. split; simpl; auto.
    + inversion H; subst s1. destruct C as [C1 C2 C3 C4]. split; simpl; auto.
  - (* VisibilityChange *)
    inversion H; subst s1. unfold handleVisibilityChange.
    destruct (hidden && stage_eqb (assessmentStage s) tasks) eqn:Eh; [|exact C].
    apply andb_prop in Eh. destruct Eh as [_ Es]. apply task_stage_eqb_eq in Es.
    destruct C as [C1 C2 C3 C4]. split; simpl; auto; intro E; congruence.
  - (* FetchSettled *)
    unfold settle in H.
    destruct (nth_error (inflight s) i) as [p|] eqn:Ep; [|discriminate].
    destruct (typed (p_resume p out)) as [ev|]; [|discriminate].
    inversion H; subst s1.
    assert (Hin : In p (inflight s)) by (eapply nth_error_In; eassumption).
    assert (Hw : assessmentStage s <> welcome).
    { intro E. destruct (tc_welcome s C E) as (_ & _ & F & _).
      rewrite F in Hin. destruct Hin. }
    destruct C as [C1 C2 C3 C4].
    apply TCount_after; simpl; auto.
    intros q Hq. apply C3. eapply In_remove_nth, Hq.
Qed.

Lemma TCount_reachable s : reachable s -> TCount s.
Proof.
  induction 1 as [|now s e s' _ IH Hs]; [apply TCount_initial|].
  exact (TCount_step now s e s' IH Hs).
Qed.

(** While a task is shown there are as many records as the index says. *)
Lemma task_records_count s :
  reachable s -> assessmentStage s = tasks ->
  length (taskResults s) = currentTaskIndex s.
Proof. intros R E. exact (tc_tasks s (TCount_reachable s R) E). Qed.

Lemma handleTaskComplete_to_report now env s s1 :
  r_index env <= currentTaskIndex s ->
  currentTaskIndex s < 5 ->
  handleTaskComplete now env s = Some s1 ->
  assessmentStage s = tasks ->
  assessmentStage s1 = report ->
  length (taskResults s1) = S (length (taskResults s)) /\ currentTaskIndex s = 4.
Proof.
  intros He Hr H Es Er. unfold handleTaskComplete in H.
  destruct (r_start env) as [started|]; [|inversion H; subst; congruence].
  destruct (nth_error EXCEL_TASKS (r_index env)) as [t|].
  2:{ inversion H; subst s1. simpl in Er. congruence. }
  destruct (evaluateTask _ _ _) as [r|request resume].
  - destruct (typed r) as [ev|]; [|discriminate]. inversion H; subst s1.
    rewrite after_evaluation_results, length_app. simpl.
    match type of Er with
    | assessmentStage (after_evaluation ?n ?p ?e ?s0) = _ =>
        destruct (after_evaluation_cases n p e s0) as [(L & _ & S')|(L & _ & _)]
    end.
    + rewrite S' in Er. simpl in Er. congruence.
    + simpl in L. split; lia.
  - inversion H; subst s1. simpl in Er. congruence.
Qed.

(** The step that takes the task session to the report leaves one record
    per task. *)
Lemma task_report_transition now s e s' :
  reachable s ->
  step now s e = Some s' ->
  assessmentStage s = tasks ->
  assessmentStage s' = report ->
  length (taskResults s') = length EXCEL_TASKS.
Proof.
  intros R H Es Er. pose proof (TCount_reachable s R) as C.
  pose proof (tc_tasks s C Es) as Hlen.
  apply step_handle in H. destruct H as (En & s1 & H & ->).
  rewrite timer_effect_results. rewrite timer_effect_stage in Er.
  unfold enabled in En. apply andb_prop in En. destruct En as [Hr En].
  unfold renders in Hr. rewrite Es, tasks_count in Hr. apply Nat.ltb_lt in Hr.
  rewrite tasks_count.
  destruct e as [text| |r c old new|[| |]| | |hidden|i out]; simpl in H;
    try (inversion H; subst s1; simpl in Er; congruence).
  - inversion H; subst s1. unfold startAssessment in Er.
    destruct (is_empty (apiKey s)); simpl in Er; congruence.
  - destruct (handleTaskComplete_to_report now (render s) s s1) as [A B]; auto.
    lia.
  - destruct (interval s) as [env|] eqn:Ei; [|discriminate].
    pose proof (tc_interval s C env Ei) as Hle.
    unfold tick in H. destruct (timeRemaining s <=? 1)%Z.
    + destruct (handleTaskComplete_to_report now env (set_timeRemaining 0 s) s1)
        as [A B]; auto.
      simpl in A, B. lia.
    + inversion H; subst s1. simpl in Er. congruence.
  - inversion H; subst s1. unfold handleVisibilityChange in Er.
    destruct (hidden && _); simpl in Er; congruence.
  - unfold settle in H.
    destruct (nth_error (inflight s) i) as [p|] eqn:Ep; [|discriminate].
    destruct (typed (p_resume p out)) as [ev|]; [|discriminate].
    inversion H; subst s1.
    assert (Hin : In p (inflight s)) by (eapply nth_error_In; eassumption).
    pose proof (tc_pending s C p Hin) as Hle.
    rewrite after_evaluation_results, length_app. simpl.
    match type of Er with
    | assessmentStage (after_evaluation ?n ?p ?e ?s0) = _ =>
        destruct (after_evaluation_cases n p e s0) as [(L & _ & S')|(L & _ & _)]
    end.
    + rewrite S' in Er. simpl in Er. congruence.
    + lia.
Qed.

End TaskCountFacts.

(* ================================================================== *)
(** ** The expiry path of the countdown *)
(* ================================================================== *)

Section TimerFacts.
Import Js Items Evaluator Scenario Invariant Tasks.
Local Open Scope nat_scope.

Lemma find_task_of_index i task :
  nth_error EXCEL_TASKS i = Some task ->
  find (fun t => Nat.eqb (id t) (id task)) EXCEL_TASKS = Some task.
Proof.
  destruct i as [|[|[|[|[|i]]]]]; intro H;
    try (inversion H; subst task; reflexivity).
  destruct i; discriminate.
Qed.

(** When the last second runs out the callback of the interval enters
    [handleTaskComplete] whatever [isLoading] says: a further call is
    suspended for the index its render closed over. *)
Lemma expiry_ignores_loading_guard now s env started task :
  interval s = Some env ->
  (timeRemaining s <= 1)%Z ->
  r_start env = Some started ->
  nth_error EXCEL_TASKS (r_index env) = Some task ->
  r_apiKey env <> [] ->
  exists p,
    handle now s Tick
    = Some (set_inflight (inflight s ++ [p])
              (set_isLoading true (set_timeRemaining 0 s)))
    /\ p_index p = r_index env
    /\ p_task p = task.
Proof.
  intros Hi Ht Hs Hn Hk. simpl. rewrite Hi. unfold tick.
  apply Z.leb_le in Ht. rewrite Ht.
  unfold handleTaskComplete. rewrite Hs, Hn.
  unfold evaluateTask. destruct (r_apiKey env) as [|c key]; [contradiction|].
  rewrite (find_task_of_index _ _ Hn).
  eexists. split; [reflexivity|]. split; reflexivity.
Qed.

End TimerFacts.

(* ================================================================== *)
(** ** Fallback results and their records *)
(* ================================================================== *)

Section FallbackFacts.
Import Js Items Evaluator Scenario Invariant.
Local Open Scope nat_scope.







End FallbackFacts.

(* ================================================================== *)
(** ** Rounding and the overall score *)
(* ================================================================== *)

Section ScoreFacts.
Import Js Items Evaluator Scenario JsMath.
Local Open Scope Q_scope.

Lemma Math_round_bounds x :
  inject_Z (Math_round x) - (1 # 2) <= x /\ x < inject_Z (Math_round x) + (1 # 2).
Proof.
  unfold Math_round.
  pose proof (Qfloor_le (x + (1 # 2))) as L.
  pose proof (Qlt_floor (x + (1 # 2))) as U.
  rewrite inject_Z_plus in U. change (inject_Z 1) with 1 in U.
  split; lra.
Qed.

(** The bounds determine the result. *)
Lemma Math_round_unique x k :
  inject_Z k - (1 # 2) <= x -> x < inject_Z k + (1 # 2) -> Math_round x = k.
Proof.
  intros L U. destruct (Math_round_bounds x) as [L' U'].
  assert (A : inject_Z (Math_round x) < inject_Z (k + 1)).
  { rewrite inject_Z_plus. change (inject_Z 1) with 1. lra. }
  assert (B : inject_Z k < inject_Z (Math_round x + 1)).
  { rewrite inject_Z_plus. change (inject_Z 1) with 1. lra. }
  rewrite <- Zlt_Qlt in A, B. lia.
Qed.





End ScoreFacts.

(* ================================================================== *)
(** ** Integrity flags *)
(* ================================================================== *)

Section FlagFacts.
Import Js Items Evaluator Scenario Invariant.
Local Open Scope nat_scope.

(** The flags a step of the question session appends. *)
Lemma question_flags_step now s e s' :
  Question.step now s e = Some s' ->
  Question.cheatingFlags s'
  = Question.cheatingFlags s
    ++ match e with
       | Question.Paste Question.AnswerField => [mkFlag paste now]
       | Question.VisibilityChange true =>
           if Question.stage_eqb (Question.interviewStage s) Question.interview
           then [mkFlag tab_switch now] else []
       | _ => []
       end.
Proof.
  unfold Question.step. destruct (Question.enabled s e); [|discriminate].
  destruct e as [text| |text|[|]| |hidden|i out]; intro H;
    try (inversion H; subst s'; simpl; rewrite ?app_nil_r; reflexivity).
  - inversion H; subst s'. unfold Question.startAssessment.
    destruct (Question.is_empty (Question.apiKey s)); simpl;
      rewrite app_nil_r; reflexivity.
  - unfold Question.handleSubmitAnswer in H.
    destruct (Question.is_empty (trim (Question.currentAnswer s))).
    + inversion H; subst s'. rewrite app_nil_r; reflexivity.
    + destruct (evaluateAnswer _ _ _) as [r|request resume].
      * destruct (typed r) as [ev|]; [|discriminate]. inversion H; subst s'.
        unfold Question.after_evaluation.
        destruct (_ <? _); simpl; rewrite app_nil_r; reflexivity.
      * inversion H; subst s'. simpl. rewrite app_nil_r; reflexivity.
  - inversion H; subst s'. unfold Question.handleVisibilityChange.
    destruct hidden; simpl; [|rewrite app_nil_r; reflexivity].
    destruct (Question.stage_eqb _ _); simpl; rewrite ?app_nil_r; reflexivity.
  - unfold Question.settle in H.
    destruct (nth_error _ i) as [p|]; [|discriminate].
    destruct (typed _) as [ev|]; [|discriminate]. inversion H; subst s'.
    unfold Question.after_evaluation.
    destruct (_ <? _); simpl; rewrite app_nil_r; reflexivity.
Qed.

Lemma handleTaskComplete_flags now env s s1 :
  Tasks.handleTaskComplete now env s = Some s1 ->
  Tasks.cheatingFlags s1 = Tasks.cheatingFlags s.
Proof.
  unfold Tasks.handleTaskComplete.
  destruct (Tasks.r_start env); [|intro H; inversion H; reflexivity].
  destruct (nth_error EXCEL_TASKS _); [|intro H; inversion H; reflexivity].
  destruct (evaluateTask _ _ _) as [r|request resume]; intro H.
  - destruct (typed r) as [ev|]; [|discriminate]. inversion H.
    rewrite after_evaluation_flags. reflexivity.
  - inversion H. reflexivity.
Qed.

(** The flags a step of the task session appends. *)
Lemma task_flags_step now s e s' :
  Tasks.step now s e = Some s' ->
  Tasks.cheatingFlags s'
  = Tasks.cheatingFlags s
    ++ match e with
       | Tasks.Paste Tasks.CellInput => [mkFlag paste now]
       | Tasks.VisibilityChange true =>
           if Tasks.stage_eqb (Tasks.assessmentStage s) Tasks.tasks
           then [mkFlag tab_switch now] else []
       | _ => []
       end.
Proof.
  intro H. apply step_handle in H. destruct H as (_ & s1 & H & ->).
  rewrite timer_effect_flags.
  destruct e as [text| |r c old new|[| |]| | |hidden|i out]; simpl in H;
    try (inversion H; subst s1; simpl; rewrite ?app_nil_r; reflexivity).
  - inversion H; subst s1. unfold Tasks.startAssessment.
    destruct (Tasks.is_empty (Tasks.apiKey s)); simpl;
      rewrite app_nil_r; reflexivity.
  - rewrite (handleTaskComplete_flags _ _ _ _ H), app_nil_r. reflexivity.
  - destruct (Tasks.interval s) as [env|]; [|discriminate]. unfold Tasks.tick in H.
    destruct (Tasks.timeRemaining s <=? 1)%Z.
    + rewrite (handleTaskComplete_flags _ _ _ _ H), app_nil_r. reflexivity.
    + inversion H; subst s1. simpl. rewrite app_nil_r. reflexivity.
  - inversion H; subst s1. unfold Tasks.handleVisibilityChange.
    destruct hidden; simpl; [|rewrite app_nil_r; reflexivity].
    destruct (Tasks.stage_eqb _ _); simpl; rewrite ?app_nil_r; reflexivity.
  - unfold Tasks.settle in H.
    destruct (nth_error _ i) as [p|]; [|discriminate].
    destruct (typed _) as [ev|]; [|discriminate]. inversion H; subst s1.
    rewrite after_evaluation_flags. simpl. rewrite app_nil_r. reflexivity.
Qed.

(** Outside the active stage no step of either session records a flag, and
    no step ever removes one. *)
Lemma question_no_flag_outside_interview now s e s' :
  Question.interviewStage s <> Question.interview ->
  Question.step now s e = Some s' ->
  Question.cheatingFlags s' = Question.cheatingFlags s.
Proof.
  intros Hs H. pose proof H as En. unfold Question.step in En.
  destruct (Question.enabled s e) eqn:E; [clear En|discriminate].
  rewrite (question_flags_step now s e s' H).
  destruct e as [text| |text|[|]| |[|]|i out]; try apply app_nil_r.
  - simpl in E. apply andb_prop in E. destruct E as [E _].
    apply stage_eqb_eq in E. contradiction.
  - destruct (Question.stage_eqb _ _) eqn:E'; [|apply app_nil_r].
    apply stage_eqb_eq in E'. contradiction.
Qed.

Lemma task_no_flag_outside_tasks now s e s' :
  Tasks.assessmentStage s <> Tasks.tasks ->
  Tasks.step now s e = Some s' ->
  Tasks.cheatingFlags s' = Tasks.cheatingFlags s.
Proof.
  intros Hs H. pose proof H as En. apply step_handle in En. destruct En as [E _].
  rewrite (task_flags_step now s e s' H).
  destruct e as [text| |r c old new|[| |]| | |[|]|i out]; try apply app_nil_r.
  - unfold Tasks.enabled in E. apply andb_prop in E. destruct E as [_ E].
    apply task_stage_eqb_eq in E. contradiction.
  - destruct (Tasks.stage_eqb _ _) eqn:E'; [|apply app_nil_r].
    apply task_stage_eqb_eq in E'. contradiction.
Qed.

End FlagFacts.

(* ================================================================== *)
(** ** The evaluator claims *)
(* ================================================================== *)

Section EvaluatorClaims.
Import Js Json Items Evaluator Scenario Invariant.
Local Open Scope nat_scope.

(** C7.  Without a credential both adapters return at once, without a
    network call, the result with score 0 whose justification says that the
    key is required ("API key required for evaluation"). *)
Theorem missing_credential_short_circuits :
  forall question answer taskId actions,
    evaluateAnswer [] question answer = Ret credential_result
    /\ evaluateTask [] taskId actions = Ret credential_result
    /\ network_calls (evaluateAnswer [] question answer) = 0
    /\ network_calls (evaluateTask [] taskId actions) = 0
    /\ typed credential_result
       = Some (mkEvaluation 0 (lit "API key required for evaluation")).
Proof. intros. repeat split. Qed.

(** C5.  [evaluateAnswer] does not strip a code fence: whatever text is
    wrapped, the fenced reply ends in the degraded result, although the same
    text unwrapped is read, and although [evaluateTask] reads the fenced
    reply. *)
Theorem fenced_reply_falls_back_in_evaluateAnswer :
  forall c apiKey question answer text,
    run (evaluateAnswer (c :: apiKey) question answer) (reply (fence text))
    = answer_fallback
    /\ typed (run (evaluateAnswer (c :: apiKey) question answer) (reply sample_text))
       = Some (mkEvaluation 8 (lit "ok"))
    /\ typed (run (evaluateTask (c :: apiKey) 1 []) (reply (fence sample_text)))
       = Some (mkEvaluation 8 (lit "ok")).
Proof.
  intros. split; [|split].
  - simpl. reflexivity.
  - vm_compute. reflexivity.
  - vm_compute. reflexivity.
Qed.









End EvaluatorClaims.

(* ================================================================== *)
(** ** The session claims *)
(* ================================================================== *)

Section SessionClaims.
Import Js Json Items Evaluator Scenario Invariant JsMath.
Local Open Scope nat_scope.

(** C1.  The completion routine of the task session runs twice for task 1
    when the button is pressed in the last second and the countdown expires
    while that evaluation is in flight: two calls are suspended for index 0,
    and once both are back there are two records for task 1 and the index
    has moved from 0 to 2. *)
Theorem completion_runs_twice_on_submit_then_expiry :
  exists s1 s2,
    Tasks.run_events Tasks.initial submit_then_expire = Some s1
    /\ Tasks.assessmentStage s1 = Tasks.tasks
    /\ Tasks.currentTaskIndex s1 = 0
    /\ map Tasks.p_index (Tasks.inflight s1) = [0; 0]
    /\ Tasks.taskResults s1 = []
    /\ Tasks.run_events Tasks.initial double_completion = Some s2
    /\ Tasks.assessmentStage s2 = Tasks.tasks
    /\ map Tasks.taskId (Tasks.taskResults s2) = [1; 1]
    /\ Tasks.currentTaskIndex s2 = 2.
Proof.
  exists (task_state_after submit_then_expire), (task_state_after double_completion).
  vm_compute. repeat split.
Qed.

(** C2.  After that double completion the task session still reaches the
    report with five records, but they are the records of tasks 1, 1, 3, 4
    and 5: the record at the second position is not the one of the second
    task. *)
Theorem records_misaligned_after_double_completion :
  exists s,
    Tasks.run_events Tasks.initial double_completion_to_report = Some s
    /\ Tasks.assessmentStage s = Tasks.report
    /\ length (Tasks.taskResults s) = length EXCEL_TASKS
    /\ map Tasks.taskId (Tasks.taskResults s) = [1; 1; 3; 4; 5]
    /\ map Items.id EXCEL_TASKS = [1; 2; 3; 4; 5].
Proof.
  exists (task_state_after double_completion_to_report).
  vm_compute. repeat split.
Qed.





(** C6.  In the task session a paste into the formula bar, which is shown
    while the stage is [tasks], records no flag: the step is taken and the
    flag list is what it was. *)
Theorem formula_bar_paste_is_not_flagged :
  forall now s,
    Tasks.enabled s (Tasks.Paste Tasks.FormulaBar) = true ->
    Tasks.assessmentStage s = Tasks.tasks
    /\ exists s',
         Tasks.step now s (Tasks.Paste Tasks.FormulaBar) = Some s'
         /\ Tasks.cheatingFlags s' = Tasks.cheatingFlags s.
Proof.
  intros now s En. split.
  - unfold Tasks.enabled in En. apply andb_prop in En. destruct En as [_ En].
    apply task_stage_eqb_eq, En.
  - unfold Tasks.step. rewrite En. simpl. eexists. split; [reflexivity|].
    apply timer_effect_flags.
Qed.

Lemma formula_bar_paste_is_not_flagged_witness :
  Tasks.assessmentStage (task_state_after task_start) = Tasks.tasks
  /\ exists s',
       Tasks.step 500 (task_state_after task_start) (Tasks.Paste Tasks.FormulaBar)
       = Some s'
       /\ Tasks.cheatingFlags s' = Tasks.cheatingFlags (task_state_after task_start).
Proof.
  apply (formula_bar_paste_is_not_flagged 500 (task_state_after task_start)).
  vm_compute. reflexivity.
Defined.



Lemma trim_blank text :
  forallb is_trim_space text = true -> trim text = [].
Proof.
  intro H. unfold trim.
  assert (E : trim_start text = []).
  { induction text as [|c text IH]; [reflexivity|].
    simpl in H. apply andb_prop in H. destruct H as [Hc Ht].
    simpl. rewrite Hc. exact (IH Ht). }
  rewrite E. reflexivity.
Qed.

(** C10.  With an answer that is empty or made of white space only,
    [handleSubmitAnswer] returns the state it was called on: nothing is
    suspended on an evaluation, no record is added, index and stage stay.
    The button that calls it is disabled as well. *)
Theorem blank_answer_submission_is_noop :
  forall s,
    forallb is_trim_space (Question.currentAnswer s) = true ->
    Question.handleSubmitAnswer s = Some s
    /\ Question.enabled s Question.ClickSubmit = false.
Proof.
  intros s H. apply trim_blank in H.
  unfold Question.handleSubmitAnswer, Question.enabled. rewrite H. simpl.
  split; [reflexivity | apply andb_false_r].
Qed.

Lemma blank_answer_submission_is_noop_witness :
  Question.handleSubmitAnswer blank_answer_state = Some blank_answer_state
  /\ Question.enabled blank_answer_state Question.ClickSubmit = false.
Proof.
  apply (blank_answer_submission_is_noop blank_answer_state).
  vm_compute. reflexivity.
Defined.

End SessionClaims.

(* ================================================================== *)
(** ** Further properties of the question session *)
(* ================================================================== *)

Section QuestionSessionProperties.
Import Js Items Evaluator Scenario Invariant Report Question.
Local Open Scope nat_scope.

Lemma trim_start_nil_blank text :
  trim_start text = [] -> forallb is_trim_space text = true.
Proof.
  induction text as [|c text IH]; [reflexivity|]. simpl.
  destruct (is_trim_space c); [exact IH | discriminate].
Qed.

Lemma is_empty_false (text : jsstring) : is_empty text = false -> text <> [].
Proof. destruct text; [discriminate | intros _ E; discriminate]. Qed.

(** What the session keeps about the key, the start time, the recorded
    answers and the suspended call. *)
Lemma question_snapshot_inv s :
  reachable s ->
  (interviewStage s <> welcome -> apiKey s <> [] /\ startTime s <> None)
  /\ (forall a, In a (answers s) -> trim (answer a) <> [])
  /\ (forall p, In p (inflight s) ->
                p_answer p = currentAnswer s /\ trim (p_answer p) <> []).
Proof.
  intro R. induction R as [|now s e s' R IH Hs].
  { simpl. split; [intro E; exfalso; apply E; reflexivity|].
    split; intros ? []. }
  pose proof (QInv_reachable s R) as I.
  destruct IH as (K & A & P).
  unfold step in Hs. destruct (enabled s e) eqn:En; [|discriminate].
  destruct e as [text| |text|[|]| |hidden|i out]; simpl in En.
  - (* ChangeApiKey *)
    inversion Hs; subst s'. apply andb_prop in En. destruct En as [Ew _].
    apply stage_eqb_eq in Ew.
    split; [intro E; simpl in E; congruence | split; assumption].
  - (* ClickStart *)
    inversion Hs; subst s'. unfold startAssessment.
    destruct (is_empty (apiKey s)) eqn:Ek;
      [split; [exact K | split; assumption]|].
    split; [|split; assumption].
    intros _. simpl. split; [apply is_empty_false, Ek | discriminate].
  - (* ChangeAnswer *)
    inversion Hs; subst s'. apply andb_prop in En. destruct En as [_ El].
    apply negb_true_iff in El.
    destruct (inv_pending s I) as [E|(p & _ & _ & Hl & _)]; [|congruence].
    split; [exact K | split; [exact A|]].
    simpl. rewrite E. intros p [].
  - inversion Hs; subst s'. split; [exact K | split; assumption].
  - inversion Hs; subst s'. split; [exact K | split; assumption].
  - (* ClickSubmit *)
    apply andb_prop in En. destruct En as [Es Eg]. apply stage_eqb_eq in Es.
    apply negb_true_iff in Eg. apply orb_false_elim in Eg. destruct Eg as [Et El].
    unfold handleSubmitAnswer in Hs. rewrite Et in Hs.
    destruct (inv_pending s I) as [E|(p & _ & _ & Hl & _)]; [|congruence].
    destruct (evaluateAnswer _ _ _) as [r|request resume] eqn:Ev.
    + apply evaluateAnswer_ret in Ev.
      destruct K as [K _]; [rewrite Es; discriminate | contradiction].
    + inversion Hs; subst s'. split; [exact K | split; [exact A|]].
      simpl. rewrite E. simpl. intros p [<-|[]]. simpl.
      split; [reflexivity | apply is_empty_false, Et].
  - (* VisibilityChange *)
    inversion Hs; subst s'. unfold handleVisibilityChange.
    destruct (hidden && _); split; try exact K; split; assumption.
  - (* FetchSettled *)
    unfold settle in Hs.
    destruct (nth_error (inflight s) i) as [p|] eqn:Ep; [|discriminate].
    destruct (typed (p_resume p out)) as [ev|]; [|discriminate].
    inversion Hs; subst s'. clear Hs.
    assert (Hin : In p (inflight s)) by (eapply nth_error_In; eassumption).
    destruct (inv_pending s I) as [E|(p' & E & Hst & _)];
      [rewrite E in Hin; destruct Hin|].
    assert (Hrem : remove_nth i (inflight s) = []).
    { rewrite E in Ep |- *. destruct i as [|[|i]]; try discriminate. reflexivity. }
    rewrite Hrem.
    assert (Hk : apiKey s <> [] /\ startTime s <> None).
    { apply K. rewrite Hst. discriminate. }
    destruct (P p Hin) as [_ Hb].
    unfold after_evaluation.
    destruct (p_index p <? length EXCEL_QUESTIONS - 1); simpl;
      (split; [intros _; exact Hk|]);
      (split; [|intros q []]);
      intros a Ha; apply in_app_or in Ha;
      (destruct Ha as [Ha|[<-|[]]]; [apply A, Ha | exact Hb]).
Qed.

(** X1.  Outside the welcome stage the question session has a key and a
    start time: every evaluation it asks for goes to the network, never
    through the missing-key return, and the report has a start time to
    measure from. *)
Theorem question_session_needs_key :
  forall s question answer,
    reachable s ->
    interviewStage s <> welcome ->
    apiKey s <> []
    /\ startTime s <> None
    /\ network_calls (evaluateAnswer (apiKey s) question answer) = 1.
Proof.
  intros s question answer R Hs.
  destruct (question_snapshot_inv s R) as (K & _ & _).
  destruct (K Hs) as [Hk Ht]. repeat split; auto.
  destruct (apiKey s); [contradiction | reflexivity].
Qed.

Lemma question_session_needs_key_witness :
  apiKey (question_state_after question_submitted) <> []
  /\ startTime (question_state_after question_submitted) <> None
  /\ network_calls (evaluateAnswer (apiKey (question_state_after question_submitted))
                      [] []) = 1.
Proof.
  apply (question_session_needs_key (question_state_after question_submitted)).
  - apply (run_events_reachable question_submitted initial);
      [constructor | vm_compute; reflexivity].
  - vm_compute. discriminate.
Defined.

(** X2.  A recorded answer is never blank: whatever the order of events, no
    record holds a text that [trim] reduces to the empty string. *)
Theorem recorded_answers_are_not_blank :
  forall s a, reachable s -> In a (answers s) -> trim (answer a) <> [].
Proof.
  intros s a R H. destruct (question_snapshot_inv s R) as (_ & A & _).
  exact (A a H).
Qed.

Lemma recorded_answers_are_not_blank_witness :
  trim (answer (first_answer (question_state_after question_finished))) <> [].
Proof.
  apply (recorded_answers_are_not_blank
           (question_state_after question_finished)).
  - apply (run_events_reachable question_finished initial);
      [constructor | vm_compute; reflexivity].
  - vm_compute. left. reflexivity.
Defined.

(** X3.  While an evaluation is in flight the question form is frozen: the
    loading flag is set, there is no second suspended call, and the
    suspended call holds the text still shown in the field and the index
    still shown on the screen. *)
Theorem question_form_frozen_in_flight :
  forall s p,
    reachable s ->
    In p (inflight s) ->
    inflight s = [p]
    /\ isLoading s = true
    /\ interviewStage s = interview
    /\ p_answer p = currentAnswer s
    /\ p_index p = currentQuestionIndex s
    /\ enabled s ClickSubmit = false
    /\ (forall text, enabled s (ChangeAnswer text) = false).
Proof.
  intros s p R H. pose proof (QInv_reachable s R) as I.
  destruct (question_snapshot_inv s R) as (_ & _ & P).
  destruct (inv_pending s I) as [E|(p' & E & Hst & Hl & Hi & _)];
    [rewrite E in H; destruct H|].
  rewrite E in H. destruct H as [<-|[]].
  destruct (P p') as [Ha _]; [rewrite E; left; reflexivity|].
  repeat split; auto.
  - simpl. rewrite Hl, orb_true_r. apply andb_false_r.
  - intro text. simpl. rewrite Hl. apply andb_false_r.
Qed.

Lemma question_form_frozen_in_flight_witness :
  inflight (question_state_after question_submitted)
  = [first_question_call (question_state_after question_submitted)]
  /\ isLoading (question_state_after question_submitted) = true
  /\ interviewStage (question_state_after question_submitted) = interview
  /\ p_answer (first_question_call (question_state_after question_submitted))
     = currentAnswer (question_state_after question_submitted)
  /\ p_index (first_question_call (question_state_after question_submitted))
     = currentQuestionIndex (question_state_after question_submitted)
  /\ enabled (question_state_after question_submitted) ClickSubmit = false
  /\ (forall text,
        enabled (question_state_after question_submitted) (ChangeAnswer text)
        = false).
Proof.
  apply (question_form_frozen_in_flight
           (question_state_after question_submitted)).
  - apply (run_events_reachable question_submitted initial);
      [constructor | vm_compute; reflexivity].
  - vm_compute. left. reflexivity.
Defined.

End QuestionSessionProperties.

Section QuestionOrderProperties.
Import Js Items Evaluator Scenario Invariant Report Question.
Local Open Scope nat_scope.

(** X4.  The report of the question session is final: from a state in the
    report stage every event that can still be delivered leaves the whole
    state as it is. *)
Theorem question_report_is_final :
  forall now s e s',
    reachable s ->
    interviewStage s = report ->
    step now s e = Some s' ->
    s' = s.
Proof.
  intros now s e s' R Hr H. pose proof (QInv_reachable s R) as I.
  destruct (inv_report s I Hr) as [_ Hn].
  unfold step in H. destruct (enabled s e) eqn:En; [|discriminate].
  destruct e as [text| |text|[|]| |hidden|i out]; simpl in En;
    rewrite ?Hr, ?Hn in En; simpl in En; try discriminate.
  inversion H. unfold handleVisibilityChange. rewrite Hr.
  rewrite andb_false_r. reflexivity.
Qed.

Lemma question_report_is_final_witness :
  step 9000 (question_state_after question_finished) (VisibilityChange true)
  = Some (question_state_after question_finished).
Proof.
  destruct (step 9000 (question_state_after question_finished) (VisibilityChange true))
    as [s'|] eqn:E; [|vm_compute in E; discriminate].
  f_equal.
  apply (question_report_is_final 9000 (question_state_after question_finished)
           (VisibilityChange true) s'); [| |exact E].
  - apply (run_events_reachable question_finished initial);
      [constructor | vm_compute; reflexivity].
  - vm_compute. reflexivity.
Defined.

(** X5.  The question session only moves forward: a step never takes the
    stage back (welcome, interview, report) and moves the question index by
    nothing or by one. *)
Theorem question_session_only_advances :
  forall now s e s',
    step now s e = Some s' ->
    question_stage_rank (interviewStage s) <= question_stage_rank (interviewStage s')
    /\ currentQuestionIndex s <= currentQuestionIndex s'
    /\ currentQuestionIndex s' <= S (currentQuestionIndex s).
Proof.
  intros now s e s' H.
  assert (After : forall p ev s0,
             question_stage_rank (interviewStage s0)
             <= question_stage_rank (interviewStage (after_evaluation p ev s0))
             /\ currentQuestionIndex s0 <= currentQuestionIndex (after_evaluation p ev s0)
             /\ currentQuestionIndex (after_evaluation p ev s0)
                <= S (currentQuestionIndex s0)).
  { intros p ev s0. unfold after_evaluation.
    destruct (p_index p <? length EXCEL_QUESTIONS - 1); simpl;
      repeat split; try lia.
    destruct (interviewStage s0); simpl; lia. }
  unfold step in H. destruct (enabled s e) eqn:En; [|discriminate].
  destruct e as [text| |text|[|]| |hidden|i out]; simpl in En;
    try (inversion H; subst s'; simpl; repeat split; lia).
  - inversion H; subst s'. apply andb_prop in En. destruct En as [Ew _].
    apply stage_eqb_eq in Ew. unfold startAssessment.
    destruct (is_empty (apiKey s)); simpl; rewrite ?Ew; simpl; repeat split; lia.
  - unfold handleSubmitAnswer in H.
    destruct (is_empty (trim (currentAnswer s)));
      [inversion H; subst s'; repeat split; lia|].
    destruct (evaluateAnswer _ _ _) as [r|request resume].
    + destruct (typed r) as [ev|]; [|discriminate]. inversion H; subst s'.
      exact (After _ ev (set_isLoading true s)).
    + inversion H; subst s'. simpl. repeat split; lia.
  - inversion H; subst s'. unfold handleVisibilityChange.
    destruct (hidden && _); simpl; repeat split; lia.
  - unfold settle in H.
    destruct (nth_error (inflight s) i) as [p|]; [|discriminate].
    destruct (typed (p_resume p out)) as [ev|]; [|discriminate].
    inversion H; subst s'.
    exact (After p ev (set_inflight (remove_nth i (inflight s)) s)).
Qed.

Lemma question_session_only_advances_witness :
  question_stage_rank (interviewStage (question_state_after question_submitted))
  <= question_stage_rank
       (interviewStage
          (question_state_after (question_submitted ++ [(9%Z, FetchSettled 0 good_reply)])))
  /\ currentQuestionIndex (question_state_after question_submitted)
     <= currentQuestionIndex
          (question_state_after (question_submitted ++ [(9%Z, FetchSettled 0 good_reply)]))
  /\ currentQuestionIndex
       (question_state_after (question_submitted ++ [(9%Z, FetchSettled 0 good_reply)]))
     <= S (currentQuestionIndex (question_state_after question_submitted)).
Proof.
  apply (question_session_only_advances 9
           (question_state_after question_submitted) (FetchSettled 0 good_reply)).
  vm_compute. reflexivity.
Defined.

(** X6.  While a question is shown the progress panel has one row per
    question: the rows of the answers given, the current row and the pending
    rows add up to the number of questions, and the answers given are as
    many as the index says. *)
Theorem question_progress_panel_is_complete :
  forall s,
    reachable s ->
    interviewStage s = interview ->
    progress_rows s = length EXCEL_QUESTIONS
    /\ length (answers s) = currentQuestionIndex s
    /\ currentQuestionIndex s < length EXCEL_QUESTIONS.
Proof.
  intros s R Hs. pose proof (QInv_reachable s R) as I.
  destruct (inv_interview s I Hs) as (Hl & Hlt & _).
  unfold progress_rows. rewrite questions_count in *. repeat split; lia.
Qed.

Lemma question_progress_panel_is_complete_witness :
  progress_rows (question_state_after question_submitted) = length EXCEL_QUESTIONS
  /\ length (answers (question_state_after question_submitted))
     = currentQuestionIndex (question_state_after question_submitted)
  /\ currentQuestionIndex (question_state_after question_submitted)
     < length EXCEL_QUESTIONS.
Proof.
  apply (question_progress_panel_is_complete (question_state_after question_submitted)).
  - apply (run_events_reachable question_submitted initial);
      [constructor | vm_compute; reflexivity].
  - vm_compute. reflexivity.
Defined.

End QuestionOrderProperties.

(* ================================================================== *)
(** ** The counts of the integrity report *)
(* ================================================================== *)

Section FlagCounts.
Import Js Items Evaluator Scenario Invariant Report.
Local Open Scope nat_scope.

Lemma count_flags_app t a b :
  count_flags t (a ++ b) = count_flags t a + count_flags t b.
Proof. unfold count_flags. rewrite filter_app, length_app. reflexivity. Qed.

Lemma count_flags_total flags :
  count_flags paste flags + count_flags tab_switch flags = length flags.
Proof.
  unfold count_flags. induction flags as [|[[|] t] flags IH]; simpl; lia.
Qed.

Lemma question_counts_run trace :
  forall s s',
    Question.run_events s trace = Some s' ->
    count_flags paste (Question.cheatingFlags s')
    = count_flags paste (Question.cheatingFlags s)
      + length (filter is_question_paste trace)
    /\ count_flags tab_switch (Question.cheatingFlags s')
       <= count_flags tab_switch (Question.cheatingFlags s)
          + length (filter is_question_hidden trace).
Proof.
  induction trace as [|[now e] trace IH]; intros s s' H; simpl in H.
  - inversion H; subst. simpl. split; lia.
  - destruct (Question.step now s e) as [s1|] eqn:E; [|discriminate].
    destruct (IH s1 s' H) as [P T].
    rewrite (question_flags_step now s e s1 E) in P, T.
    rewrite count_flags_app in P, T.
    unfold count_flags in *.
    destruct e as [text| |text|[|]| |[|]|i out]; simpl in P, T |- *;
      try (split; lia).
    destruct (Question.stage_eqb _ _); simpl in P, T; split; lia.
Qed.

(** X7.  The integrity report of the question session counts what happened:
    the paste count is the number of paste events delivered to the answer
    field, the tab-switch count is at most the number of times the page was
    hidden, and the two counts together are all the flags. *)
Theorem question_integrity_counts :
  forall trace s,
    Question.run_events Question.initial trace = Some s ->
    count_flags paste (Question.cheatingFlags s)
    = length (filter is_question_paste trace)
    /\ count_flags tab_switch (Question.cheatingFlags s)
       <= length (filter is_question_hidden trace)
    /\ count_flags paste (Question.cheatingFlags s)
       + count_flags tab_switch (Question.cheatingFlags s)
       = length (Question.cheatingFlags s).
Proof.
  intros trace s H. destruct (question_counts_run trace _ _ H) as [P T].
  simpl in P, T. repeat split; auto. apply count_flags_total.
Qed.

Lemma question_integrity_counts_witness :
  count_flags paste
    (Question.cheatingFlags
       (question_state_after
          (question_submitted
           ++ [(5%Z, Question.VisibilityChange true);
               (6%Z, Question.FetchSettled 0 good_reply);
               (7%Z, Question.Paste Question.AnswerField)]))) = 1
  /\ count_flags tab_switch
       (Question.cheatingFlags
          (question_state_after
             (question_submitted
              ++ [(5%Z, Question.VisibilityChange true);
                  (6%Z, Question.FetchSettled 0 good_reply);
                  (7%Z, Question.Paste Question.AnswerField)]))) <= 1.
Proof.
  destruct (question_integrity_counts
              (question_submitted
               ++ [(5%Z, Question.VisibilityChange true);
                   (6%Z, Question.FetchSettled 0 good_reply);
                   (7%Z, Question.Paste Question.AnswerField)])
              (question_state_after
                 (question_submitted
                  ++ [(5%Z, Question.VisibilityChange true);
                      (6%Z, Question.FetchSettled 0 good_reply);
                      (7%Z, Question.Paste Question.AnswerField)])))
    as (P & T & _); [vm_compute; reflexivity|].
  split; [exact P | exact T].
Defined.

Lemma task_counts_run trace :
  forall s s',
    Tasks.run_events s trace = Some s' ->
    count_flags paste (Tasks.cheatingFlags s')
    = count_flags paste (Tasks.cheatingFlags s)
      + length (filter is_task_paste trace)
    /\ count_flags tab_switch (Tasks.cheatingFlags s')
       <= count_flags tab_switch (Tasks.cheatingFlags s)
          + length (filter is_task_hidden trace).
Proof.
  induction trace as [|[now e] trace IH]; intros s s' H; simpl in H.
  - inversion H; subst. simpl. split; lia.
  - destruct (Tasks.step now s e) as [s1|] eqn:E; [|discriminate].
    destruct (IH s1 s' H) as [P T].
    rewrite (task_flags_step now s e s1 E) in P, T.
    rewrite count_flags_app in P, T.
    unfold count_flags in *.
    destruct e as [text| |r c old new|[| |]| | |[|]|i out];
      simpl in P, T |- *; try (split; lia).
    destruct (Tasks.stage_eqb _ _); simpl in P, T; split; lia.
Qed.

(** X8.  The integrity report of the task session: the paste count is the
    number of paste events delivered to grid cells (pastes into the formula
    bar are not among them), the tab-switch count is at most the number of
    times the page was hidden, and the two counts together are all the
    flags. *)
Theorem task_integrity_counts :
  forall trace s,
    Tasks.run_events Tasks.initial trace = Some s ->
    count_flags paste (Tasks.cheatingFlags s)
    = length (filter is_task_paste trace)
    /\ count_flags tab_switch (Tasks.cheatingFlags s)
       <= length (filter is_task_hidden trace)
    /\ count_flags paste (Tasks.cheatingFlags s)
       + count_flags tab_switch (Tasks.cheatingFlags s)
       = length (Tasks.cheatingFlags s).
Proof.
  intros trace s H. destruct (task_counts_run trace _ _ H) as [P T].
  simpl in P, T. repeat split; auto. apply count_flags_total.
Qed.

Lemma task_integrity_counts_witness :
  count_flags paste
    (Tasks.cheatingFlags
       (task_state_after
          (task_start
           ++ [(100%Z, Tasks.Paste Tasks.CellInput);
               (200%Z, Tasks.Paste Tasks.FormulaBar);
               (300%Z, Tasks.VisibilityChange true)]))) = 1
  /\ count_flags tab_switch
       (Tasks.cheatingFlags
          (task_state_after
             (task_start
              ++ [(100%Z, Tasks.Paste Tasks.CellInput);
                  (200%Z, Tasks.Paste Tasks.FormulaBar);
                  (300%Z, Tasks.VisibilityChange true)]))) <= 1.
Proof.
  destruct (task_integrity_counts
              (task_start
               ++ [(100%Z, Tasks.Paste Tasks.CellInput);
                   (200%Z, Tasks.Paste Tasks.FormulaBar);
                   (300%Z, Tasks.VisibilityChange true)])
              (task_state_after
                 (task_start
                  ++ [(100%Z, Tasks.Paste Tasks.CellInput);
                      (200%Z, Tasks.Paste Tasks.FormulaBar);
                      (300%Z, Tasks.VisibilityChange true)])))
    as (P & T & _); [vm_compute; reflexivity|].
  split; [exact P | exact T].
Defined.

End FlagCounts.

(* ================================================================== *)
(** ** Further properties of the task session *)
(* ================================================================== *)

Section TaskSessionProperties.
Import Js Items Evaluator Scenario Invariant Report Tasks.
Local Open Scope nat_scope.

Lemma task_of_index i t :
  nth_error EXCEL_TASKS i = Some t ->
  (180 <= timeLimit t <= 420)%Z /\ id t = S i.
Proof.
  destruct i as [|[|[|[|[|i]]]]]; intro H;
    try (inversion H; subst t; simpl; split; [lia | reflexivity]).
  destruct i; discriminate.
Qed.

Lemma after_evaluation_timer now p ev s :
  (0 <= timeRemaining s <= 420)%Z ->
  apiKey s <> [] ->
  taskStartTime s <> None ->
  (0 <= timeRemaining (after_evaluation now p ev s) <= 420)%Z
  /\ apiKey (after_evaluation now p ev s) <> []
  /\ taskStartTime (after_evaluation now p ev s) <> None
  /\ interval (after_evaluation now p ev s) = interval s.
Proof.
  intros B K T. unfold after_evaluation, startNextTask.
  destruct (p_index p <? length EXCEL_TASKS - 1); [|simpl; auto].
  destruct (nth_error EXCEL_TASKS (p_index p + 1)) as [t|] eqn:E; simpl; auto.
  destruct (task_of_index _ _ E) as [L _].
  repeat split; auto; try lia. discriminate.
Qed.

Lemma handleTaskComplete_timer now env s s1 :
  (0 <= timeRemaining s <= 420)%Z ->
  apiKey s <> [] ->
  taskStartTime s <> None ->
  handleTaskComplete now env s = Some s1 ->
  (0 <= timeRemaining s1 <= 420)%Z
  /\ apiKey s1 <> []
  /\ taskStartTime s1 <> None
  /\ interval s1 = interval s.
Proof.
  intros B K T H. unfold handleTaskComplete in H.
  destruct (r_start env); [|inversion H; subst; auto].
  destruct (nth_error EXCEL_TASKS (r_index env));
    [|inversion H; subst; simpl; auto].
  destruct (evaluateTask _ _ _) as [r|request resume].
  - destruct (typed r) as [ev|]; [|discriminate]. inversion H; subst s1.
    apply (after_evaluation_timer now _ ev (set_isLoading true s)); assumption.
  - inversion H; subst s1. simpl. auto.
Qed.

(** What the task session keeps about the countdown, the key and the
    callback of the interval. *)
Lemma task_timer_inv s :
  reachable s ->
  (0 <= timeRemaining s <= 420)%Z
  /\ (assessmentStage s <> welcome -> apiKey s <> [] /\ taskStartTime s <> None)
  /\ (forall env, interval s = Some env ->
                  r_start env <> None /\ r_apiKey env <> [])
  /\ (interval s <> None <->
      assessmentStage s = tasks /\ (0 < timeRemaining s)%Z).
Proof.
  intro R. induction R as [|now s e s' R IH Hs].
  { simpl. split; [lia|]. split; [intro E; exfalso; apply E; reflexivity|].
    split; [intros env E; discriminate|].
    split; [intro E; exfalso; apply E; reflexivity | intros [E _]; discriminate]. }
  pose proof (TCount_reachable s R) as C.
  destruct IH as (B & K & Cl & F).
  apply step_handle in Hs. destruct Hs as (En & s1 & H & ->).
  assert (Pre : (0 <= timeRemaining s1 <= 420)%Z
                /\ (assessmentStage s1 <> welcome ->
                    apiKey s1 <> [] /\ taskStartTime s1 <> None)
                /\ interval s1 = interval s).
  { unfold enabled in En. apply andb_prop in En. destruct En as [_ En].
    destruct e as [text| |r c old new|[| |]| | |hidden|i out]; simpl in H.
    - inversion H; subst s1. apply andb_prop in En. destruct En as [Ew _].
      apply task_stage_eqb_eq in Ew. simpl.
      split; [exact B | split; [intro E; congruence | reflexivity]].
    - inversion H; subst s1. unfold startAssessment.
      destruct (is_empty (apiKey s)) eqn:Ek; simpl; [auto|].
      split; [lia|]. split; [|reflexivity].
      intros _. split; [destruct (apiKey s); [discriminate | discriminate] | discriminate].
    - inversion H; subst s1. simpl. auto.
    - inversion H; subst s1. auto.
    - inversion H; subst s1. simpl. auto.
    - inversion H; subst s1. auto.
    - apply andb_prop in En. destruct En as [Es _]. apply task_stage_eqb_eq in Es.
      destruct K as [Kk Kt]; [rewrite Es; discriminate|].
      destruct (handleTaskComplete_timer now (render s) s s1 B Kk Kt H)
        as (B1 & K1 & T1 & I1).
      auto.
    - destruct (interval s) as [env|] eqn:Ei; [|discriminate].
      assert (Hw : assessmentStage s <> welcome).
      { intro E. destruct (tc_welcome s C E) as (_ & _ & _ & T). congruence. }
      destruct (K Hw) as [Kk Kt].
      unfold tick in H. destruct (Z.leb_spec (timeRemaining s) 1).
      + assert (B0 : (0 <= timeRemaining (set_timeRemaining 0 s) <= 420)%Z)
          by (simpl; lia).
        destruct (handleTaskComplete_timer now env (set_timeRemaining 0 s) s1
                    B0 Kk Kt H) as (B1 & K1 & T1 & I1).
        simpl in I1. rewrite I1, Ei. auto.
      + inversion H; subst s1. simpl. rewrite Ei.
        split; [lia | split; [exact K | reflexivity]].
    - inversion H; subst s1. unfold handleVisibilityChange.
      destruct (hidden && _); simpl; auto.
    - unfold settle in H.
      destruct (nth_error (inflight s) i) as [p|] eqn:Ep; [|discriminate].
      destruct (typed (p_resume p out)) as [ev|]; [|discriminate].
      inversion H; subst s1.
      assert (Hw : assessmentStage s <> welcome).
      { intro E. destruct (tc_welcome s C E) as (_ & _ & F0 & _).
        rewrite F0 in Ep. destruct i; discriminate. }
      destruct (K Hw) as [Kk Kt].
      destruct (after_evaluation_timer now p ev
                  (set_inflight (remove_nth i (inflight s)) s) B Kk Kt)
        as (B1 & K1 & T1 & I1).
      auto. }
  destruct Pre as (B1 & K1 & I1).
  unfold timer_effect.
  destruct (stage_eqb (assessmentStage s) (assessmentStage s1)
            && (timeRemaining s =? timeRemaining s1)%Z) eqn:Same.
  - apply andb_prop in Same. destruct Same as [Es Et].
    apply task_stage_eqb_eq in Es. apply Z.eqb_eq in Et.
    rewrite I1, <- Es, <- Et.
    split; [rewrite Et; exact B1|]. split; [rewrite Es; exact K1|].
    split; [exact Cl | exact F].
  - simpl. split; [exact B1|]. split; [exact K1|].
    destruct (stage_eqb (assessmentStage s1) tasks && (0 <? timeRemaining s1)%Z)
      eqn:On.
    + apply andb_prop in On. destruct On as [Es Et].
      apply task_stage_eqb_eq in Es. apply Z.ltb_lt in Et.
      split.
      * intros env E. inversion E. simpl.
        destruct K1 as [Kk Kt]; [rewrite Es; discriminate|]. split; assumption.
      * split; [intros _; auto | intros _; discriminate].
    + split; [intros env E; discriminate|].
      split; [intro E; exfalso; apply E; reflexivity|].
      intros [Es Et]. rewrite Es in On. simpl in On.
      apply Z.ltb_lt in Et. rewrite Et in On. discriminate.
Qed.

(** X9.  The countdown stays between 0 and the longest time limit (420
    seconds), and the interval is installed exactly while a task is shown
    and time remains. *)
Theorem countdown_is_bounded_and_runs_while_time_remains :
  forall s,
    reachable s ->
    (0 <= timeRemaining s <= 420)%Z
    /\ (enabled s Tick = true <->
        renders s = true /\ assessmentStage s = tasks /\ (0 < timeRemaining s)%Z).
Proof.
  intros s R. destruct (task_timer_inv s R) as (B & _ & _ & F).
  split; [exact B|]. unfold enabled. split.
  - intro H. apply andb_prop in H. destruct H as [Hr Hi].
    split; [exact Hr|]. apply F. destruct (interval s); [discriminate | discriminate].
  - intros (Hr & Hs & Ht). rewrite Hr. simpl.
    destruct (interval s) eqn:E; [reflexivity|].
    exfalso. destruct F as [_ F]. apply (F (conj Hs Ht)). reflexivity.
Qed.

Lemma countdown_is_bounded_and_runs_while_time_remains_witness :
  (0 <= timeRemaining (task_state_after last_second) <= 420)%Z
  /\ (enabled (task_state_after last_second) Tick = true <->
      renders (task_state_after last_second) = true
      /\ assessmentStage (task_state_after last_second) = tasks
      /\ (0 < timeRemaining (task_state_after last_second))%Z).
Proof.
  apply (countdown_is_bounded_and_runs_while_time_remains (task_state_after last_second)).
  apply (task_run_events_reachable last_second initial);
    [constructor | vm_compute; reflexivity].
Defined.

(** X10.  Outside the welcome stage the task session has a key and a task
    start time, and so has every render the interval closed over: the
    [if (!taskStartTime) return] of [handleTaskComplete] never fires, neither
    from the button nor from the countdown, and no evaluation takes the
    missing-key return. *)
Theorem task_session_has_key_and_start :
  forall s,
    reachable s ->
    assessmentStage s <> welcome ->
    apiKey s <> []
    /\ taskStartTime s <> None
    /\ r_start (render s) <> None
    /\ (forall env, interval s = Some env ->
                    r_start env <> None /\ r_apiKey env <> []).
Proof.
  intros s R Hs. destruct (task_timer_inv s R) as (_ & K & Cl & _).
  destruct (K Hs) as [Kk Kt]. repeat split; auto; apply (Cl env H).
Qed.

Lemma task_session_has_key_and_start_witness :
  apiKey (task_state_after last_second) <> []
  /\ taskStartTime (task_state_after last_second) <> None
  /\ r_start (render (task_state_after last_second)) <> None
  /\ (forall env, interval (task_state_after last_second) = Some env ->
                  r_start env <> None /\ r_apiKey env <> []).
Proof.
  apply (task_session_has_key_and_start (task_state_after last_second)).
  - apply (task_run_events_reachable last_second initial);
      [constructor | vm_compute; reflexivity].
  - vm_compute. discriminate.
Defined.

End TaskSessionProperties.

Section CountdownProperties.
Import Js Items Evaluator Scenario Invariant Report Tasks.
Local Open Scope nat_scope.





End CountdownProperties.

Section TaskReportProperties.
Import Js Items Evaluator Scenario Invariant Report Tasks.
Local Open Scope nat_scope.

Lemma handleTaskComplete_origin now env s s1 :
  (forall p, In p (inflight s) ->
             nth_error EXCEL_TASKS (p_index p) = Some (p_task p)) ->
  (forall r, In r (taskResults s) ->
             exists i t, nth_error EXCEL_TASKS i = Some t
                         /\ taskId r = id t /\ task r = description t) ->
  handleTaskComplete now env s = Some s1 ->
  (forall p, In p (inflight s1) ->
             nth_error EXCEL_TASKS (p_index p) = Some (p_task p))
  /\ (forall r, In r (taskResults s1) ->
                exists i t, nth_error EXCEL_TASKS i = Some t
                            /\ taskId r = id t /\ task r = description t).
Proof.
  intros P Q H. unfold handleTaskComplete in H.
  destruct (r_start env); [|inversion H; subst; auto].
  destruct (nth_error EXCEL_TASKS (r_index env)) as [t|] eqn:Et;
    [|inversion H; subst; simpl; auto].
  destruct (evaluateTask _ _ _) as [r|request resume].
  - destruct (typed r) as [ev|]; [|discriminate]. inversion H; subst s1.
    split.
    + intros p. rewrite after_evaluation_inflight. simpl. apply P.
    + intros r0. rewrite after_evaluation_results. simpl. intro I.
      apply in_app_or in I. destruct I as [I|[<-|[]]]; [apply Q, I|].
      exists (r_index env), t. simpl. auto.
  - inversion H; subst s1. simpl. split; [|exact Q].
    intros p I. apply in_app_or in I. destruct I as [I|[<-|[]]];
      [apply P, I | exact Et].
Qed.

(** Every suspended call holds the task of its index, and every record was
    written from a task of the list. *)
Lemma task_origin_inv s :
  reachable s ->
  (forall p, In p (inflight s) ->
             nth_error EXCEL_TASKS (p_index p) = Some (p_task p))
  /\ (forall r, In r (taskResults s) ->
                exists i t, nth_error EXCEL_TASKS i = Some t
                            /\ taskId r = id t /\ task r = description t).
Proof.
  intro R. induction R as [|now s e s' R IH Hs].
  { split; intros ? []. }
  destruct IH as [P Q].
  apply step_handle in Hs. destruct Hs as (_ & s1 & H & ->).
  rewrite timer_effect_inflight, timer_effect_results.
  destruct e as [text| |r c old new|[| |]| | |hidden|i out]; simpl in H;
    try (inversion H; subst s1; simpl; auto; fail).
  - inversion H; subst s1. unfold startAssessment.
    destruct (is_empty (apiKey s)); simpl; auto.
  - exact (handleTaskComplete_origin now (render s) s s1 P Q H).
  - destruct (interval s) as [env|]; [|discriminate]. unfold tick in H.
    destruct (timeRemaining s <=? 1)%Z.
    + exact (handleTaskComplete_origin now env (set_timeRemaining 0 s) s1 P Q H).
    + inversion H; subst s1. simpl. auto.
  - inversion H; subst s1. unfold handleVisibilityChange.
    destruct (hidden && _); simpl; auto.
  - unfold settle in H.
    destruct (nth_error (inflight s) i) as [p|] eqn:Ep; [|discriminate].
    destruct (typed (p_resume p out)) as [ev|]; [|discriminate].
    inversion H; subst s1.
    rewrite after_evaluation_inflight, after_evaluation_results. simpl.
    split.
    + intros q I. apply P. eapply In_remove_nth, I.
    + intros r0 I. apply in_app_or in I. destruct I as [I|[<-|[]]]; [apply Q, I|].
      exists (p_index p), (p_task p). simpl.
      split; [apply P; eapply nth_error_In, Ep | auto].
Qed.

(** X12.  The report finds the task of every record: the lookup
    [EXCEL_TASKS[result.taskId - 1]] behind the title gives the task whose
    description the record shows, also for a record written by a second
    completion of the same task. *)
Theorem report_title_belongs_to_the_record :
  forall s r,
    reachable s ->
    In r (taskResults s) ->
    exists t,
      reportTask r = Some t /\ id t = taskId r /\ description t = task r.
Proof.
  intros s r R I.
  destruct (task_origin_inv s R) as [_ Q].
  destruct (Q r I) as (i & t & Ht & Hid & Hd).
  exists t. destruct (task_of_index i t Ht) as [_ Hi].
  unfold reportTask. rewrite Hid, Hi. auto.
Qed.

Lemma report_title_belongs_to_the_record_witness :
  exists t,
    reportTask (hd (mkTaskResult 0 [] false 0 [] [] 0)
                  (taskResults (task_state_after double_completion))) = Some t
    /\ id t = taskId (hd (mkTaskResult 0 [] false 0 [] [] 0)
                        (taskResults (task_state_after double_completion)))
    /\ description t
       = task (hd (mkTaskResult 0 [] false 0 [] [] 0)
                 (taskResults (task_state_after double_completion))).
Proof.
  apply (report_title_belongs_to_the_record (task_state_after double_completion)).
  - apply (task_run_events_reachable double_completion initial);
      [constructor | vm_compute; reflexivity].
  - vm_compute. left. reflexivity.
Defined.

(** X13.  The time line of a record, [Math.round(timeSpent / 60)] minutes
    and [timeSpent % 60] seconds, shows the time spent only when the seconds
    are below 30; from 30 seconds on it shows one minute too many. *)
Theorem time_line_is_a_minute_ahead_from_thirty_seconds :
  forall t,
    (0 <= t)%Z ->
    (60 * minutes_shown t + seconds_shown t
     = t + (if Z.rem t 60 <? 30 then 0 else 60))%Z.
Proof.
  intros t H. unfold minutes_shown, seconds_shown, JsMath.Math_round.
  assert (F : Qfloor ((t # 60) + (1 # 2)) = ((t + 30) / 60)%Z).
  { unfold Qplus, Qfloor. simpl.
    replace (t * 2 + 60)%Z with ((t + 30) * 2)%Z by lia.
    change 120%Z with (60 * 2)%Z.
    apply Z.div_mul_cancel_r; lia. }
  rewrite F. rewrite Z.rem_mod_nonneg by lia.
  destruct (Z.ltb_spec (t mod 60) 30); Z.to_euclidean_division_equations; lia.
Qed.

Lemma time_line_is_a_minute_ahead_from_thirty_seconds_witness :
  (60 * minutes_shown 45 + seconds_shown 45
   = 45 + (if Z.rem 45 60 <? 30 then 0 else 60))%Z.
Proof.
  apply (time_line_is_a_minute_ahead_from_thirty_seconds 45). lia.
Defined.

(** X14.  The task session only moves forward: a step never takes the stage
    back (welcome, tasks, report), moves the task index by nothing or by
    one, and leaves every record written so far as it is, adding at most
    one. *)
Theorem task_session_only_advances :
  forall now s e s',
    step now s e = Some s' ->
    task_stage_rank (assessmentStage s) <= task_stage_rank (assessmentStage s')
    /\ currentTaskIndex s <= currentTaskIndex s'
    /\ currentTaskIndex s' <= S (currentTaskIndex s)
    /\ exists more, taskResults s' = taskResults s ++ more /\ length more <= 1.
Proof.
  intros now s e s' H.
  assert (After : forall p ev s0,
             task_stage_rank (assessmentStage s0)
             <= task_stage_rank (assessmentStage (after_evaluation now p ev s0))
             /\ currentTaskIndex s0 <= currentTaskIndex (after_evaluation now p ev s0)
             /\ currentTaskIndex (after_evaluation now p ev s0)
                <= S (currentTaskIndex s0)
             /\ exists more,
                 taskResults (after_evaluation now p ev s0)
                 = taskResults s0 ++ more /\ length more <= 1).
  { intros p ev s0.
    destruct (after_evaluation_cases now p ev s0) as [(_ & -> & ->)|(_ & -> & ->)];
      (split; [destruct (assessmentStage s0); simpl; lia|]);
      (split; [lia|]); (split; [lia|]);
      rewrite after_evaluation_results;
      (eexists; split; [reflexivity | simpl; lia]). }
  assert (Same : forall s0,
             assessmentStage s0 = assessmentStage s ->
             currentTaskIndex s0 = currentTaskIndex s ->
             taskResults s0 = taskResults s ->
             task_stage_rank (assessmentStage s)
             <= task_stage_rank (assessmentStage s0)
             /\ currentTaskIndex s <= currentTaskIndex s0
             /\ currentTaskIndex s0 <= S (currentTaskIndex s)
             /\ exists more, taskResults s0 = taskResults s ++ more
                             /\ length more <= 1).
  { intros s0 -> -> ->. repeat split; try lia.
    exists []. rewrite app_nil_r. split; [reflexivity | simpl; lia]. }
  assert (Complete : forall env s0 s1,
             assessmentStage s0 = assessmentStage s ->
             currentTaskIndex s0 = currentTaskIndex s ->
             taskResults s0 = taskResults s ->
             handleTaskComplete now env s0 = Some s1 ->
             task_stage_rank (assessmentStage s)
             <= task_stage_rank (assessmentStage s1)
             /\ currentTaskIndex s <= currentTaskIndex s1
             /\ currentTaskIndex s1 <= S (currentTaskIndex s)
             /\ exists more, taskResults s1 = taskResults s ++ more
                             /\ length more <= 1).
  { intros env s0 s1 Es Ei Er Hc. unfold handleTaskComplete in Hc.
    destruct (r_start env); [|inversion Hc; subst; apply Same; assumption].
    destruct (nth_error EXCEL_TASKS (r_index env));
      [|inversion Hc; subst; apply Same; assumption].
    destruct (evaluateTask _ _ _) as [r|request resume].
    - destruct (typed r) as [ev|]; [|discriminate]. inversion Hc; subst s1.
      rewrite <- Es, <- Ei, <- Er.
      exact (After _ ev (set_isLoading true s0)).
    - inversion Hc; subst s1. apply Same; assumption. }
  apply step_handle in H. destruct H as (En & s1 & H & ->).
  rewrite timer_effect_stage, timer_effect_index, timer_effect_results.
  unfold enabled in En. apply andb_prop in En. destruct En as [_ En].
  destruct e as [text| |r c old new|[| |]| | |hidden|i out]; simpl in H;
    try (inversion H; subst s1; apply Same; reflexivity).
  - inversion H; subst s1. apply andb_prop in En. destruct En as [Ew _].
    apply task_stage_eqb_eq in Ew. unfold startAssessment.
    destruct (is_empty (apiKey s)); [apply Same; reflexivity|].
    simpl. rewrite Ew. simpl. repeat split; try lia.
    exists []. rewrite app_nil_r. split; [reflexivity | simpl; lia].
  - exact (Complete (render s) s s1 eq_refl eq_refl eq_refl H).
  - destruct (interval s) as [env|]; [|discriminate]. unfold tick in H.
    destruct (timeRemaining s <=? 1)%Z.
    + exact (Complete env (set_timeRemaining 0 s) s1 eq_refl eq_refl eq_refl H).
    + inversion H; subst s1. apply Same; reflexivity.
  - inversion H; subst s1. unfold handleVisibilityChange.
    destruct (hidden && _); apply Same; reflexivity.
  - unfold settle in H.
    destruct (nth_error (inflight s) i) as [p|]; [|discriminate].
    destruct (typed (p_resume p out)) as [ev|]; [|discriminate].
    inversion H; subst s1.
    exact (After p ev (set_inflight (remove_nth i (inflight s)) s)).
Qed.

Lemma task_session_only_advances_witness :
  task_stage_rank (assessmentStage (task_state_after task_submitted))
  <= task_stage_rank
       (assessmentStage
          (task_state_after (task_submitted ++ [(800%Z, FetchSettled 0 good_reply)])))
  /\ currentTaskIndex (task_state_after task_submitted)
     <= currentTaskIndex
          (task_state_after (task_submitted ++ [(800%Z, FetchSettled 0 good_reply)]))
  /\ currentTaskIndex
       (task_state_after (task_submitted ++ [(800%Z, FetchSettled 0 good_reply)]))
     <= S (currentTaskIndex (task_state_after task_submitted))
  /\ exists more,
      taskResults
        (task_state_after (task_submitted ++ [(800%Z, FetchSettled 0 good_reply)]))
      = taskResults (task_state_after task_submitted) ++ more
      /\ length more <= 1.
Proof.
  apply (task_session_only_advances 800%Z (task_state_after task_submitted)
           (FetchSettled 0 good_reply)).
  vm_compute. reflexivity.
Defined.

End TaskReportProperties.

Section ClockProperties.
Import Js Items Evaluator Scenario Invariant Report Tasks.
Local Open Scope nat_scope.

Lemma formatTime_digits n :
  n <= 420 ->
  formatTime (Z.of_nat n)
  = [ (48 + N.of_nat (n / 60))%N; 58%N;
      (48 + N.of_nat (n mod 60 / 10))%N; (48 + N.of_nat (n mod 10))%N ].
Proof.
  intro H.
  assert (All : forallb
                  (fun n =>
                     str_eqb (formatTime (Z.of_nat n))
                       [ (48 + N.of_nat (n / 60))%N; 58%N;
                         (48 + N.of_nat (n mod 60 / 10))%N;
                         (48 + N.of_nat (n mod 10))%N ])
                  (seq 0 421) = true) by (vm_compute; reflexivity).
  rewrite forallb_forall in All.
  specialize (All n ltac:(apply in_seq; lia)).
  revert All. generalize (formatTime (Z.of_nat n)).
  generalize [ (48 + N.of_nat (n / 60))%N; 58%N;
               (48 + N.of_nat (n mod 60 / 10))%N; (48 + N.of_nat (n mod 10))%N ].
  intros b a. revert b. induction a as [|x a IH]; intros [|y b] E; simpl in E;
    try discriminate; [reflexivity|].
  apply andb_true_iff in E. destruct E as [E1 E2].
  apply N.eqb_eq in E1. subst y. f_equal. apply IH, E2.
Qed.

(** X15.  The clock of the task screen always reads minute, colon, two
    digits of seconds: in every state of the session [formatTime] of the
    countdown is the digit of the minutes left, a colon, and the tens and
    the units of the seconds left. *)
Theorem clock_shows_minutes_and_two_digit_seconds :
  forall s,
    reachable s ->
    exists n,
      timeRemaining s = Z.of_nat n
      /\ n <= 420
      /\ formatTime (timeRemaining s)
         = [ (48 + N.of_nat (n / 60))%N; 58%N;
             (48 + N.of_nat (n mod 60 / 10))%N; (48 + N.of_nat (n mod 10))%N ].
Proof.
  intros s R. destruct (task_timer_inv s R) as (B & _).
  exists (Z.to_nat (timeRemaining s)).
  assert (E : timeRemaining s = Z.of_nat (Z.to_nat (timeRemaining s)))
    by (rewrite Z2Nat.id; lia).
  split; [exact E|]. split; [lia|].
  rewrite E at 1. apply formatTime_digits. lia.
Qed.

Lemma clock_shows_minutes_and_two_digit_seconds_witness :
  exists n,
    timeRemaining (task_state_after task_start) = Z.of_nat n
    /\ n <= 420
    /\ formatTime (timeRemaining (task_state_after task_start))
       = [ (48 + N.of_nat (n / 60))%N; 58%N;
           (48 + N.of_nat (n mod 60 / 10))%N; (48 + N.of_nat (n mod 10))%N ].
Proof.
  apply (clock_shows_minutes_and_two_digit_seconds (task_state_after task_start)).
  apply (task_run_events_reachable task_start initial);
    [constructor | vm_compute; reflexivity].
Defined.

End ClockProperties.

(* ================================================================== *)
(** ** The grid *)
(* ================================================================== *)

Section SheetFacts.
Import Js Items Evaluator Sheet.
Local Open Scope nat_scope.

Lemma nth_error_array_set_eq {A} (hole v : A) i l :
  nth_error (array_set hole i v l) i = Some v.
Proof.
  revert l. induction i as [|i IH]; intros [|x l]; simpl; auto.
Qed.

Lemma nth_error_array_set_neq {A} (hole v : A) i j l :
  j <> i ->
  nth_error (array_set hole i v l) j
  = if j <? length l then nth_error l j
    else if j <? i then Some hole else None.
Proof.
  revert j l. induction i as [|i IH]; intros [|j] [|x l] H; simpl; try congruence.
  - destruct j; reflexivity.
  - destruct (Nat.ltb_spec j (length l)) as [L|L].
    + change (S j <? S (length l)) with (j <? length l).
      destruct (Nat.ltb_spec j (length l)); [reflexivity | lia].
    + change (S j <? S (length l)) with (j <? length l).
      destruct (Nat.ltb_spec j (length l)); [lia|].
      apply nth_error_None. lia.
  - rewrite IH by congruence. simpl.
    change (S j <? S i) with (j <? i). reflexivity.
  - rewrite IH by congruence.
    change (S j <? S (length l)) with (j <? length l).
    change (S j <? S i) with (j <? i). reflexivity.
Qed.

Lemma length_array_set {A} (hole v : A) i l :
  length (array_set hole i v l) = Nat.max (S i) (length l).
Proof.
  revert l. induction i as [|i IH]; intros [|x l]; simpl; auto;
    rewrite IH; simpl; lia.
Qed.

Lemma nth_error_heap_update_eq a f h :
  nth_error (heap_update a f h) a = option_map f (nth_error h a).
Proof.
  revert h. induction a as [|a IH]; intros [|row h]; simpl; auto.
Qed.

Lemma nth_error_heap_update_neq a b f h :
  b <> a -> nth_error (heap_update a f h) b = nth_error h b.
Proof.
  revert b h. induction a as [|a IH]; intros [|b] [|row h] H; simpl;
    try congruence; auto.
Qed.

Lemma length_heap_update a f h : length (heap_update a f h) = length h.
Proof.
  revert h. induction a as [|a IH]; intros [|row h]; simpl; auto.
Qed.

Lemma nth_error_spread data i :
  nth_error (spread data) i
  = option_map (fun s => match s with Hole => Undefined | _ => s end)
      (nth_error data i).
Proof. unfold spread. apply nth_error_map. Qed.

Lemma spread_ref data i a :
  nth_error (spread data) i = Some (Ref a) <-> nth_error data i = Some (Ref a).
Proof.
  rewrite nth_error_spread.
  destruct (nth_error data i) as [[| |b]|]; simpl; split; congruence.
Qed.

Lemma spread_ref_inv data i a :
  nth_error (spread data) i = Some (Ref a) -> nth_error data i = Some (Ref a).
Proof. apply spread_ref. Qed.

(** The two ways [handleCellEdit] finds its row. *)
Lemma handleCellEdit_cases r c v g :
  (exists a,
      nth_error (spreadsheetData g) r = Some (Ref a)
      /\ handleCellEdit r c v g
         = mkGrid (heap_update a (array_set None c (Some v)) (heap g))
             (spread (spreadsheetData g)) (selectedCell g) (cellFormula g))
  \/ ((forall a, nth_error (spreadsheetData g) r <> Some (Ref a))
      /\ handleCellEdit r c v g
         = mkGrid (heap g ++ [array_set None c (Some v) []])
             (array_set Hole r (Ref (length (heap g)))
                (spread (spreadsheetData g)))
             (selectedCell g) (cellFormula g)).
Proof.
  unfold handleCellEdit.
  assert (New : heap_update (length (heap g)) (array_set None c (Some v))
                  (heap g ++ [[]])
                = heap g ++ [array_set None c (Some v) []]).
  { induction (heap g) as [|row h IH]; simpl; [reflexivity|].
    rewrite IH. reflexivity. }
  destruct (nth_error (spread (spreadsheetData g)) r) as [[| |a]|] eqn:E.
  - right. split; [|rewrite New; reflexivity].
    intros a H. apply (proj2 (spread_ref _ _ _)) in H. congruence.
  - right. split; [|rewrite New; reflexivity].
    intros a H. apply (proj2 (spread_ref _ _ _)) in H. congruence.
  - left. exists a. split; [apply spread_ref_inv, E | reflexivity].
  - right. split; [|rewrite New; reflexivity].
    intros a H. apply (proj2 (spread_ref _ _ _)) in H. congruence.
Qed.

Lemma cell_text_array_set c c' v (row : Row) :
  c' <> c ->
  match nth_error (array_set None c (Some v) row) c' with
  | Some (Some w) => w
  | _ => []
  end
  = match nth_error row c' with
    | Some (Some w) => w
    | _ => @nil N
    end.
Proof.
  intro H. rewrite nth_error_array_set_neq by exact H.
  destruct (Nat.ltb_spec c' (length row)) as [L|L]; [reflexivity|].
  apply nth_error_None in L. rewrite L.
  destruct (c' <? c); reflexivity.
Qed.

Lemma GridInv_handleCellEdit r c v g :
  GridInv g -> GridInv (handleCellEdit r c v g).
Proof.
  intros [V D S].
  destruct (handleCellEdit_cases r c v g) as [(a & Hr & ->)|(Hr & ->)];
    constructor; simpl; try exact S.
  - intros i b H. rewrite length_heap_update. apply spread_ref_inv in H. eauto.
  - intros i j b Hi Hj. apply spread_ref_inv in Hi. apply spread_ref_inv in Hj. eauto.
  - intros i b H. rewrite length_app. simpl.
    destruct (Nat.eq_dec i r) as [->|N].
    + rewrite nth_error_array_set_eq in H. inversion H. lia.
    + rewrite nth_error_array_set_neq in H by exact N.
      destruct (i <? length (spread (spreadsheetData g))).
      * apply spread_ref_inv in H. apply V in H. lia.
      * destruct (i <? r); discriminate.
  - intros i j b Hi Hj.
    assert (K : forall k, k <> r ->
                nth_error (array_set Hole r (Ref (length (heap g)))
                             (spread (spreadsheetData g))) k = Some (Ref b) ->
                nth_error (spreadsheetData g) k = Some (Ref b)).
    { intros k N H. rewrite nth_error_array_set_neq in H by exact N.
      destruct (k <? length (spread (spreadsheetData g))).
      - apply spread_ref_inv, H.
      - destruct (k <? r); discriminate. }
    destruct (Nat.eq_dec i r) as [->|Ni]; destruct (Nat.eq_dec j r) as [->|Nj];
      auto.
    + rewrite nth_error_array_set_eq in Hi. inversion Hi; subst b.
      apply K in Hj; [|exact Nj]. apply V in Hj. lia.
    + rewrite nth_error_array_set_eq in Hj. inversion Hj; subst b.
      apply K in Hi; [|exact Ni]. apply V in Hi. lia.
    + eauto.
Qed.

Lemma selected_indices_cellName r c :
  r < 15 -> c < 8 -> selected_indices (Tasks.cellName r c) = Some (r, c).
Proof.
  intros Hr Hc.
  assert (All : forallb
                  (fun r =>
                     forallb
                       (fun c =>
                          match selected_indices (Tasks.cellName r c) with
                          | Some (r', c') => Nat.eqb r' r && Nat.eqb c' c
                          | None => false
                          end)
                       (seq 0 8))
                  (seq 0 15) = true) by (vm_compute; reflexivity).
  rewrite forallb_forall in All.
  specialize (All r ltac:(apply in_seq; lia)).
  rewrite forallb_forall in All.
  specialize (All c ltac:(apply in_seq; lia)).
  destruct (selected_indices (Tasks.cellName r c)) as [[r' c']|];
    [|discriminate].
  apply andb_true_iff in All. destruct All as [A B].
  apply Nat.eqb_eq in A. apply Nat.eqb_eq in B. subst. reflexivity.
Qed.

Lemma sample_rows_in_place i a :
  nth_error SAMPLE_DATA i = Some (Ref a) -> a = i /\ i < 9.
Proof.
  intro H.
  do 9 (destruct i as [|i];
        [simpl in H; inversion H; split; [reflexivity | lia]|]).
  simpl in H. destruct i; discriminate.
Qed.

Lemma GridInv_initial : GridInv initial.
Proof.
  constructor.
  - intros i a H. apply sample_rows_in_place in H. simpl. lia.
  - intros i j a Hi Hj. apply sample_rows_in_place in Hi, Hj. lia.
  - exists 0, 0. repeat split; [lia | lia].
Qed.

Lemma GridInv_step g e g' : GridInv g -> step g e = Some g' -> GridInv g'.
Proof.
  intros I H. unfold step in H.
  destruct (enabled e) eqn:En; [|discriminate].
  destruct e as [r c|r c v|text|]; simpl in H.
  - inversion H; subst g'. destruct I as [V D S].
    constructor; simpl; auto.
    simpl in En. apply andb_true_iff in En. destruct En as [A B].
    apply Nat.ltb_lt in A. apply Nat.ltb_lt in B.
    exists r, c. auto.
  - inversion H; subst g'. apply GridInv_handleCellEdit, I.
  - inversion H; subst g'. destruct I as [V D S]. constructor; simpl; auto.
  - unfold formula_Enter in H.
    destruct (selected_indices (selectedCell g)) as [[row col]|]; [|discriminate].
    inversion H; subst g'.
    pose proof (GridInv_handleCellEdit row col (cellFormula g) g I) as [V D S].
    constructor; simpl; auto.
Qed.

Lemma GridInv_reachable g : reachable g -> GridInv g.
Proof.
  induction 1 as [|g e g' R IH H]; [apply GridInv_initial|].
  eapply GridInv_step; eassumption.
Qed.

Lemma grid_run_events_reachable trace :
  forall g g', reachable g -> run_events g trace = Some g' -> reachable g'.
Proof.
  induction trace as [|e trace IH]; intros g g' R H; simpl in H.
  - inversion H; subst; exact R.
  - destruct (step g e) as [g1|] eqn:E; [|discriminate].
    apply (IH g1); [|exact H]. eapply reach_step; eassumption.
Qed.

(** Reading the grid after an edit, through any array [data] that agrees
    with the old one on the rows it holds. *)
Lemma cellValue_handleCellEdit r c v g :
  GridInv g ->
  cellValue (handleCellEdit r c v g) r c = v
  /\ (forall r' c', r' <> r \/ c' <> c ->
        cellValue (handleCellEdit r c v g) r' c' = cellValue g r' c').
Proof.
  intros [V D _]. unfold cellValue, cell_of, row_at.
  destruct (handleCellEdit_cases r c v g) as [(a & Hr & ->)|(Hr & ->)]; simpl.
  - pose proof (V _ _ Hr) as La.
    destruct (nth_error (heap g) a) as [row|] eqn:Ea;
      [|apply nth_error_None in Ea; lia].
    split.
    + rewrite (proj2 (spread_ref _ _ _) Hr), nth_error_heap_update_eq, Ea. simpl.
      rewrite nth_error_array_set_eq. reflexivity.
    + intros r' c' N. destruct (Nat.eq_dec r' r) as [->|Nr].
      * destruct N as [N|N]; [congruence|].
        rewrite (proj2 (spread_ref _ _ _) Hr), Hr, nth_error_heap_update_eq, Ea.
        simpl. apply cell_text_array_set, N.
      * rewrite nth_error_spread.
        destruct (nth_error (spreadsheetData g) r') as [[| |b]|] eqn:Eb; simpl;
          try reflexivity.
        rewrite nth_error_heap_update_neq; [reflexivity|].
        intros ->. apply Nr. exact (D _ _ _ Eb Hr).
  - split.
    + rewrite nth_error_array_set_eq.
      rewrite nth_error_app2 by lia. rewrite Nat.sub_diag. simpl.
      rewrite nth_error_array_set_eq. reflexivity.
    + intros r' c' N. destruct (Nat.eq_dec r' r) as [->|Nr].
      * destruct N as [N|N]; [congruence|].
        rewrite nth_error_array_set_eq.
        rewrite nth_error_app2 by lia. rewrite Nat.sub_diag. simpl.
        rewrite (cell_text_array_set c c' v [] N).
        destruct (nth_error (spreadsheetData g) r) as [[| |b]|] eqn:Eb;
          try (destruct c'; reflexivity).
        exfalso. exact (Hr b eq_refl).
      * rewrite nth_error_array_set_neq by exact Nr.
        destruct (Nat.ltb_spec r' (length (spread (spreadsheetData g)))) as [L|L].
        -- rewrite nth_error_spread.
           destruct (nth_error (spreadsheetData g) r') as [[| |b]|] eqn:Eb; simpl;
             try reflexivity.
           rewrite nth_error_app1 by (eapply V; exact Eb). reflexivity.
        -- unfold spread in L. rewrite length_map in L.
           apply nth_error_None in L. rewrite L.
           destruct (r' <? r); reflexivity.
Qed.

(** The formula bar always finds the cell it writes to. *)
Lemma selected_cell_decodes g :
  GridInv g ->
  exists r c,
    r < 15 /\ c < 8 /\ selectedCell g = Tasks.cellName r c
    /\ formula_Enter g
       = Some (set_cellFormula [] (handleCellEdit r c (cellFormula g) g)).
Proof.
  intros [_ _ (r & c & Hr & Hc & E)]. exists r, c.
  repeat split; try assumption.
  unfold formula_Enter. rewrite E, (selected_indices_cellName r c Hr Hc).
  reflexivity.
Qed.

Lemma sheet_lines_none h data :
  forall i, sheet_lines h i data = None <-> In Undefined data.
Proof.
  induction data as [|[| |a] data IH]; intro i; simpl.
  - split; [discriminate | tauto].
  - destruct (sheet_lines h (S i) data) eqn:E; simpl.
    + split; [discriminate|]. intros [H|H]; [discriminate|].
      apply (IH (S i)) in H. congruence.
    + split; [|reflexivity]. intros _. right. apply (IH (S i)), E.
  - split; [left; reflexivity | reflexivity].
  - destruct (sheet_lines h (S i) data) eqn:E; simpl.
    + split; [discriminate|]. intros [H|H]; [discriminate|].
      apply (IH (S i)) in H. congruence.
    + split; [|reflexivity]. intros _. right. apply (IH (S i)), E.
Qed.

Lemma sheet_text_none h data :
  sheet_text h data = None <-> In Undefined data.
Proof.
  unfold sheet_text. rewrite <- (sheet_lines_none h data 0).
  destruct (sheet_lines h 0 data); simpl; split; congruence.
Qed.

Lemma existsb_is_undefined data :
  existsb is_undefined data = true <-> In Undefined data.
Proof.
  rewrite existsb_exists. split.
  - intros (s & H & U). destruct s; try discriminate. exact H.
  - intro H. exists Undefined. split; [exact H | reflexivity].
Qed.

Lemma evaluateTask_without_undefined h data key taskId actions :
  ~ In Undefined data ->
  Sheet.evaluateTask h data key taskId actions
  = Evaluator.evaluateTask key taskId actions.
Proof.
  intro H. unfold Sheet.evaluateTask, Evaluator.evaluateTask.
  destruct key as [|k key]; [reflexivity|].
  destruct (find (fun t => Nat.eqb (id t) taskId) EXCEL_TASKS); [|reflexivity].
  destruct (sheet_text h data) eqn:E; [reflexivity|].
  apply sheet_text_none in E. contradiction.
Qed.

Lemma evaluateTask_with_undefined h data key taskId actions :
  In Undefined data -> key <> [] -> 1 <= taskId <= 5 ->
  Sheet.evaluateTask h data key taskId actions = Ret error_result.
Proof.
  intros H K T. unfold Sheet.evaluateTask.
  destruct key as [|k key]; [contradiction|].
  apply (proj2 (sheet_text_none h data)) in H. rewrite H.
  destruct taskId as [|[|[|[|[|[|n]]]]]]; try lia; reflexivity.
Qed.

(** The rows of the outer array after an edit. *)
Lemma slots_after_edit r c v g :
  (exists a, nth_error (spreadsheetData (handleCellEdit r c v g)) r
             = Some (Ref a))
  /\ (forall i, i <> r ->
        nth_error (spreadsheetData (handleCellEdit r c v g)) i
        = if i <? length (spreadsheetData g)
          then nth_error (spread (spreadsheetData g)) i
          else if i <? r then Some Hole else None).
Proof.
  destruct (handleCellEdit_cases r c v g) as [(a & Hr & ->)|(Hr & ->)]; simpl.
  - split; [exists a; apply spread_ref, Hr|].
    intros i N. destruct (Nat.ltb_spec i (length (spreadsheetData g))) as [L|L].
    + reflexivity.
    + assert (r < length (spreadsheetData g))
        by (apply nth_error_Some; congruence).
      destruct (Nat.ltb_spec i r); [lia|].
      apply nth_error_None. unfold spread. rewrite length_map. exact L.
  - split; [eexists; apply nth_error_array_set_eq|].
    intros i N. rewrite nth_error_array_set_neq by exact N.
    unfold spread at 1. rewrite length_map. reflexivity.
Qed.

End SheetFacts.

Section SheetProperties.
Import Js Items Evaluator Scenario Sheet.
Local Open Scope nat_scope.

(** X16.  An edit changes one cell: afterwards the grid shows the new text
    in the edited cell and, in every other cell, what it showed before. *)
Theorem edit_changes_one_cell :
  forall g r c v,
    reachable g ->
    cellValue (handleCellEdit r c v g) r c = v
    /\ (forall r' c', r' <> r \/ c' <> c ->
          cellValue (handleCellEdit r c v g) r' c' = cellValue g r' c').
Proof.
  intros g r c v R. apply cellValue_handleCellEdit, GridInv_reachable, R.
Qed.

Lemma edit_changes_one_cell_witness :
  cellValue
    (handleCellEdit 11 5 (lit "=SUM(C2:C9)")
       (grid_after [CellChange 3 2 (lit "250")])) 11 5
  = lit "=SUM(C2:C9)"
  /\ (forall r' c', r' <> 11 \/ c' <> 5 ->
        cellValue
          (handleCellEdit 11 5 (lit "=SUM(C2:C9)")
             (grid_after [CellChange 3 2 (lit "250")])) r' c'
        = cellValue (grid_after [CellChange 3 2 (lit "250")]) r' c').
Proof.
  apply (edit_changes_one_cell (grid_after [CellChange 3 2 (lit "250")])).
  apply (grid_run_events_reachable [CellChange 3 2 (lit "250")] initial);
    [constructor | vm_compute; reflexivity].
Defined.

(** X17.  The formula bar writes to the cell clicked last: after a click on
    a cell, a text typed into the bar and Enter, that cell shows the text,
    the bar is empty and every other cell shows what it showed before. *)
Theorem formula_bar_writes_the_clicked_cell :
  forall g r c text,
    reachable g -> r < 15 -> c < 8 ->
    exists g',
      run_events g [CellClick r c; FormulaChange text; FormulaEnter] = Some g'
      /\ cellValue g' r c = text
      /\ cellFormula g' = []
      /\ (forall r' c', r' <> r \/ c' <> c ->
            cellValue g' r' c' = cellValue g r' c').
Proof.
  intros g r c text R Hr Hc.
  pose proof (GridInv_reachable g R) as I.
  assert (E1 : step g (CellClick r c) = Some (handleCellClick r c g)).
  { unfold step. simpl.
    destruct (Nat.ltb_spec r 15); [|lia]. destruct (Nat.ltb_spec c 8); [|lia].
    reflexivity. }
  set (g1 := set_cellFormula text (handleCellClick r c g)).
  assert (I1 : GridInv g1).
  { apply (GridInv_step (handleCellClick r c g) (FormulaChange text));
      [|reflexivity].
    eapply GridInv_step; eassumption. }
  exists (set_cellFormula [] (handleCellEdit r c text g1)).
  split.
  - cbn [run_events]. rewrite E1.
    change (step (handleCellClick r c g) (FormulaChange text)) with (Some g1).
    cbv beta iota. unfold step. cbn [enabled]. cbv iota.
    unfold formula_Enter.
    change (selectedCell g1) with (Tasks.cellName r c).
    rewrite (selected_indices_cellName r c Hr Hc). reflexivity.
  - destruct (cellValue_handleCellEdit r c text g1 I1) as [A B].
    split; [exact A|]. split; [reflexivity|].
    intros r' c' N. exact (B r' c' N).
Qed.

Lemma formula_bar_writes_the_clicked_cell_witness :
  exists g',
    run_events initial
      [CellClick 9 2; FormulaChange (lit "=AVERAGE(C2:C9)"); FormulaEnter]
    = Some g'
    /\ cellValue g' 9 2 = lit "=AVERAGE(C2:C9)"
    /\ cellFormula g' = []
    /\ (forall r' c', r' <> 9 \/ c' <> 2 ->
          cellValue g' r' c' = cellValue initial r' c').
Proof.
  apply (formula_bar_writes_the_clicked_cell initial 9 2
           (lit "=AVERAGE(C2:C9)")).
  - constructor.
  - lia.
  - lia.
Defined.

(** X18.  Enter in the formula bar straight after a click keeps the cell
    only if it holds a formula: a cell whose text does not start with [=]
    is emptied. *)
Theorem enter_after_click_empties_a_plain_cell :
  forall g r c,
    reachable g -> r < 15 -> c < 8 ->
    exists g',
      run_events g [CellClick r c; FormulaEnter] = Some g'
      /\ cellValue g' r c
         = (if starts_with [61%N] (cellValue g r c) then cellValue g r c
            else []).
Proof.
  intros g r c R Hr Hc.
  pose proof (GridInv_reachable g R) as I.
  assert (E1 : step g (CellClick r c) = Some (handleCellClick r c g)).
  { unfold step. simpl.
    destruct (Nat.ltb_spec r 15); [|lia]. destruct (Nat.ltb_spec c 8); [|lia].
    reflexivity. }
  set (g1 := handleCellClick r c g).
  assert (I1 : GridInv g1) by (eapply GridInv_step; eassumption).
  exists (set_cellFormula [] (handleCellEdit r c (cellFormula g1) g1)).
  split.
  - cbn [run_events]. rewrite E1. fold g1. unfold step. cbn [enabled]. cbv iota.
    unfold formula_Enter.
    change (selectedCell g1) with (Tasks.cellName r c).
    rewrite (selected_indices_cellName r c Hr Hc). reflexivity.
  - destruct (cellValue_handleCellEdit r c (cellFormula g1) g1 I1) as [A _].
    exact A.
Qed.

Lemma enter_after_click_empties_a_plain_cell_witness :
  exists g',
    run_events initial [CellClick 1 2; FormulaEnter] = Some g'
    /\ cellValue g' 1 2
       = (if starts_with [61%N] (cellValue initial 1 2)
          then cellValue initial 1 2 else []).
Proof.
  apply (enter_after_click_empties_a_plain_cell initial 1 2).
  - constructor.
  - lia.
  - lia.
Defined.

(** X19.  The evaluation of a task reads the grid before it sends anything:
    with an [undefined] row in the array the request is never sent and the
    result is the error result; without one the grid plays no part in what
    the adapter does. *)
Theorem undefined_row_replaces_the_request_by_the_error_result :
  forall h data key taskId actions,
    Sheet.evaluateTask h data key taskId actions
    = if existsb is_undefined data
      then match Evaluator.evaluateTask key taskId actions with
           | Ret r => Ret r
           | Fetch _ _ => Ret error_result
           end
      else Evaluator.evaluateTask key taskId actions.
Proof.
  intros h data key taskId actions.
  destruct (existsb is_undefined data) eqn:E.
  - apply existsb_is_undefined in E.
    apply (proj2 (sheet_text_none h data)) in E.
    unfold Sheet.evaluateTask, Evaluator.evaluateTask.
    destruct key as [|k key]; [reflexivity|].
    destruct (find (fun t => Nat.eqb (id t) taskId) EXCEL_TASKS);
      [|reflexivity].
    rewrite E. reflexivity.
  - apply evaluateTask_without_undefined. intro H.
    apply existsb_is_undefined in H. congruence.
Qed.

(** X20.  The rows after an edit: the edited index holds a row; any other
    index is [undefined] exactly if it was [undefined] or a hole before, and
    is a hole exactly if it lies between the old length and the edited
    index. *)
Theorem rows_after_an_edit :
  forall g r c v,
    (exists a, nth_error (spreadsheetData (handleCellEdit r c v g)) r
               = Some (Ref a))
    /\ (forall i, i <> r ->
          (nth_error (spreadsheetData (handleCellEdit r c v g)) i
           = Some Undefined
           <-> nth_error (spreadsheetData g) i = Some Undefined
               \/ nth_error (spreadsheetData g) i = Some Hole))
    /\ (forall i, i <> r ->
          (nth_error (spreadsheetData (handleCellEdit r c v g)) i = Some Hole
           <-> length (spreadsheetData g) <= i < r)).
Proof.
  intros g r c v. destruct (slots_after_edit r c v g) as [A B].
  split; [exact A|]. split; intros i N; rewrite (B i N).
  - destruct (Nat.ltb_spec i (length (spreadsheetData g))) as [L|L].
    + rewrite nth_error_spread.
      destruct (nth_error (spreadsheetData g) i) as [[| |a]|]; simpl;
        split; try tauto; try congruence;
        intros [H|H]; congruence.
    + apply nth_error_None in L. rewrite L.
      destruct (i <? r); split; try congruence; intros [H|H]; congruence.
  - destruct (Nat.ltb_spec i (length (spreadsheetData g))) as [L|L].
    + rewrite nth_error_spread.
      destruct (nth_error (spreadsheetData g) i) as [[| |a]|]; simpl;
        split; try congruence; lia.
    + destruct (Nat.ltb_spec i r); split; try congruence; try lia.
Qed.

(** X21.  Two edits are enough to break the evaluation: an edit below the
    last row that leaves a gap, followed by any edit that does not fill the
    whole gap, leaves an [undefined] row, and the evaluation of a task then
    returns the error result without a request. *)
Theorem second_edit_after_a_gap_breaks_the_evaluation :
  forall g r1 c1 v1 r2 c2 v2 key taskId actions,
    length (spreadsheetData g) < r1 ->
    r2 <> length (spreadsheetData g) \/ length (spreadsheetData g) + 1 < r1 ->
    key <> [] ->
    1 <= taskId <= 5 ->
    Sheet.evaluateTask
      (heap (handleCellEdit r2 c2 v2 (handleCellEdit r1 c1 v1 g)))
      (spreadsheetData (handleCellEdit r2 c2 v2 (handleCellEdit r1 c1 v1 g)))
      key taskId actions
    = Ret error_result.
Proof.
  intros g r1 c1 v1 r2 c2 v2 key taskId actions L G K T.
  apply evaluateTask_with_undefined; [|exact K | exact T].
  set (n := length (spreadsheetData g)) in *.
  set (i := if Nat.eqb r2 n then n + 1 else n).
  assert (Hi : i <> r2 /\ n <= i < r1).
  { subst i. destruct (Nat.eqb_spec r2 n); lia. }
  destruct Hi as [N1 Rg].
  destruct (slots_after_edit r1 c1 v1 g) as [_ B1].
  specialize (B1 i ltac:(lia)). fold n in B1.
  destruct (Nat.ltb_spec i n); [lia|]. destruct (Nat.ltb_spec i r1); [|lia].
  destruct (slots_after_edit r2 c2 v2 (handleCellEdit r1 c1 v1 g)) as [_ B2].
  specialize (B2 i N1).
  assert (Li : i < length (spreadsheetData (handleCellEdit r1 c1 v1 g)))
    by (apply nth_error_Some; congruence).
  destruct (Nat.ltb_spec i (length (spreadsheetData (handleCellEdit r1 c1 v1 g))));
    [|lia].
  rewrite nth_error_spread, B1 in B2. simpl in B2.
  eapply nth_error_In. exact B2.
Qed.

Lemma second_edit_after_a_gap_breaks_the_evaluation_witness :
  Sheet.evaluateTask
    (heap (handleCellEdit 10 0 (lit "ab") (handleCellEdit 10 0 (lit "a") initial)))
    (spreadsheetData
       (handleCellEdit 10 0 (lit "ab") (handleCellEdit 10 0 (lit "a") initial)))
    key 1 []
  = Ret error_result.
Proof.
  apply (second_edit_after_a_gap_breaks_the_evaluation initial 10 0 (lit "a")
           10 0 (lit "ab") key 1 []).
  - simpl. lia.
  - left. simpl. lia.
  - discriminate.
  - lia.
Defined.

(** X22.  As long as the candidate stays within the first ten rows of the
    grid the array holds rows only, and the evaluation of a task does what
    the adapter does without the grid. *)
Theorem first_ten_rows_keep_the_evaluation :
  forall trace g key taskId actions,
    forallb (within_rows 10) trace = true ->
    run_events initial trace = Some g ->
    Sheet.evaluateTask (heap g) (spreadsheetData g) key taskId actions
    = Evaluator.evaluateTask key taskId actions.
Proof.
  intros trace g key taskId actions W Run.
  apply evaluateTask_without_undefined.
  set (J := fun g : Grid =>
              (forall i s, nth_error (spreadsheetData g) i = Some s ->
                           exists a, s = Ref a)
              /\ 9 <= length (spreadsheetData g)
              /\ exists r c, r < 10 /\ c < 8
                             /\ selectedCell g = Tasks.cellName r c).
  assert (Edit : forall g0 r c v, J g0 -> r < 10 ->
                   J (handleCellEdit r c v g0)).
  { intros g0 r c v (A & Len & Sel) Hr.
    destruct (slots_after_edit r c v g0) as [(a & Ha) B].
    split; [|split].
    - intros i s H. destruct (Nat.eq_dec i r) as [->|N].
      + rewrite Ha in H. inversion H. eauto.
      + rewrite (B i N) in H.
        destruct (Nat.ltb_spec i (length (spreadsheetData g0))).
        * rewrite nth_error_spread in H.
          destruct (nth_error (spreadsheetData g0) i) as [s0|] eqn:E;
            [|discriminate].
          destruct (A i s0 E) as [b ->]. simpl in H. inversion H. eauto.
        * destruct (Nat.ltb_spec i r); [lia | discriminate].
    - destruct (handleCellEdit_cases r c v g0) as [(b & _ & ->)|(_ & ->)]; simpl.
      + unfold spread. rewrite length_map. exact Len.
      + rewrite length_array_set. unfold spread. rewrite length_map. lia.
    - destruct (handleCellEdit_cases r c v g0) as [(b & _ & ->)|(_ & ->)];
        exact Sel. }
  assert (Step : forall g0 e g1, J g0 -> within_rows 10 e = true ->
                   step g0 e = Some g1 -> J g1).
  { intros g0 e g1 Jg We H. unfold step in H.
    destruct (enabled e) eqn:En; [|discriminate].
    destruct e as [r c|r c v|text|]; simpl in H, We, En.
    - inversion H; subst g1. destruct Jg as (A & Len & _).
      split; [exact A|]. split; [exact Len|].
      apply andb_true_iff in En. destruct En as [_ Hc].
      apply Nat.ltb_lt in We. apply Nat.ltb_lt in Hc. exists r, c. auto.
    - inversion H; subst g1. apply Nat.ltb_lt in We. apply Edit; assumption.
    - inversion H; subst g1. exact Jg.
    - destruct Jg as (A & Len & (r & c & Hr & Hc & Sel)).
      unfold formula_Enter in H.
      rewrite Sel, (selected_indices_cellName r c) in H by lia.
      inversion H; subst g1.
      destruct (Edit g0 r c (cellFormula g0)) as (A' & Len' & Sel');
        [split; [exact A | split; [exact Len | eauto]] | exact Hr |].
      split; [exact A'|]. split; [exact Len'|]. exact Sel'. }
  assert (Runs : forall tr g0 g1, J g0 -> forallb (within_rows 10) tr = true ->
                   run_events g0 tr = Some g1 -> J g1).
  { induction tr as [|e tr IH]; intros g0 g1 Jg Wt H; simpl in H, Wt.
    - inversion H; subst; exact Jg.
    - apply andb_true_iff in Wt. destruct Wt as [We Wt].
      destruct (step g0 e) as [g2|] eqn:E; [|discriminate].
      apply (IH g2 g1); [eapply Step; eassumption | exact Wt | exact H]. }
  assert (J0 : J initial).
  { split; [|split].
    - intros i s H. destruct s as [| |a]; eauto;
        apply nth_error_In in H; simpl in H;
        repeat (destruct H as [H|H]; [discriminate|]); destruct H.
    - simpl. lia.
    - exists 0, 0. repeat split; lia. }
  destruct (Runs trace initial g J0 W Run) as (A & _ & _).
  intro U. apply In_nth_error in U. destruct U as [i U].
  destruct (A i Undefined U) as [a Ha]. discriminate.
Qed.

Lemma first_ten_rows_keep_the_evaluation_witness :
  Sheet.evaluateTask
    (heap (grid_after [CellChange 9 2 (lit "=SUM(C2:C9)"); CellClick 9 3;
                       FormulaChange (lit "=COUNTA(D2:D9)"); FormulaEnter]))
    (spreadsheetData
       (grid_after [CellChange 9 2 (lit "=SUM(C2:C9)"); CellClick 9 3;
                    FormulaChange (lit "=COUNTA(D2:D9)"); FormulaEnter]))
    key 1 []
  = Evaluator.evaluateTask key 1 [].
Proof.
  apply (first_ten_rows_keep_the_evaluation
           [CellChange 9 2 (lit "=SUM(C2:C9)"); CellClick 9 3;
            FormulaChange (lit "=COUNTA(D2:D9)"); FormulaEnter]).
  - vm_compute. reflexivity.
  - vm_compute. reflexivity.
Defined.

(** X23.  An edit of a row that exists writes into the row itself: the
    array of the previous render, read afterwards, shows the new grid, not
    the one it was rendered from. *)
Theorem edit_writes_through_to_the_previous_array :
  forall g r c v a r' c',
    reachable g ->
    nth_error (spreadsheetData g) r = Some (Ref a) ->
    cell_of (heap (handleCellEdit r c v g)) (spreadsheetData g) r' c'
    = cellValue (handleCellEdit r c v g) r' c'.
Proof.
  intros g r c v a r' c' R Hr. unfold cellValue, cell_of, row_at.
  destruct (handleCellEdit_cases r c v g) as [(b & _ & ->)|(No & _)];
    [|exfalso; exact (No a Hr)].
  simpl. rewrite nth_error_spread.
  destruct (nth_error (spreadsheetData g) r') as [[| |d]|]; reflexivity.
Qed.

Lemma edit_writes_through_to_the_previous_array_witness :
  cell_of (heap (handleCellEdit 1 2 (lit "1399.99") initial))
    (spreadsheetData initial) 1 2
  = cellValue (handleCellEdit 1 2 (lit "1399.99") initial) 1 2.
Proof.
  apply (edit_writes_through_to_the_previous_array initial 1 2
           (lit "1399.99") 1 1 2).
  - constructor.
  - reflexivity.
Defined.

End SheetProperties.

Section FenceProperties.
Import Js Items Evaluator Scenario.

(** X24.  [evaluateTask] reads a reply wrapped in a fenced block tagged
    [json] like the reply itself: for a text without a backtick, the fenced
    text and the bare text give the same result. *)
Theorem evaluateTask_reads_a_fenced_reply_like_the_bare_one :
  forall apiKey taskId actions text,
    has_backtick text = false ->
    run (evaluateTask apiKey taskId actions) (reply (fence text))
    = run (evaluateTask apiKey taskId actions) (reply text).
Proof.
  intros apiKey taskId actions text H. unfold evaluateTask.
  destruct apiKey as [|c apiKey]; [reflexivity|].
  destruct (find (fun t => Nat.eqb (id t) taskId) EXCEL_TASKS); [|reflexivity].
  simpl. apply task_resume_unwraps, H.
Qed.

Lemma evaluateTask_reads_a_fenced_reply_like_the_bare_one_witness :
  run (evaluateTask key 1 []) (reply (fence sample_text))
  = run (evaluateTask key 1 []) (reply sample_text).
Proof.
  apply (evaluateTask_reads_a_fenced_reply_like_the_bare_one key 1 []
           sample_text).
  vm_compute. reflexivity.
Defined.

End FenceProperties.

Section TaskFlowProperties.
Import Js Items Evaluator Scenario Invariant Report Tasks.
Local Open Scope nat_scope.

(** X25.  The status and the badge of a task record never contradict each
    other: a record is marked completed exactly if its badge is not the
    destructive one. *)
Theorem status_and_badge_agree :
  forall s r,
    reachable s ->
    In r (taskResults s) ->
    (completed r = true <-> resultBadge r <> variant_destructive).
Proof.
  intros s r R I.
  rewrite (tinv_completed s (TInv_reachable s R) r I). unfold resultBadge.
  destruct (Qle_bool 8 (score r)) eqn:E8.
  - assert (E6 : Qle_bool 6 (score r) = true).
    { apply Qle_bool_iff. apply Qle_bool_iff in E8.
      apply (Qle_trans _ 8); [discriminate | exact E8]. }
    rewrite E6. split; [discriminate | reflexivity].
  - destruct (Qle_bool 6 (score r)); split; congruence.
Qed.

Lemma status_and_badge_agree_witness :
  completed (hd (mkTaskResult 0 [] false 0 [] [] 0)
               (taskResults (task_state_after one_task))) = true
  <-> resultBadge (hd (mkTaskResult 0 [] false 0 [] [] 0)
                     (taskResults (task_state_after one_task)))
      <> variant_destructive.
Proof.
  apply (status_and_badge_agree (task_state_after one_task)).
  - apply (task_run_events_reachable one_task initial);
      [constructor | vm_compute; reflexivity].
  - vm_compute. left. reflexivity.
Defined.

(** X26.  The next task starts with its own time limit.  When the
    evaluation of the task shown comes back, and it is not the last task,
    the index moves to the next task, the countdown is set to that task's
    time limit, the start time is the time of the reply, the loading flag is
    cleared and the countdown runs. *)
Theorem next_task_starts_with_its_own_time_limit :
  forall now s i p out,
    reachable s ->
    assessmentStage s = tasks ->
    currentTaskIndex s < 4 ->
    nth_error (inflight s) i = Some p ->
    p_index p = currentTaskIndex s ->
    typed (p_resume p out) <> None ->
    exists s' t,
      step now s (FetchSettled i out) = Some s'
      /\ currentTaskIndex s' = S (currentTaskIndex s)
      /\ nth_error EXCEL_TASKS (currentTaskIndex s') = Some t
      /\ timeRemaining s' = timeLimit t
      /\ taskStartTime s' = Some now
      /\ isLoading s' = false
      /\ enabled s' Tick = true.
Proof.
  intros now s i p out R Hs Hi Hp Hx Ht.
  destruct (typed (p_resume p out)) as [ev|] eqn:Ety; [|contradiction].
  destruct (nth_error EXCEL_TASKS (S (currentTaskIndex s))) as [t|] eqn:En;
    [|apply nth_error_None in En; simpl in En; lia].
  set (s1 := after_evaluation now p ev
               (set_inflight (remove_nth i (inflight s)) s)).
  assert (Step : step now s (FetchSettled i out) = Some (timer_effect s s1)).
  { unfold step, enabled, renders. rewrite Hs.
    destruct (Nat.ltb_spec (currentTaskIndex s) (length EXCEL_TASKS)) as [_|L];
      [|simpl in L; lia].
    assert (Li : i < length (inflight s)) by (apply nth_error_Some; congruence).
    destruct (Nat.ltb_spec i (length (inflight s))) as [_|L]; [|lia].
    simpl. unfold settle. rewrite Hp, Ety. reflexivity. }
  assert (S1 : currentTaskIndex s1 = S (currentTaskIndex s)
               /\ assessmentStage s1 = tasks
               /\ timeRemaining s1 = timeLimit t
               /\ taskStartTime s1 = Some now
               /\ isLoading s1 = false).
  { subst s1. unfold after_evaluation, startNextTask. rewrite Hx.
    destruct (Nat.ltb_spec (currentTaskIndex s) (length EXCEL_TASKS - 1)) as [_|L];
      [|simpl in L; lia].
    rewrite Nat.add_1_r, En. simpl. rewrite Nat.add_1_r. auto. }
  destruct S1 as (A & B & C & D & E).
  assert (R' : reachable (timer_effect s s1))
    by (eapply reach_step; [exact R | exact Step]).
  exists (timer_effect s s1), t.
  assert (F : timeRemaining (timer_effect s s1) = timeLimit t
              /\ taskStartTime (timer_effect s s1) = Some now
              /\ isLoading (timer_effect s s1) = false).
  { unfold timer_effect. destruct (_ && _); simpl; auto. }
  destruct F as (F1 & F2 & F3).
  split; [exact Step|]. rewrite timer_effect_index, A.
  split; [reflexivity|]. split; [exact En|]. split; [exact F1|].
  split; [exact F2|]. split; [exact F3|].
  destruct (task_timer_inv _ R') as (_ & _ & _ & Iff).
  rewrite timer_effect_stage, F1 in Iff.
  destruct (task_of_index _ _ En) as [Lim _].
  unfold enabled, renders. rewrite timer_effect_stage, B, timer_effect_index, A.
  destruct (Nat.ltb_spec (S (currentTaskIndex s)) (length EXCEL_TASKS)) as [_|L];
    [|simpl in L; lia].
  simpl. destruct (interval (timer_effect s s1)); [reflexivity|].
  exfalso. apply (proj2 Iff); [split; [exact B | lia] | reflexivity].
Qed.

Lemma next_task_starts_with_its_own_time_limit_witness :
  exists s' t,
    step 800%Z (task_state_after task_submitted) (FetchSettled 0 good_reply)
    = Some s'
    /\ currentTaskIndex s' = S (currentTaskIndex (task_state_after task_submitted))
    /\ nth_error EXCEL_TASKS (currentTaskIndex s') = Some t
    /\ timeRemaining s' = timeLimit t
    /\ taskStartTime s' = Some 800%Z
    /\ isLoading s' = false
    /\ enabled s' Tick = true.
Proof.
  apply (next_task_starts_with_its_own_time_limit 800%Z
           (task_state_after task_submitted) 0
           (first_task_call (task_state_after task_submitted)) good_reply).
  - apply (task_run_events_reachable task_submitted initial);
      [constructor | vm_compute; reflexivity].
  - vm_compute. reflexivity.
  - vm_compute. lia.
  - vm_compute. reflexivity.
  - vm_compute. reflexivity.
  - vm_compute. discriminate.
Defined.

End TaskFlowProperties.
